(** * Registry synchronisation tool (scripts/shadcn-ui.tsx): a shallow embedding

    The development follows the TypeScript source function by function.
    JavaScript strings are sequences of UTF-16 code units; they are modelled
    as [list N], one number per code unit, so that the character classes of
    the regular expressions ([\s], [\d], line terminators) are the ones of
    the language.  Arrays are lists, [undefined] results of indexing are
    [None], thrown exceptions are the left summand of a result. *)

From Stdlib Require Import String Ascii ZArith NArith Lia Sorted.
From Stdlib Require Import DecimalString DecimalZ DecimalPos.
From stdpp Require Import base numbers list.

Local Open Scope N_scope.

(** ** JavaScript strings *)

Abbreviation jsstring := (list N).

(** A literal of the source, written as a Rocq string of ASCII characters. *)
Definition js (s : string) : jsstring :=
  List.map N_of_ascii (list_ascii_of_string s).

Module JS.

(** [s.startsWith(p)] *)
Fixpoint startsWith (s p : jsstring) {struct p} : bool :=
  match p, s with
  | [], _ => true
  | _ :: _, [] => false
  | c :: p', d :: s' => if N.eqb c d then startsWith s' p' else false
  end.

(** [s.endsWith(p)] *)
Definition endsWith (s p : jsstring) : bool :=
  startsWith (rev s) (rev p).

(** [s.includes(p)] : some suffix of [s] starts with [p]. *)
Fixpoint includes (s p : jsstring) : bool :=
  startsWith s p ||
  match s with
  | [] => false
  | _ :: s' => includes s' p
  end.

(** [s.replace(p, r)] with a string pattern: the first occurrence of [p],
    scanning from the left, is replaced; [s] is returned unchanged when
    there is none.  (The replacement strings of the source contain no [$],
    so no replacement pattern is expanded.) *)
Fixpoint replace (s p r : jsstring) : jsstring :=
  if startsWith s p then r ++ drop (length p) s
  else match s with
       | [] => []
       | c :: s' => c :: replace s' p r
       end.

(** [s.split(sep)] for a separator of one code unit: never empty. *)
Fixpoint split (sep : N) (s : jsstring) : list jsstring :=
  match s with
  | [] => [[]]
  | c :: s' =>
      if N.eqb c sep then [] :: split sep s'
      else match split sep s' with
           | l :: ls => (c :: l) :: ls
           | [] => [[c]]
           end
  end.

(** [a.join(sep)] for an array of strings. *)
Fixpoint join (sep : jsstring) (a : list jsstring) : jsstring :=
  match a with
  | [] => []
  | [l] => l
  | l :: ls => l ++ sep ++ join sep ls
  end.

(** [a.includes(x)] on an array of strings (SameValueZero on strings is
    equality of the code unit sequences). *)
Definition arrayIncludes (a : list jsstring) (x : jsstring) : bool :=
  bool_decide (x ∈ a).

(** Rendering of an integer inside a template literal.  For the integers
    that occur (line numbers and counts, far below 2^53) this is the
    decimal numeral, with a minus sign for negative numbers. *)
Definition numberToString (z : Z) : jsstring :=
  js (NilZero.string_of_int (Z.to_int z)).

Definition LF : N := 10.
Definition quote : jsstring := [34].

End JS.

(** ** Diff Renderer: [generateDiff] *)

Module Diff.

(** The mutable variables of the loop of [generateDiff]. [hunkStart] is
    [-1] when no hunk is open, as in the source. *)
Record LoopState := mkLoop {
  diffLines : list jsstring;
  hunkStart : Z;
  hunkLocalStart : Z;
  hunkRegistryStart : Z;
  hunkLines : list jsstring
}.

(** [hunkLines.filter((line) => line.startsWith(p)).length] *)
Definition countStartingWith (p : jsstring) (lines : list jsstring) : Z :=
  Z.of_nat (length (List.filter (fun line => JS.startsWith line p) lines)).

(** The template
    [@@ -${localStart},${localCount} +${registryStart},${registryCount} @@] *)
Definition hunkHeader (localStart localCount registryStart registryCount : Z)
  : jsstring :=
  js "@@ -" ++ JS.numberToString localStart ++ js ","
    ++ JS.numberToString localCount ++ js " +"
    ++ JS.numberToString registryStart ++ js ","
    ++ JS.numberToString registryCount ++ js " @@".

(** The two pushes that emit a hunk: header, then the collected lines. *)
Definition emitHunk (st : LoopState) : list jsstring :=
  let localCount := countStartingWith (js "-") (hunkLines st) in
  let registryCount := countStartingWith (js "+") (hunkLines st) in
  diffLines st
    ++ [hunkHeader (hunkLocalStart st + 1) localCount
                   (hunkRegistryStart st + 1) registryCount]
    ++ hunkLines st.

(** One iteration of [for (let i = 0; i < maxLines; i++)]. *)
Definition step (localLines registryLines : list jsstring)
    (st : LoopState) (i : nat) : LoopState :=
  let localLine := default [] (localLines !! i) in
  let registryLine := default [] (registryLines !! i) in
  if negb (bool_decide (localLine = registryLine)) then
    let st1 :=
      if Z.eqb (hunkStart st) (-1)
      then mkLoop (diffLines st) (Z.of_nat i) (Z.of_nat i) (Z.of_nat i)
                  (hunkLines st)
      else st in
    let lines1 :=
      match localLines !! i with
      | Some _ => hunkLines st1 ++ [js "-" ++ localLine]
      | None => hunkLines st1
      end in
    let lines2 :=
      match registryLines !! i with
      | Some _ => lines1 ++ [js "+" ++ registryLine]
      | None => lines1
      end in
    mkLoop (diffLines st1) (hunkStart st1) (hunkLocalStart st1)
           (hunkRegistryStart st1) lines2
  else if negb (Z.eqb (hunkStart st) (-1)) then
    mkLoop (emitHunk st) (-1) (hunkLocalStart st) (hunkRegistryStart st) []
  else st.

Definition initial (fileName : jsstring) : LoopState :=
  mkLoop [js "--- a/" ++ fileName; js "+++ b/" ++ fileName] (-1) (-1) (-1) [].

(** The state when the loop exits. *)
Definition loop (localLines registryLines : list jsstring)
    (fileName : jsstring) : LoopState :=
  let maxLines := Nat.max (length localLines) (length registryLines) in
  fold_left (step localLines registryLines) (seq 0 maxLines)
            (initial fileName).

(** The array [diffLines] at the [return] statement. *)
Definition generateDiffLines (localContent registryContent fileName : jsstring)
  : list jsstring :=
  let localLines := JS.split JS.LF localContent in
  let registryLines := JS.split JS.LF registryContent in
  let st := loop localLines registryLines fileName in
  if negb (Z.eqb (hunkStart st) (-1)) then emitHunk st else diffLines st.

Definition generateDiff (localContent registryContent fileName : jsstring)
  : jsstring :=
  JS.join [JS.LF] (generateDiffLines localContent registryContent fileName).

End Diff.

(** ** Effects: exceptions over a mutable state *)

(** What a [catch (error)] clause can observe of the thrown value:
    [error instanceof Error ? error.message : 'Unknown error']. *)
Inductive JsError :=
| ErrorObject (message : jsstring)
| ThrownValue.

Module Eff.

(** A computation over a state [S] that returns or throws; the state
    survives a throw (what was pushed before the exception stays). *)
Definition M (S A : Type) : Type := S -> (JsError + A) * S.

Definition ret {S A} (a : A) : M S A := fun s => (inr a, s).

Definition throw {S A} (e : JsError) : M S A := fun s => (inl e, s).

Definition bind {S A B} (m : M S A) (k : A -> M S B) : M S B :=
  fun s =>
    match m s with
    | (inr a, s') => k a s'
    | (inl e, s') => (inl e, s')
    end.

(** [try { body } catch (error) { handler }] *)
Definition tryCatch {S A} (body : M S A) (handler : JsError -> M S A)
  : M S A :=
  fun s =>
    match body s with
    | (inr a, s') => (inr a, s')
    | (inl e, s') => handler e s'
    end.

(** A call that returns or throws without touching the state. *)
Definition lift {S A} (r : JsError + A) : M S A := fun s => (r, s).

Definition get {S} : M S S := fun s => (inr s, s).

Definition modify {S} (f : S -> S) : M S unit := fun s => (inr tt, f s).

(** [for (const x of l) { f x }] *)
Fixpoint forEach {S A} (f : A -> M S unit) (l : list A) : M S unit :=
  match l with
  | [] => ret tt
  | x :: l' => bind (f x) (fun _ => forEach f l')
  end.

End Eff.

Notation "'do' x <- m ; k" := (Eff.bind m (fun x => k))
  (at level 10, x name, m at level 100, k at level 200).

Definition REGISTRY_URL : jsstring :=
  js "https://redpanda-ui-registry.netlify.app".

(** ** Local Inventory Scanner: [getExistingComponents] *)

Module Scanner.

(** The part of [fs.Stats] that the source reads. *)
Record Stats := { isFile : bool }.

Record Directory := { path : jsstring; extensions : list jsstring }.

Definition directories : list Directory :=
  [ {| path := js "./src/components"; extensions := [js ".tsx"; js ".json"] |};
    {| path := js "./src/icons"; extensions := [js ".tsx"] |};
    {| path := js "./src/hooks"; extensions := [js ".ts"; js ".tsx"] |} ].

(** A non-empty string is truthy. *)
Definition truthy (s : jsstring) : bool :=
  match s with [] => false | _ => true end.

Section FileSystem.

(** The filesystem at call time, as the three library calls see it. *)
Variable readdirSync : jsstring -> JsError + list jsstring.
Variable statSync : jsstring -> JsError + Stats.
Variable join : jsstring -> jsstring -> jsstring.

(** The state is the array [components]. *)
Definition push (x : jsstring) : Eff.M (list jsstring) unit :=
  Eff.modify (fun components => components ++ [x]).

(** Body of [for (const file of files)]. *)
Definition scanFile (dirPath : jsstring) (exts : list jsstring)
    (file : jsstring) : Eff.M (list jsstring) unit :=
  let filePath := join dirPath file in
  do stat <- Eff.lift (statSync filePath);
  if isFile stat then
    match List.find (fun ext => JS.endsWith file ext) exts with
    | Some matchingExtension =>
        if truthy matchingExtension then
          let componentName := JS.replace file matchingExtension [] in
          if negb (bool_decide (componentName = js "index"))
          then push componentName
          else Eff.ret tt
        else Eff.ret tt
    | None => Eff.ret tt
    end
  else Eff.ret tt.

(** Body of [for (const { path: dirPath, extensions } of directories)]. *)
Definition scanDirectory (d : Directory) : Eff.M (list jsstring) unit :=
  Eff.tryCatch
    (do files <- Eff.lift (readdirSync (path d));
     Eff.forEach (scanFile (path d) (extensions d)) files)
    (fun _ => Eff.ret tt).

Definition checkTheme : Eff.M (list jsstring) unit :=
  Eff.tryCatch
    (let globalsPath := js "./src/globals.css" in
     do stat <- Eff.lift (statSync globalsPath);
     if isFile stat then push (js "theme") else Eff.ret tt)
    (fun _ => Eff.ret tt).

Definition scanAll (dirs : list Directory)
  : Eff.M (list jsstring) (list jsstring) :=
  do _ <- Eff.forEach scanDirectory dirs;
  do _ <- checkTheme;
  Eff.get.

(** [getExistingComponents()]: the outcome (returned array or escaped
    exception), starting from [components = []]. *)
Definition getExistingComponents : JsError + list jsstring :=
  fst (scanAll directories []).

End FileSystem.

End Scanner.

(** ** The two regular expressions of the Existence Verifier *)

Module Regex.

(** [\d] *)
Definition isDigit (c : N) : bool := (48 <=? c) && (c <=? 57).

(** Line terminators of the language: LF, CR, U+2028, U+2029. *)
Definition isLineTerminator (c : N) : bool :=
  (c =? 10) || (c =? 13) || (c =? 8232) || (c =? 8233).

(** [\s]: white space and line terminators. *)
Definition isSpace (c : N) : bool :=
  isLineTerminator c
  || (c =? 9) || (c =? 11) || (c =? 12) || (c =? 32) || (c =? 160)
  || (c =? 5760) || ((8192 <=? c) && (c <=? 8202)) || (c =? 8239)
  || (c =? 8287) || (c =? 12288) || (c =? 65279).

Fixpoint takeWhile (f : N -> bool) (s : jsstring) : jsstring :=
  match s with
  | c :: s' => if f c then c :: takeWhile f s' else []
  | [] => []
  end.

Fixpoint dropWhile (f : N -> bool) (s : jsstring) : jsstring :=
  match s with
  | c :: s' => if f c then dropWhile f s' else s
  | [] => []
  end.

Definition nonEmpty (s : jsstring) : bool :=
  match s with [] => false | _ => true end.

(** [/Skipped (\d+) files:/] tried at the head of [s]; the result is the
    text of group 1.  The greedy [\d+] takes the whole run of digits, and
    giving a digit back cannot help since a space must follow, so the
    attempt at one position has a single outcome. *)
Definition skippedAt (s : jsstring) : option jsstring :=
  if JS.startsWith s (js "Skipped ") then
    let rest := drop 8 s in
    let digits := takeWhile isDigit rest in
    if nonEmpty digits && JS.startsWith (dropWhile isDigit rest) (js " files:")
    then Some digits
    else None
  else None.

(** [output.match(/Skipped (\d+) files:/)]: the leftmost match. *)
Fixpoint matchSkipped (s : jsstring) : option jsstring :=
  match skippedAt s with
  | Some digits => Some digits
  | None =>
      match s with
      | [] => None
      | _ :: s' => matchSkipped s'
      end
  end.

(** [Number.parseInt] on a string of decimal digits.  (Beyond 2^53 the
    language rounds; such a value is compared only with an array length,
    which it exceeds rounded or not.) *)
Definition parseInt (digits : jsstring) : N :=
  fold_left (fun acc c => 10 * acc + (c - 48)) digits 0.

(** The body [\s*-\s+(src\/[^\s]+)] tried at the head of [s]: group 1 and
    the number of code units matched.  Each greedy run is maximal, and a
    shorter run would leave a white space character where [-] or [s] is
    required, so there is nothing to backtrack to. *)
Definition pathAt (s : jsstring) : option (jsstring * nat) :=
  let ws1 := takeWhile isSpace s in
  match dropWhile isSpace s with
  | 45 :: s2 =>
      let ws2 := takeWhile isSpace s2 in
      let s3 := dropWhile isSpace s2 in
      if nonEmpty ws2 && JS.startsWith s3 (js "src/") then
        let name := takeWhile (fun c => negb (isSpace c)) (drop 4 s3) in
        if nonEmpty name
        then Some (js "src/" ++ name,
                   (length ws1 + 1 + length ws2 + 4 + length name)%nat)
        else None
      else None
  | _ => None
  end.

(** The [while ((match = filePathRegex.exec(output)) !== null)] loop with
    the flags [gm]: [skip] code units remain before [lastIndex],
    [lineStart] tells whether [^] holds at the current position (start of
    input, or the previous code unit is a line terminator).  The result is
    the array [filePaths]. *)
Fixpoint execPaths (skip : nat) (lineStart : bool) (s : jsstring)
  : list jsstring :=
  match s with
  | [] => []
  | c :: s' =>
      match skip with
      | S k => execPaths k (isLineTerminator c) s'
      | O =>
          if lineStart then
            match pathAt s with
            | Some (group1, n) =>
                group1 :: execPaths (n - 1) (isLineTerminator c) s'
            | None => execPaths 0 (isLineTerminator c) s'
            end
          else execPaths 0 (isLineTerminator c) s'
      end
  end.

Definition filePaths (output : jsstring) : list jsstring :=
  execPaths 0 true output.

End Regex.

(** ** Session state *)

Inductive ConsoleEntry :=
| ConsoleLog (args : list jsstring)
| ConsoleWarn (args : list jsstring)
| ConsoleError (args : list jsstring).

Inductive UpdateResult := updated | skipped | failed.

#[global] Instance UpdateResult_eq_dec : EqDecision UpdateResult.
Proof. solve_decision. Defined.

Inductive Mode := view | installing | confirming | results | diff.

Record DiffRecord := mkDiffRecord {
  fileName : jsstring;
  diffText : jsstring;
  localPath : option jsstring
}.

(** The [useState] variables of [App] other than [progressMessages], and
    whether [exit()] has been called. *)
Record AppState := mkApp {
  registryComponents : list jsstring;
  existingComponents : list jsstring;
  missingComponents : list jsstring;
  loading : bool;
  error : option jsstring;
  mode : Mode;
  updateResults : list (jsstring * UpdateResult);
  diffResults : list DiffRecord;
  exited : bool
}.

Definition initialApp : AppState :=
  mkApp [] [] [] true None view [] [] false.

(** What the session changes: the commands handed to [execSync], in order,
    the console, the progress messages and the state of [App]. *)
Record World := mkWorld {
  spawned : list jsstring;
  console : list ConsoleEntry;
  progressMessages : list jsstring;
  app : AppState
}.

Definition emptyWorld : World := mkWorld [] [] [] initialApp.

(** The external installer: given the commands run so far and the command,
    the captured output, or the exception of a failed run (non-zero exit
    status, or the process could not be run). *)
Abbreviation Installer := (list jsstring -> jsstring -> JsError + jsstring).

Module Proc.

Definition execSync (installer : Installer) (command : jsstring)
  : Eff.M World jsstring :=
  fun w =>
    (installer (spawned w) command,
     mkWorld (spawned w ++ [command]) (console w) (progressMessages w)
             (app w)).

Definition consoleEmit (e : ConsoleEntry) : Eff.M World unit :=
  Eff.modify (fun w =>
    mkWorld (spawned w) (console w ++ [e]) (progressMessages w) (app w)).

Definition consoleLog (line : jsstring) : Eff.M World unit :=
  consoleEmit (ConsoleLog [line]).

(** [setProgressMessages((prev) => [...prev, message])] *)
Definition addProgressMessage (message : jsstring) : Eff.M World unit :=
  Eff.modify (fun w =>
    mkWorld (spawned w) (console w) (progressMessages w ++ [message])
            (app w)).

Definition setApp (f : AppState -> AppState) : Eff.M World unit :=
  Eff.modify (fun w =>
    mkWorld (spawned w) (console w) (progressMessages w) (f (app w))).

(** [error instanceof Error ? error.message : 'Unknown error'] *)
Definition errorMessage (error : JsError) : jsstring :=
  match error with
  | ErrorObject message => message
  | ThrownValue => js "Unknown error"
  end.

End Proc.

(** ** Existence Verifier: [verifyComponentMissing] *)

Module Verifier.

Definition command (componentName : jsstring) : jsstring :=
  js "bun x --bun shadcn@latest add " ++ JS.quote ++ REGISTRY_URL ++ js "/r/"
    ++ componentName ++ JS.quote ++ js " 2>&1".

(** The warning of the [catch] clause; its first argument starts with the
    warning sign U+26A0 U+FE0F. *)
Definition warning (componentName : jsstring) (error : JsError)
  : ConsoleEntry :=
  ConsoleWarn
    [ [9888; 65039] ++ js " Could not verify component " ++ JS.quote
      ++ componentName ++ JS.quote ++ js ":";
      Proc.errorMessage error ].

(** The [try] block once [execSync] has returned [output]. *)
Definition interpret (output : jsstring) : bool :=
  if JS.includes output (js "Skipped")
     && JS.includes output (js "files might be identical") then
    match Regex.matchSkipped output with
    | Some group1 =>
        let skippedCount := Regex.parseInt group1 in
        let filePaths := Regex.filePaths output in
        if (N.of_nat (length filePaths) =? skippedCount) && (0 <? skippedCount)
        then false
        else false
    | None => false
    end
  else true.

Definition verifyComponentMissing (installer : Installer)
    (componentName : jsstring) : Eff.M World bool :=
  Eff.tryCatch
    (do output <- Proc.execSync installer (command componentName);
     Eff.ret (interpret output))
    (fun error =>
       do _ <- Proc.consoleEmit (warning componentName error);
       Eff.ret true).

End Verifier.

(** ** Name Reconciler: [getVerifiedMissingComponents] *)

Module Reconciler.

Definition exactMatches (registryComponents existingComponents : list jsstring)
  : list jsstring :=
  List.filter (fun comp => JS.arrayIncludes existingComponents comp)
              registryComponents.

Definition potentialMismatches
    (registryComponents existingComponents : list jsstring) : list jsstring :=
  List.filter (fun comp => negb (JS.arrayIncludes existingComponents comp))
              registryComponents.

(** [onProgress?.(message)] *)
Definition progress (onProgress : option (jsstring -> Eff.M World unit))
    (message : jsstring) : Eff.M World unit :=
  match onProgress with
  | Some callback => callback message
  | None => Eff.ret tt
  end.

(** The [for] loop over [potentialMismatches], from index [i] on, with the
    arrays [verifiedMissing] and [alreadyInstalled] built so far. *)
Fixpoint verifyLoop (installer : Installer)
    (onProgress : option (jsstring -> Eff.M World unit))
    (total i : nat) (pending verifiedMissing alreadyInstalled : list jsstring)
  : Eff.M World (list jsstring * list jsstring) :=
  match pending with
  | [] => Eff.ret (verifiedMissing, alreadyInstalled)
  | component :: pending' =>
      do _ <- progress onProgress
        ([55357; 56580] ++ js " Checking " ++ component ++ js " ("
          ++ JS.numberToString (Z.of_nat (i + 1)) ++ js "/"
          ++ JS.numberToString (Z.of_nat (total)) ++ js ")");
      do missing <- Verifier.verifyComponentMissing installer component;
      if missing
      then verifyLoop installer onProgress total (S i) pending'
                      (verifiedMissing ++ [component]) alreadyInstalled
      else verifyLoop installer onProgress total (S i) pending'
                      verifiedMissing (alreadyInstalled ++ [component])
  end.

Definition getVerifiedMissingComponents (installer : Installer)
    (registryComponents existingComponents : list jsstring)
    (onProgress : option (jsstring -> Eff.M World unit))
  : Eff.M World (list jsstring) :=
  do _ <- progress onProgress ([55357; 56523]
    ++ js " Analyzing component names...");
  let exact := exactMatches registryComponents existingComponents in
  let mismatches := potentialMismatches registryComponents existingComponents in
  do _ <- progress onProgress
    ([9989] ++ js " " ++ JS.numberToString (Z.of_nat (length exact))
      ++ js " components found with exact name matches");
  if Nat.eqb (length mismatches) 0 then
    do _ <- progress onProgress
      ([55356; 57225]
        ++ js " All registry components have exact matches - no verification needed");
    Eff.ret []
  else
    do _ <- progress onProgress
      ([55357; 56589] ++ js " Verifying "
        ++ JS.numberToString (Z.of_nat (length mismatches))
        ++ js " components with potential name differences...");
    do r <- verifyLoop installer onProgress (length mismatches) 0 mismatches [] [];
    let verifiedMissing := fst r in
    let alreadyInstalled := snd r in
    do _ <-
      (if Nat.ltb 0 (length alreadyInstalled) then
         do _ <- Proc.consoleLog
           ([9989] ++ js " Found "
             ++ JS.numberToString (Z.of_nat (length alreadyInstalled))
             ++ js " components already installed (but under different names):");
         do _ <- Eff.forEach
           (fun comp => Proc.consoleLog (js "   - " ++ comp
             ++ js ": already added"))
           alreadyInstalled;
         Proc.consoleEmit (ConsoleLog [])
       else Eff.ret tt);
    do _ <- progress onProgress
      ([55357; 56522] ++ js " Verification complete: "
        ++ JS.numberToString (Z.of_nat (length verifiedMissing))
        ++ js " missing, "
        ++ JS.numberToString (Z.of_nat (length alreadyInstalled))
        ++ js " already installed");
    Eff.ret verifiedMissing.

End Reconciler.

(** ** Installer Driver: [updateComponent] *)

Module Driver.

Definition overwriteFlag (forceOverwrite : bool) : jsstring :=
  if forceOverwrite then js "--overwrite" else js "--overwrite".

Definition command (componentName : jsstring) (forceOverwrite : bool)
  : jsstring :=
  js "bun x --bun shadcn@latest add " ++ JS.quote ++ REGISTRY_URL ++ js "/r/"
    ++ componentName ++ JS.quote ++ js " " ++ overwriteFlag forceOverwrite.

(** The [try] block once [execSync] has returned [output]. *)
Definition classify (output : jsstring) : UpdateResult :=
  if JS.includes output (js "Skipped")
     && JS.includes output (js "files might be identical")
  then skipped
  else if JS.includes output (js "Updated")
          || JS.includes output (js "Installing dependencies")
  then updated
  else updated.

Definition failure (componentName : jsstring) (error : JsError)
  : ConsoleEntry :=
  ConsoleError
    [ [10060] ++ js " Failed to update component " ++ JS.quote
      ++ componentName ++ JS.quote ++ js ":";
      Proc.errorMessage error ].

Definition updateComponent (installer : Installer)
    (componentName : jsstring) (forceOverwrite : bool)
  : Eff.M World UpdateResult :=
  Eff.tryCatch
    (do output <- Proc.execSync installer (command componentName forceOverwrite);
     Eff.ret (classify output))
    (fun error =>
       do _ <- Proc.consoleEmit (failure componentName error);
       Eff.ret failed).

End Driver.

(** ** Registry breakdown by category *)

Module Breakdown.

Definition isHook (name : jsstring) : bool := JS.startsWith name (js "use-").
Definition isIcon (name : jsstring) : bool := JS.endsWith name (js "-icon").
Definition isTheme (name : jsstring) : bool :=
  bool_decide (name = js "theme").

Definition components (registryComponents : list jsstring) : list jsstring :=
  List.filter (fun name => negb (isHook name) && negb (isIcon name)
                           && negb (isTheme name))
              registryComponents.

Definition hooks (registryComponents : list jsstring) : list jsstring :=
  List.filter isHook registryComponents.

Definition icons (registryComponents : list jsstring) : list jsstring :=
  List.filter isIcon registryComponents.

Definition theme (registryComponents : list jsstring) : list jsstring :=
  List.filter isTheme registryComponents.

(** The numbers and lists that [RegistryBreakdown] computes from its
    props: the total shown, the four categories, and per category the
    names that are verified missing. *)
Record Summary := mkSummary {
  total : nat;
  componentNames : list jsstring;
  hookNames : list jsstring;
  iconNames : list jsstring;
  themeNames : list jsstring;
  missingComponentNames : list jsstring;
  missingHookNames : list jsstring;
  missingIconNames : list jsstring;
  missingThemeNames : list jsstring;
  verifiedMissing : nat
}.

Definition summary (registryComponents existingComponents
                    missingComponents : list jsstring) : Summary :=
  let inMissing := fun comp => JS.arrayIncludes missingComponents comp in
  mkSummary (length registryComponents)
    (components registryComponents) (hooks registryComponents)
    (icons registryComponents) (theme registryComponents)
    (List.filter inMissing (components registryComponents))
    (List.filter inMissing (hooks registryComponents))
    (List.filter inMissing (icons registryComponents))
    (List.filter inMissing (theme registryComponents))
    (length missingComponents).

End Breakdown.

(** ** Orchestration: [App] *)

Module App.

Record Flags := mkFlags {
  isAddMissing : bool;
  isAddAll : bool;
  isForce : bool;
  isDiff : bool;
  componentArg : option jsstring;
  hasNoArgs : bool
}.

(** [process.argv.find((arg) => !arg.startsWith('-') &&
    arg !== process.argv[0] && arg !== process.argv[1])] *)
Definition findComponentArg (argv : list jsstring) : option jsstring :=
  List.find (fun arg => negb (JS.startsWith arg (js "-"))
                        && negb (bool_decide (Some arg = argv !! 0%nat))
                        && negb (bool_decide (Some arg = argv !! 1%nat)))
            argv.

Definition parseFlags (argv : list jsstring) : Flags :=
  mkFlags (JS.arrayIncludes argv (js "--add-missing"))
          (JS.arrayIncludes argv (js "--add-all"))
          (JS.arrayIncludes argv (js "--force"))
          (JS.arrayIncludes argv (js "--diff"))
          (findComponentArg argv)
          (Nat.leb (length argv) 2).

(** The flags of a command line without arguments or flags. *)
Definition bareFlags : Flags := mkFlags false false false false None true.

(** Truthiness of [string | undefined | null]. *)
Definition truthy (o : option jsstring) : bool :=
  match o with
  | Some (_ :: _) => true
  | _ => false
  end.

(** The checks made before [render(<App />)]: [Some] lines when the
    process exits with status 1. *)
Definition validate (argv : list jsstring) : option (list jsstring) :=
  let f := parseFlags argv in
  if isForce f && negb (truthy (componentArg f)) && negb (isAddAll f) then
    Some [ [10060] ++ js " Error: --force flag requires a component name";
           js "Usage: bun run shadcn:ui:force <component-name>";
           js "Example: bun run shadcn:ui:force button";
           js "Or use: bun scripts/shadcn-ui.tsx --add-all --force" ]
  else if isDiff f && negb (truthy (componentArg f)) then
    Some [ [10060] ++ js " Error: --diff flag requires a component name";
           js "Usage: bun run shadcn:ui:diff <component-name>";
           js "Example: bun run shadcn:ui:diff button" ]
  else None.

Record RegistryItem := { name : jsstring }.

(** The response to the request for the registry index:
    [items] is [None] when the payload has no array of that name. *)
Record RegistryResponse := {
  ok : bool;
  status : Z;
  statusText : jsstring;
  items : option (list RegistryItem)
}.

Record ComponentFile := { path : jsstring; content : jsstring }.

Record ComponentResponse := {
  componentOk : bool;
  componentStatus : Z;
  componentStatusText : jsstring;
  files : list ComponentFile
}.

Definition setRegistryComponents (x : list jsstring) :=
  Proc.setApp (fun a => mkApp x (existingComponents a) (missingComponents a)
    (loading a) (error a) (mode a) (updateResults a) (diffResults a) (exited a)).
Definition setExistingComponents (x : list jsstring) :=
  Proc.setApp (fun a => mkApp (registryComponents a) x (missingComponents a)
    (loading a) (error a) (mode a) (updateResults a) (diffResults a) (exited a)).
Definition setMissingComponents (x : list jsstring) :=
  Proc.setApp (fun a => mkApp (registryComponents a) (existingComponents a) x
    (loading a) (error a) (mode a) (updateResults a) (diffResults a) (exited a)).
Definition setLoading (x : bool) :=
  Proc.setApp (fun a => mkApp (registryComponents a) (existingComponents a)
    (missingComponents a) x (error a) (mode a) (updateResults a)
    (diffResults a) (exited a)).
Definition setError (x : option jsstring) :=
  Proc.setApp (fun a => mkApp (registryComponents a) (existingComponents a)
    (missingComponents a) (loading a) x (mode a) (updateResults a)
    (diffResults a) (exited a)).
Definition setMode (x : Mode) :=
  Proc.setApp (fun a => mkApp (registryComponents a) (existingComponents a)
    (missingComponents a) (loading a) (error a) x (updateResults a)
    (diffResults a) (exited a)).
Definition setUpdateResults (x : list (jsstring * UpdateResult)) :=
  Proc.setApp (fun a => mkApp (registryComponents a) (existingComponents a)
    (missingComponents a) (loading a) (error a) (mode a) x
    (diffResults a) (exited a)).
Definition setDiffResults (x : list DiffRecord) :=
  Proc.setApp (fun a => mkApp (registryComponents a) (existingComponents a)
    (missingComponents a) (loading a) (error a) (mode a) (updateResults a)
    x (exited a)).
Definition exit :=
  Proc.setApp (fun a => mkApp (registryComponents a) (existingComponents a)
    (missingComponents a) (loading a) (error a) (mode a) (updateResults a)
    (diffResults a) true).

Definition resultName (r : UpdateResult) : jsstring :=
  match r with
  | updated => js "updated"
  | skipped => js "skipped"
  | failed => js "failed"
  end.

(** [(error as Error).message]: [undefined] for a value that is not an
    [Error]. *)
Definition messageOf (e : JsError) : option jsstring :=
  match e with
  | ErrorObject message => Some message
  | ThrownValue => None
  end.

(** [useEffect(() => { if (error) exit(); }, [error, exit])]: the effect of
    [App] that runs after a render in which [error] has changed. *)
Definition errorEffect : Eff.M World unit :=
  fun w => if truthy (error (app w)) then exit w else Eff.ret tt w.

(** A state update made once [exit] has unmounted the tree is dropped. *)
Definition whenMounted (update : Eff.M World unit) : Eff.M World unit :=
  fun w => if exited (app w) then Eff.ret tt w else update w.

(** How the renderer treats the state updates that [loadData] makes after
    an [await]: the updates of one synchronous stretch are rendered
    together (automatic batching), or each update is rendered, and the
    effects it triggers are run, before the next one is made.  The source
    does not fix which; it comes with the versions of [ink] and [react]. *)
Inductive Scheduling := Batched | OneByOne.

Section Environment.

Variable installer : Installer.
(** The filesystem, as in [Scanner]. *)
Variable readdirSync : jsstring -> JsError + list jsstring.
Variable statSync : jsstring -> JsError + Scanner.Stats.
Variable join : jsstring -> jsstring -> jsstring.
Variable readFileSync : jsstring -> JsError + jsstring.
(** The registry endpoint. *)
Variable fetchRegistry : JsError + RegistryResponse.
Variable fetchComponent : jsstring -> JsError + ComponentResponse.
(** [getLocalFilePath], used by the diff mode only; its result is taken
    as given. *)
Variable getLocalFilePath : jsstring -> jsstring -> option jsstring.
(** The renderer. *)
Variable scheduling : Scheduling.

Definition fetchRegistryComponents : JsError + list jsstring :=
  match fetchRegistry with
  | inl e => inl e
  | inr response =>
      if negb (ok response) then
        inl (ErrorObject (js "Failed to fetch registry: "
          ++ JS.numberToString (status response) ++ js " "
          ++ statusText response))
      else
        match items response with
        | None => inl (ErrorObject (js "Invalid registry format: missing items array"))
        | Some registryItems =>
            inr (List.filter
                   (fun n => negb (JS.includes n (js "-demo"))
                             && negb (bool_decide (n = js "index"))
                             && negb (bool_decide (n = js "theme")))
                   (List.map name registryItems))
        end
  end.

Definition fetchComponentDetails (componentName : jsstring)
  : JsError + list ComponentFile :=
  match fetchComponent componentName with
  | inl e => inl e
  | inr response =>
      if negb (componentOk response) then
        inl (ErrorObject (js "Failed to fetch component " ++ JS.quote
          ++ componentName ++ JS.quote ++ js ": "
          ++ JS.numberToString (componentStatus response) ++ js " "
          ++ componentStatusText response))
      else inr (files response)
  end.

(** Body of [for (const file of componentDetails.files)]. *)
Definition diffFile (component : jsstring) (file : ComponentFile)
  : DiffRecord :=
  let local := getLocalFilePath component (path file) in
  let localContent :=
    if truthy local then
      match readFileSync (default [] local) with
      | inr text => text
      | inl _ => []
      end
    else [] in
  mkDiffRecord (path file)
               (Diff.generateDiff localContent (content file) (path file))
               local.

(** The dry run of [--add-all] without [--force]. *)
Definition dryRun (regComponents : list jsstring) : Eff.M World unit :=
  let components := Breakdown.components regComponents in
  let hooks := Breakdown.hooks regComponents in
  let icons := Breakdown.icons regComponents in
  let theme := Breakdown.theme regComponents in
  let listing (label : jsstring) (names : list jsstring) :=
    if Nat.ltb 0 (length names)
    then Proc.consoleLog
           (label ++ js " (" ++ JS.numberToString (Z.of_nat (length names))
              ++ js "): " ++ JS.join (js ", ") names)
    else Eff.ret tt in
  do _ <- Proc.consoleLog ([55357; 56589]
    ++ js " DRY RUN: --add-all flag detected");
  do _ <- Proc.consoleLog [];
  do _ <- Proc.consoleLog ([55357; 56550] ++ js " Would install "
    ++ JS.numberToString (Z.of_nat (length regComponents))
    ++ js " registry components:");
  do _ <- Proc.consoleLog [];
  do _ <- listing ([55358; 56809] ++ js " Components") components;
  do _ <- listing ([55358; 56989] ++ js " Hooks") hooks;
  do _ <- listing ([55356; 57256] ++ js " Icons") icons;
  do _ <- listing ([55356; 57261] ++ js " Theme") theme;
  do _ <- Proc.consoleLog [];
  do _ <- Proc.consoleLog ([55357; 56481]
    ++ js " To actually install all components, run:");
  do _ <- Proc.consoleLog (js "   bun scripts/shadcn-ui.tsx --add-all --force");
  do _ <- Proc.consoleLog [];
  do _ <- Proc.consoleLog ([9888; 65039]
    ++ js "  This will overwrite all existing components with registry versions!");
  exit.

(** The statements of [loadData] after [setLoading(false)]. *)
Definition dispatch (f : Flags) (regComponents verifiedMissing : list jsstring)
  : Eff.M World unit :=
  if isAddAll f then
    if Nat.ltb 0 (length regComponents) then
      if isForce f then
        do _ <- setMissingComponents regComponents;
        setMode installing
      else dryRun regComponents
    else
      do _ <- Proc.consoleLog ([10060]
        ++ js " No registry components found to install!");
      exit
  else if isAddMissing f then
    if Nat.ltb 0 (length verifiedMissing) then setMode installing
    else
      do _ <- Proc.consoleLog ([10024]
        ++ js " All registry components are already installed!");
      exit
  else if truthy (componentArg f) then
    let arg := default [] (componentArg f) in
    if JS.arrayIncludes regComponents arg then
      if isDiff f then
        do _ <- Proc.addProgressMessage
          ([55357; 56589] ++ js " Fetching component details for " ++ JS.quote
            ++ arg ++ JS.quote ++ js "...");
        Eff.tryCatch
          (do componentFiles <- Eff.lift (fetchComponentDetails arg);
           do _ <- setDiffResults (List.map (diffFile arg) componentFiles);
           setMode diff)
          (fun e =>
             setError (Some (js "Failed to fetch component details: "
               ++ default (js "undefined") (messageOf e))))
      else if isForce f then
        do _ <- Proc.consoleLog ([55357; 56580] ++ js " Installing component "
          ++ JS.quote ++ arg ++ JS.quote ++ js " with --force...");
        do result <- Driver.updateComponent installer arg true;
        do _ <-
          (if bool_decide (result = failed)
           then Proc.consoleLog ([10060] ++ js " Component " ++ JS.quote
             ++ arg ++ JS.quote
             ++ js " installation failed. Check the error messages above.")
           else Proc.consoleLog ([9989] ++ js " Component " ++ JS.quote ++ arg
             ++ JS.quote ++ js " installation result: "
             ++ resultName result));
        do _ <- setUpdateResults [(arg, result)];
        setMode results
      else setMode confirming
    else
      do _ <- Proc.consoleLog ([10060] ++ js " Component " ++ JS.quote ++ arg
        ++ JS.quote ++ js " not found in registry");
      do _ <- Proc.consoleLog
        (js "Available components: " ++ JS.join (js ", ") regComponents);
      exit
  else if negb (hasNoArgs f) then
    do _ <- Proc.consoleLog ([10060]
      ++ js " Unknown arguments or flags provided");
    do _ <- Proc.consoleLog (js "Usage: bun scripts/shadcn-ui.tsx [component-name] [--add-missing] [--add-all] [--force] [--diff]");
    do _ <- Proc.consoleLog (js "  --diff: Show differences between local and registry versions");
    do _ <- Proc.consoleLog (js "  --add-missing: Install all missing components");
    do _ <- Proc.consoleLog (js "  --add-all: Show what components would be installed (dry run)");
    do _ <- Proc.consoleLog (js "  --add-all --force: Install all registry components (overwriting existing ones)");
    do _ <- Proc.consoleLog (js "  --force: Install without confirmation");
    exit
  else Eff.ret tt.

(** [error] is set in two places, the two [catch] clauses.  The inner one
    (in [dispatch]) is the last update of [loadData]; in the outer one
    [setLoading(false)] follows, so there the scheduling decides whether the
    effect on [error] runs before that update (with [loading] still true)
    or after it. *)
Definition loadData (f : Flags) : Eff.M World unit :=
  Eff.tryCatch
    (do _ <- Proc.addProgressMessage ([55356; 57104]
      ++ js " Fetching registry components...");
     do exComponents <-
       Eff.lift (Scanner.getExistingComponents readdirSync statSync join);
     do regComponents <- Eff.lift fetchRegistryComponents;
     do _ <- Proc.addProgressMessage
       ([55357; 56550] ++ js " Found "
         ++ JS.numberToString (Z.of_nat (length regComponents))
         ++ js " registry components");
     do _ <- Proc.addProgressMessage
       ([55357; 56510] ++ js " Found "
         ++ JS.numberToString (Z.of_nat (length exComponents))
         ++ js " local components");
     do _ <- setRegistryComponents regComponents;
     do _ <- setExistingComponents exComponents;
     do verifiedMissing <-
       Reconciler.getVerifiedMissingComponents installer regComponents
         exComponents (Some Proc.addProgressMessage);
     do _ <- setMissingComponents verifiedMissing;
     do _ <- Proc.addProgressMessage ([10024] ++ js " Analysis complete");
     do _ <- setLoading false;
     dispatch f regComponents verifiedMissing)
    (fun e =>
       do _ <- setError (messageOf e);
       match scheduling with
       | Batched => setLoading false
       | OneByOne =>
           do _ <- errorEffect;
           whenMounted (setLoading false)
       end).

(** What [App] returns once [loadData] has run. *)
Inductive View :=
| LoadingSpinner (messages : list jsstring)
| ErrorView (message : jsstring)
| UpdateProgressComponent (components : list jsstring) (addAll : bool)
| ComponentUpdateWithConfirmation (components : list jsstring)
| ResultsComponent (outcomes : list (jsstring * UpdateResult))
| DiffComponent (componentName : jsstring) (diffs : list DiffRecord)
| RegistryBreakdown (s : Breakdown.Summary)
| Nothing.

Definition render (f : Flags) (w : World) : View :=
  let a := app w in
  if loading a then LoadingSpinner (progressMessages w)
  else if truthy (error a) then ErrorView (default [] (error a))
  else
    match mode a with
    | installing => UpdateProgressComponent (missingComponents a) (isAddAll f)
    | confirming =>
        ComponentUpdateWithConfirmation
          (if truthy (componentArg f) then [default [] (componentArg f)]
           else missingComponents a)
    | results => ResultsComponent (updateResults a)
    | diff => DiffComponent (default [] (componentArg f)) (diffResults a)
    | view =>
        if hasNoArgs f
        then RegistryBreakdown
               (Breakdown.summary (registryComponents a)
                  (existingComponents a) (missingComponents a))
        else Nothing
    end.

(** A run of the script up to the last frame that follows [loadData]:
    either the process exits with status 1 before anything is rendered,
    or the world after [loadData] and the effect of [App] on [error],
    and the frame rendered from it.  (When [exit] has been called that
    frame is the last one; the effects of the component it mounts are
    those of [Batch] and [Confirm].) *)
Inductive Outcome :=
| ExitStatus1 (lines : list jsstring)
| Rendered (w : World) (v : View).

Definition run (argv : list jsstring) : Outcome :=
  match validate argv with
  | Some lines => ExitStatus1 lines
  | None =>
      let f := parseFlags argv in
      let w := snd ((do _ <- loadData f; errorEffect) emptyWorld) in
      Rendered w (render f w)
  end.

End Environment.

End App.

(** ** Reading a diff back *)

Module Patch.

(** The local start line of a hunk header [@@ -a,c +b,d @@]. *)
Definition headerStart (line : jsstring) : option nat :=
  if JS.startsWith line (js "@@ -") then
    let digits := Regex.takeWhile Regex.isDigit (drop 4 line) in
    if Regex.nonEmpty digits
    then Some (N.to_nat (Regex.parseInt digits))
    else None
  else None.

(** Applying the lines of the hunks, in order, to a text of which [pos]
    lines have been passed, [rest] are still to come and [out] is the
    result so far.  A header with local start [a] copies the lines before
    line [a] unchanged; a [-] line deletes the next line, which has to be
    the line it carries; a [+] line inserts the line it carries.  What
    remains after the last hunk is copied. *)
Fixpoint apply (hunks : list jsstring) (pos : nat)
    (rest out : list jsstring) : option (list jsstring) :=
  match hunks with
  | [] => Some (out ++ rest)
  | line :: hunks' =>
      match line with
      | 64 :: _ =>
          match headerStart line with
          | Some a =>
              if (a - 1 <? pos)%nat then None
              else apply hunks' (a - 1)%nat (drop (a - 1 - pos) rest)
                         (out ++ take (a - 1 - pos) rest)
          | None => None
          end
      | 45 :: text =>
          match rest with
          | l :: rest' =>
              if bool_decide (l = text) then apply hunks' (S pos) rest' out
              else None
          | [] => None
          end
      | 43 :: text => apply hunks' pos rest (out ++ [text])
      | _ => None
      end
  end.

(** The text obtained from [localText] by the hunks of the array
    [diffLines], whose first two elements are the file header. *)
Definition applyTo (diffLines : list jsstring) (localText : jsstring)
  : option jsstring :=
  JS.join [JS.LF] <$>
    apply (drop 2 diffLines) 0 (JS.split JS.LF localText) [].

(** The same, starting from the text that [generateDiff] returns, cut
    into lines again as [DiffComponent] does ([diff.split('\n')], of which
    it skips the first two). *)
Definition applyText (diffText localText : jsstring) : option jsstring :=
  applyTo (JS.split JS.LF diffText) localText.

(** No line of the longer text that lies beyond the end of the shorter
    one is empty. *)
Definition noBlankOverhang (localText registryText : jsstring) : Prop :=
  let localLines := JS.split JS.LF localText in
  let registryLines := JS.split JS.LF registryText in
  (forall i, (length registryLines <= i)%nat -> localLines !! i <> Some [])
  /\ (forall i, (length localLines <= i)%nat -> registryLines !! i <> Some []).

End Patch.

(** ** The verdict rule of the Existence Verifier, as the specification
       words it *)

Module VerdictRule.

Definition mentionsSkippedIdentical (output : jsstring) : bool :=
  JS.includes output (js "Skipped")
  && JS.includes output (js "files might be identical").

Definition declaredCount (output : jsstring) : option N :=
  Regex.parseInt <$> Regex.matchSkipped output.

Definition extractedCount (output : jsstring) : N :=
  N.of_nat (length (Regex.filePaths output)).

(** Present when the counts agree and are positive; present when the
    output mentions skipped files but the counts disagree; missing in all
    other cases. *)
Definition isMissing (mentions : bool) (declared : option N) (extracted : N)
  : bool :=
  match mentions, declared with
  | true, Some n =>
      if (extracted =? n) && (0 <? n) then false
      else if negb (extracted =? n) then false
      else true
  | _, _ => true
  end.

Definition verdict (output : jsstring) : bool :=
  isMissing (mentionsSkippedIdentical output) (declaredCount output)
            (extractedCount output).

End VerdictRule.

(** ** The scan as a function of the directory listings *)

Module ScanNames.

Section FileSystem.

Variable readdirSync : jsstring -> JsError + list jsstring.
Variable statSync : jsstring -> JsError + Scanner.Stats.
Variable join : jsstring -> jsstring -> jsstring.

(** The name that one regular file contributes, if any. *)
Definition candidate (exts : list jsstring) (file : jsstring)
  : list jsstring :=
  match List.find (fun ext => JS.endsWith file ext) exts with
  | Some matchingExtension =>
      if Scanner.truthy matchingExtension
         && negb (bool_decide (JS.replace file matchingExtension [] = js "index"))
      then [JS.replace file matchingExtension []]
      else []
  | None => []
  end.

(** The names of a listing, up to the first entry that [statSync]
    rejects. *)
Fixpoint listingNames (dirPath : jsstring) (exts files : list jsstring)
  : list jsstring :=
  match files with
  | [] => []
  | file :: files' =>
      match statSync (join dirPath file) with
      | inl _ => []
      | inr stat =>
          (if Scanner.isFile stat then candidate exts file else [])
            ++ listingNames dirPath exts files'
      end
  end.

Definition directoryNames (d : Scanner.Directory) : list jsstring :=
  match readdirSync (Scanner.path d) with
  | inl _ => []
  | inr files => listingNames (Scanner.path d) (Scanner.extensions d) files
  end.

Definition themeName : list jsstring :=
  match statSync (js "./src/globals.css") with
  | inl _ => []
  | inr stat => if Scanner.isFile stat then [js "theme"] else []
  end.

End FileSystem.

End ScanNames.

(** ** Sample environments *)

Module Sample.

Definition regularFile : Scanner.Stats := {| Scanner.isFile := true |}.

(** [path.join] on a directory of the scan and an entry name: the
    leading [./] is normalised away. *)
Definition joinPath (dir file : jsstring) : jsstring :=
  (if JS.startsWith dir (js "./") then drop 2 dir else dir) ++ js "/" ++ file.

Definition enoent : JsError := ErrorObject (js "ENOENT: no such file or directory").

(** A project whose component directory holds [button.tsx] and
    [button.json] and nothing else. *)
Definition twoButtons (dir : jsstring) : JsError + list jsstring :=
  if bool_decide (dir = js "./src/components")
  then inr [js "button.tsx"; js "button.json"]
  else inl enoent.

Definition statTwoButtons (p : jsstring) : JsError + Scanner.Stats :=
  if bool_decide (p = js "src/components/button.tsx")
     || bool_decide (p = js "src/components/button.json")
  then inr regularFile
  else inl enoent.

(** An empty project. *)
Definition noDirectory (dir : jsstring) : JsError + list jsstring := inl enoent.
Definition noFile (p : jsstring) : JsError + Scanner.Stats := inl enoent.
Definition noText (p : jsstring) : JsError + jsstring := inl enoent.

(** A registry that offers the single component [card]. *)
Definition cardRegistry : JsError + App.RegistryResponse :=
  inr {| App.ok := true; App.status := 200; App.statusText := js "OK";
         App.items := Some [ {| App.name := js "card" |} ] |}.

Definition noComponent (n : jsstring) : JsError + App.ComponentResponse :=
  inl ThrownValue.

Definition noLocalPath (component registryPath : jsstring) : option jsstring :=
  None.

(** Installer runs. *)
Definition failing : Installer := fun _ _ => inl (ErrorObject (js "Command failed")).
Definition answering (output : jsstring) : Installer := fun _ _ => inr output.

Definition identicalNote : jsstring :=
  js " (files might be identical, use --overwrite to overwrite)".

Definition skippedTwoOfTwo : jsstring :=
  js "Skipped 2 files:" ++ identicalNote ++ [JS.LF]
    ++ js "  - src/components/card.tsx" ++ [JS.LF]
    ++ js "  - src/components/card-header.tsx".

Definition skippedTwoOfThree : jsstring :=
  js "Skipped 3 files:" ++ identicalNote ++ [JS.LF]
    ++ js "  - src/components/card.tsx" ++ [JS.LF]
    ++ js "  - src/components/card-header.tsx".

Definition skippedNone : jsstring :=
  js "Skipped 0 files:" ++ identicalNote.

Definition created : jsstring :=
  js "Created 1 file:" ++ [JS.LF] ++ js "  - src/components/card.tsx".

(** The command line of a run without arguments. *)
Definition bareArgv : list jsstring :=
  [js "/usr/local/bin/bun"; js "scripts/shadcn-ui.tsx"].

End Sample.

(** ** Local file lookup: [getLocalFilePath] *)

Module LocalPath.

(** The entries of [pathMappings], in the order of the object literal. *)
Definition pathMappings : list (jsstring * jsstring) :=
  [ (js "registry/components", js "src/components");
    (js "registry/hooks", js "src/hooks");
    (js "registry/lib", js "src/lib");
    (js "registry/icons", js "src/components/icons") ].

(** The loop over [Object.entries(pathMappings)], left at the first prefix
    that matches. *)
Fixpoint mapPrefix (mappings : list (jsstring * jsstring))
    (registryPath : jsstring) : jsstring :=
  match mappings with
  | [] => registryPath
  | (registryPrefix, localPrefix) :: mappings' =>
      if JS.startsWith registryPath registryPrefix
      then JS.replace registryPath registryPrefix localPrefix
      else mapPrefix mappings' registryPath
  end.

(** [parts[parts.length - 2]] *)
Definition secondToLast (parts : list jsstring) : option jsstring :=
  if (length parts <? 2)%nat then None
  else parts !! (length parts - 2)%nat.

(** The special case of a path that mentions [index.tsx]. *)
Definition flattenIndex (registryPath localPath : jsstring) : jsstring :=
  if JS.includes registryPath (js "index.tsx") then
    match secondToLast (JS.split 47 localPath) with
    | Some componentDir =>
        if Scanner.truthy componentDir
           && negb (bool_decide (componentDir = js "components"))
        then js "src/components/" ++ componentDir ++ js ".tsx"
        else localPath
    | None => localPath
    end
  else localPath.

Definition alternatives (componentName localPath : jsstring)
  : list jsstring :=
  [ JS.replace localPath (js ".tsx") (js ".ts");
    JS.replace localPath (js ".ts") (js ".tsx");
    JS.replace localPath (js "src/components/") (js "src/components/ui/");
    js "src/components/" ++ componentName ++ js ".tsx";
    js "src/components/ui/" ++ componentName ++ js ".tsx" ].

Section FileSystem.

Variable statSync : jsstring -> JsError + Scanner.Stats.

(** [for (const alt of alternatives)], each probe in its own [try]. *)
Fixpoint firstFile (alts : list jsstring) : option jsstring :=
  match alts with
  | [] => None
  | alt :: alts' =>
      match statSync alt with
      | inr stat => if Scanner.isFile stat then Some alt else firstFile alts'
      | inl _ => firstFile alts'
      end
  end.

Definition getLocalFilePath (componentName registryPath : jsstring)
  : option jsstring :=
  let localPath :=
    flattenIndex registryPath (mapPrefix pathMappings registryPath) in
  match statSync localPath with
  | inr stat => if Scanner.isFile stat then Some localPath else None
  | inl _ => firstFile (alternatives componentName localPath)
  end.

End FileSystem.

End LocalPath.

(** ** Diff view: [DiffComponent] *)

Module DiffView.

Inductive Colour := cyan | red | green | gray.

(** The colour that the view gives a line of the diff. *)
Definition lineColour (line : jsstring) : Colour :=
  if JS.startsWith line (js "@@") then cyan
  else if JS.startsWith line (js "-") then red
  else if JS.startsWith line (js "+") then green
  else gray.

(** [diff.split('\n').slice(2).map(...)] *)
Definition colours (diffText : jsstring) : list Colour :=
  List.map lineColour (drop 2 (JS.split JS.LF diffText)).

(** [diffs.some((d) => d.diff.includes('@@'))] *)
Definition hasDifferences (diffs : list DiffRecord) : bool :=
  existsb (fun d => JS.includes (diffText d) (js "@@")) diffs.

End DiffView.

(** ** The emitted lines as a sequence of hunks *)

Module Hunks.

(** A hunk: the index at which it opened and the lines collected in it. *)
Definition Hunk : Type := nat * list jsstring.

(** What [generateDiff] pushes for a hunk when it closes it. *)
Definition render (h : Hunk) : list jsstring :=
  Diff.hunkHeader (Z.of_nat (fst h) + 1)
                  (Diff.countStartingWith (js "-") (snd h))
                  (Z.of_nat (fst h) + 1)
                  (Diff.countStartingWith (js "+") (snd h))
    :: snd h.

Definition marked (line : jsstring) : Prop :=
  exists text, line = 45 :: text \/ line = 43 :: text.

End Hunks.

(** ** Final tally: [ResultsComponent] *)

Module Results.

Definition withResult (r : UpdateResult)
    (results : list (jsstring * UpdateResult))
  : list (jsstring * UpdateResult) :=
  List.filter (fun entry => bool_decide (snd entry = r)) results.

(** What the view shows: the three counts (each line only when its count
    is positive), the names of the failed components, the total, and
    whether the closing line is the one of a full success. *)
Record Tally := mkTally {
  updatedLine : option nat;
  skippedLine : option nat;
  failedLine : option (nat * jsstring);
  totalProcessed : nat;
  allSynced : bool
}.

Definition positive (n : nat) : option nat :=
  if Nat.ltb 0 n then Some n else None.

Definition tally (results : list (jsstring * UpdateResult)) : Tally :=
  let updatedEntries := withResult updated results in
  let skippedEntries := withResult skipped results in
  let failedEntries := withResult failed results in
  mkTally (positive (length updatedEntries))
          (positive (length skippedEntries))
          (if Nat.ltb 0 (length failedEntries)
           then Some (length failedEntries,
                      JS.join (js ", ") (List.map fst failedEntries))
           else None)
          (length results)
          (Nat.eqb (length failedEntries) 0).

End Results.

(** ** Batch installation: [UpdateProgressComponent] *)

Module Batch.

(** [handleUpdateComplete] of [App], the [onComplete] of the component. *)
Definition handleUpdateComplete (completed : list (jsstring * UpdateResult))
  : Eff.M World unit :=
  do _ <- App.setUpdateResults completed;
  App.setMode results.

(** The two [useState] variables of the component. *)
Record State := mkState {
  currentIndex : nat;
  results : list (jsstring * UpdateResult)
}.

Definition initial : State := mkState 0 [].

(** One run of the effect: the new state, and the argument of
    [onComplete] when it is called. *)
Definition effect (installer : Installer) (components : list jsstring)
    (st : State)
  : Eff.M World (State * option (list (jsstring * UpdateResult))) :=
  if (currentIndex st <? length components)%nat then
    let component := default [] (components !! currentIndex st) in
    do result <- Driver.updateComponent installer component true;
    Eff.ret (mkState (S (currentIndex st))
                     (results st ++ [(component, result)]), None)
  else if Nat.eqb (length (results st)) (length components) then
    Eff.ret (st, Some (results st))
  else Eff.ret (st, None).

(** The effect runs again after each change of state, until it calls
    [onComplete] or leaves the state as it is; [fuel] bounds the number of
    runs. *)
Fixpoint run (installer : Installer) (components : list jsstring)
    (fuel : nat) (st : State)
  : Eff.M World (option (list (jsstring * UpdateResult))) :=
  match fuel with
  | O => Eff.ret None
  | S fuel' =>
      do r <- effect installer components st;
      match snd r with
      | Some completed => Eff.ret (Some completed)
      | None =>
          if Nat.eqb (currentIndex (fst r)) (currentIndex st)
          then Eff.ret None
          else run installer components fuel' (fst r)
      end
  end.

End Batch.

(** ** Confirmation: [ConfirmationPrompt] and
       [ComponentUpdateWithConfirmation] *)

Module Confirm.

(** What the input handler reads of a key press. *)
Record Key := mkKey { isReturn : bool; input : jsstring }.

(** [input.toLowerCase() === c] for an ASCII lower case letter [c]: the
    input is that letter or its capital (no other string has it as its
    lower case form). *)
Definition lowerIs (input : jsstring) (c : N) : bool :=
  bool_decide (input = [c]) || bool_decide (input = [c - 32]).

(** The handler of [useInput]: the argument of [onConfirm] when it is
    called. *)
Definition answer (k : Key) : option bool :=
  if isReturn k || lowerIs (input k) 121 || bool_decide (input k = [])
  then Some true
  else if lowerIs (input k) 110 then Some false
  else None.

Record State := mkState {
  currentIndex : nat;
  results : list (jsstring * UpdateResult);
  awaitingConfirmation : bool
}.

Definition initial : State := mkState 0 [] true.

(** [handleConfirmation(confirmed)] followed by
    [setAwaitingConfirmation(false)], as [onConfirm] does. *)
Definition onConfirm (installer : Installer) (isForce : bool)
    (components : list jsstring) (st : State) (confirmed : bool)
  : Eff.M World State :=
  let component := default [] (components !! currentIndex st) in
  do result <-
    (if confirmed then Driver.updateComponent installer component isForce
     else Eff.ret skipped);
  Eff.ret (mkState (S (currentIndex st))
                   (results st ++ [(component, result)]) false).

(** Whether the prompt, and with it the input handler, is mounted. *)
Definition prompting (components : list jsstring) (st : State) : bool :=
  (currentIndex st <? length components)%nat && awaitingConfirmation st.

(** A key press. *)
Definition press (installer : Installer) (isForce : bool)
    (components : list jsstring) (st : State) (k : Key)
  : Eff.M World State :=
  if prompting components st then
    match answer k with
    | Some confirmed => onConfirm installer isForce components st confirmed
    | None => Eff.ret st
    end
  else Eff.ret st.

(** A sequence of key presses. *)
Fixpoint pressAll (installer : Installer) (isForce : bool)
    (components : list jsstring) (st : State) (keys : list Key)
  : Eff.M World State :=
  match keys with
  | [] => Eff.ret st
  | k :: keys' =>
      do st' <- press installer isForce components st k;
      pressAll installer isForce components st' keys'
  end.

(** The effect that reports completion: the argument of [onComplete]. *)
Definition completed (components : list jsstring) (st : State)
  : option (list (jsstring * UpdateResult)) :=
  if (length components <=? currentIndex st)%nat
  then Some (results st) else None.

End Confirm.

(** ** Further sample environments *)

Module Scenario.

(** A component directory in which the entry between two files cannot be
    inspected (a dangling symbolic link). *)
Definition danglingListing (dir : jsstring) : JsError + list jsstring :=
  if bool_decide (dir = js "./src/components")
  then inr [js "button.tsx"; js "dangling.tsx"; js "card.tsx"]
  else inl Sample.enoent.

Definition danglingStat (p : jsstring) : JsError + Scanner.Stats :=
  if bool_decide (p = js "src/components/button.tsx")
     || bool_decide (p = js "src/components/card.tsx")
  then inr Sample.regularFile
  else inl Sample.enoent.

(** A registry endpoint that answers with status 503. *)
Definition unavailable : JsError + App.RegistryResponse :=
  inr {| App.ok := false; App.status := 503;
         App.statusText := js "Service Unavailable";
         App.items := None |}.

(** Command lines. *)
Definition addAllForce : list jsstring :=
  Sample.bareArgv ++ [js "--add-all"; js "--force"].

Definition cardForce : list jsstring :=
  Sample.bareArgv ++ [js "card"; js "--force"].

(** Key presses: a letter that decides nothing, [n], and the return key. *)
Definition keyX : Confirm.Key :=
  {| Confirm.isReturn := false; Confirm.input := js "x" |}.

Definition keyN : Confirm.Key :=
  {| Confirm.isReturn := false; Confirm.input := js "n" |}.

Definition keyReturn : Confirm.Key :=
  {| Confirm.isReturn := true; Confirm.input := [13] |}.

End Scenario.

(** * Properties *)

(** ** The model at work *)

Example generateDiff_sample :
  Diff.generateDiff (js "a" ++ [JS.LF] ++ js "b")
    (js "a" ++ [JS.LF] ++ js "c" ++ [JS.LF] ++ js "d") (js "f")
  = js "--- a/f" ++ [JS.LF] ++ js "+++ b/f" ++ [JS.LF]
      ++ js "@@ -2,1 +2,2 @@" ++ [JS.LF]
      ++ js "-b" ++ [JS.LF] ++ js "+c" ++ [JS.LF] ++ js "+d".
Proof. reflexivity. Qed.

Example generateDiff_identical :
  Diff.generateDiff (js "a" ++ [JS.LF] ++ js "b") (js "a" ++ [JS.LF] ++ js "b")
    (js "f")
  = js "--- a/f" ++ [JS.LF] ++ js "+++ b/f".
Proof. reflexivity. Qed.

Example filePaths_sample :
  Regex.matchSkipped Sample.skippedTwoOfThree = Some (js "3")
  /\ Regex.filePaths Sample.skippedTwoOfThree
     = [js "src/components/card.tsx"; js "src/components/card-header.tsx"].
Proof. split; reflexivity. Qed.

Example filePaths_line_start_only :
  Regex.filePaths (js "x - src/a.tsx" ++ [JS.LF] ++ js "- src/" ++ [JS.LF]
                     ++ [9] ++ js "-  src/b.ts rest")
  = [js "src/b.ts"].
Proof. reflexivity. Qed.

Example replace_first_occurrence :
  JS.replace (js "a.tsxb.tsx") (js ".tsx") [] = js "ab.tsx".
Proof. reflexivity. Qed.

Example validate_force_without_name :
  is_Some (App.validate [js "bun"; js "scripts/shadcn-ui.tsx"; js "--force"])
  /\ App.validate [js "bun"; js "scripts/shadcn-ui.tsx"; js "--force";
                   js "--add-all"] = None
  /\ App.validate Sample.bareArgv = None.
Proof. repeat split; try reflexivity. vm_compute. eauto. Qed.

(** ** Facts about the string primitives *)

Section StringFacts.

Implicit Types s p : jsstring.

Lemma startsWith_app p s : JS.startsWith (p ++ s) p = true.
Proof.
  induction p as [|c p IH]; simpl; [reflexivity|].
  now rewrite N.eqb_refl.
Qed.

Lemma startsWith_prefix s p : JS.startsWith s p = true <-> p `prefix_of` s.
Proof.
  revert s. induction p as [|c p IH]; intros s.
  - split; [intros _; apply prefix_nil | reflexivity].
  - destruct s as [|d s]; simpl.
    + split; [discriminate|]. intros H. now apply prefix_nil_not in H.
    + destruct (N.eqb_spec c d) as [->|Hne].
      * rewrite IH. split; [apply prefix_cons|apply prefix_cons_inv_2].
      * split; [discriminate|]. intros H.
        apply prefix_cons_inv_1 in H. congruence.
Qed.

Lemma endsWith_app s p : JS.endsWith (s ++ p) p = true.
Proof.
  unfold JS.endsWith. rewrite rev_app_distr. apply startsWith_app.
Qed.

Lemma endsWith_suffix s p : JS.endsWith s p = true <-> p `suffix_of` s.
Proof.
  unfold JS.endsWith. rewrite startsWith_prefix.
  rewrite !rev_alt. symmetry. apply suffix_prefix_reverse.
Qed.

Lemma includes_app s1 p s2 : JS.includes (s1 ++ p ++ s2) p = true.
Proof.
  induction s1 as [|c s1 IH]; simpl.
  - destruct (p ++ s2) eqn:E; simpl; rewrite <- E, startsWith_app;
      reflexivity.
  - rewrite IH. apply orb_true_r.
Qed.

Lemma arrayIncludes_elem_of (a : list jsstring) (x : jsstring) :
  JS.arrayIncludes a x = true <-> x ∈ a.
Proof. unfold JS.arrayIncludes. apply bool_decide_eq_true. Qed.

(** [List.filter] on a decided membership test is the filter of stdpp. *)
Lemma filter_bool_decide {A} (P : A -> Prop) `{Hdec : !forall x, Decision (P x)}
    (l : list A) :
  List.filter (fun x => bool_decide (P x)) l = filter P l.
Proof.
  induction l as [|x l IH]; [reflexivity|].
  simpl. rewrite filter_cons, IH.
  destruct (decide (P x)) as [H|H].
  - now rewrite bool_decide_eq_true_2.
  - now rewrite bool_decide_eq_false_2.
Qed.

Lemma filter_negb_bool_decide {A} (P : A -> Prop)
    `{Hdec : !forall x, Decision (P x)} (l : list A) :
  List.filter (fun x => negb (bool_decide (P x))) l = filter (fun x => ~ P x) l.
Proof.
  induction l as [|x l IH]; [reflexivity|].
  simpl. rewrite filter_cons, IH.
  destruct (decide (P x)) as [H|H].
  - rewrite bool_decide_eq_true_2 by assumption. simpl.
    now rewrite decide_False by tauto.
  - rewrite bool_decide_eq_false_2 by assumption. simpl.
    now rewrite decide_True by tauto.
Qed.

End StringFacts.

(** ** Installer Driver *)

(** C2. Whatever the value of [force], [install(name, force)] hands the same
    command to the installer, and that command carries the overwrite
    directive: the command string ends in [--overwrite], and the single
    subprocess that [updateComponent] starts is run with it. *)
Theorem C2_install_always_overwrites
    (installer : Installer) (componentName : jsstring) (force : bool) (w : World) :
  Driver.command componentName true = Driver.command componentName false
  /\ JS.endsWith (Driver.command componentName force) (js " --overwrite") = true
  /\ spawned (snd (Driver.updateComponent installer componentName force w))
     = spawned w ++ [Driver.command componentName true].
Proof.
  split; [reflexivity|]. split.
  - destruct force; unfold Driver.command, Driver.overwriteFlag;
      rewrite !app_assoc;
      change (js " --overwrite") with (js " " ++ js "--overwrite");
      rewrite <- (app_assoc _ (js " ") (js "--overwrite"));
      apply endsWith_app.
  - unfold Driver.updateComponent, Eff.tryCatch, Eff.bind, Proc.execSync.
    replace (Driver.command componentName force)
      with (Driver.command componentName true) by (now destruct force).
    destruct (installer (spawned w) (Driver.command componentName true));
      reflexivity.
Qed.

(** ** Name Reconciler *)

(** C4. [partition(R, L)]: [exact] is the list of the names of [R] that are
    members of [L] and [mismatched] the list of the other names of [R], both
    in the order of [R]; every occurrence of a name of [R] goes to exactly
    one of the two lists.  The two lists are functions of [R] and [L]. *)
Theorem C4_partition (R L : list jsstring) :
  let exact := Reconciler.exactMatches R L in
  let mismatched := Reconciler.potentialMismatches R L in
  exact = filter (fun x => x ∈ L) R
  /\ mismatched = filter (fun x => x ∉ L) R
  /\ (forall x, x ∈ exact <-> x ∈ R /\ x ∈ L)
  /\ (forall x, x ∈ mismatched <-> x ∈ R /\ x ∉ L)
  /\ (forall x, ~ (x ∈ exact /\ x ∈ mismatched))
  /\ exact ++ mismatched ≡ₚ R
  /\ exact `sublist_of` R
  /\ mismatched `sublist_of` R.
Proof.
  intros exact mismatched.
  assert (He : exact = filter (fun x => x ∈ L) R)
    by apply (filter_bool_decide (fun x => x ∈ L)).
  assert (Hm : mismatched = filter (fun x => x ∉ L) R)
    by apply (filter_negb_bool_decide (fun x => x ∈ L)).
  clearbody exact mismatched. subst exact mismatched.
  split; [reflexivity|]. split; [reflexivity|].
  split; [|split; [|split; [|split; [|split]]]].
  - intros x. rewrite list_elem_of_filter. tauto.
  - intros x. rewrite list_elem_of_filter. tauto.
  - intros x [[H1 _]%list_elem_of_filter [H2 _]%list_elem_of_filter]. tauto.
  - apply (filter_app_complement (fun x => x ∈ L)).
  - apply sublist_filter.
  - apply sublist_filter.
Qed.

(** ** Existence Verifier *)

Section VerifierFacts.

Variable installer : Installer.

Lemma includes_unfold (s p : jsstring) :
  JS.includes s p
  = JS.startsWith s p
    || match s with [] => false | _ :: s' => JS.includes s' p end.
Proof. destruct s; reflexivity. Qed.

Lemma startsWith_app_l (s p q : jsstring) :
  JS.startsWith s (p ++ q) = true -> JS.startsWith s p = true.
Proof.
  rewrite !startsWith_prefix. intros H.
  transitivity (p ++ q); [apply prefix_app_r; reflexivity | exact H].
Qed.

Lemma matchSkipped_includes (s digits : jsstring) :
  Regex.matchSkipped s = Some digits -> JS.includes s (js "Skipped") = true.
Proof.
  induction s as [|c s IH]; simpl Regex.matchSkipped.
  - unfold Regex.skippedAt. simpl. discriminate.
  - rewrite includes_unfold.
    destruct (Regex.skippedAt (c :: s)) eqn:E.
    + intros _. unfold Regex.skippedAt in E.
      destruct (JS.startsWith (c :: s) (js "Skipped ")) eqn:Hs;
        [|discriminate].
      change (js "Skipped ") with (js "Skipped" ++ js " ") in Hs.
      now rewrite (startsWith_app_l _ _ _ Hs).
    + intros H. rewrite (IH H). apply orb_true_r.
Qed.

(** The verdict depends on the output only through the two substrings. *)
Lemma interpret_mentions (output : jsstring) :
  Verifier.interpret output
  = negb (VerdictRule.mentionsSkippedIdentical output).
Proof.
  unfold Verifier.interpret, VerdictRule.mentionsSkippedIdentical.
  destruct (JS.includes output (js "Skipped")
            && JS.includes output (js "files might be identical"));
    [|reflexivity].
  destruct (Regex.matchSkipped output); [|reflexivity].
  now destruct (_ && _).
Qed.

(** A run of the probe that returns [output]. *)
Lemma verify_success (componentName output : jsstring) (w : World) :
  installer (spawned w) (Verifier.command componentName) = inr output ->
  Verifier.verifyComponentMissing installer componentName w
  = (inr (Verifier.interpret output),
     mkWorld (spawned w ++ [Verifier.command componentName]) (console w)
             (progressMessages w) (app w)).
Proof.
  intros H.
  unfold Verifier.verifyComponentMissing, Eff.tryCatch, Eff.bind,
    Proc.execSync, Eff.ret.
  now rewrite H.
Qed.

(** A run of the probe that fails with [e]. *)
Lemma verify_failure (componentName : jsstring) (e : JsError) (w : World) :
  installer (spawned w) (Verifier.command componentName) = inl e ->
  Verifier.verifyComponentMissing installer componentName w
  = (inr true,
     mkWorld (spawned w ++ [Verifier.command componentName])
             (console w ++ [Verifier.warning componentName e])
             (progressMessages w) (app w)).
Proof.
  intros H.
  unfold Verifier.verifyComponentMissing, Eff.tryCatch, Eff.bind,
    Proc.execSync, Eff.ret, Proc.consoleEmit, Eff.modify.
  now rewrite H.
Qed.

(** The probe always returns to its caller, having started exactly one
    subprocess and left the state of [App] alone. *)
Lemma verify_returns (componentName : jsstring) (w : World) :
  exists (b : bool) (w' : World),
    Verifier.verifyComponentMissing installer componentName w = (inr b, w')
    /\ spawned w' = spawned w ++ [Verifier.command componentName]
    /\ app w' = app w.
Proof.
  destruct (installer (spawned w) (Verifier.command componentName)) as [e|o]
    eqn:E.
  - eexists _, _. split; [apply (verify_failure _ _ _ E)|]. now split.
  - eexists _, _. split; [apply (verify_success _ _ _ E)|]. now split.
Qed.

End VerifierFacts.

(** C1 (as amended). When the installer subprocess completes without error,
    [isMissing] returns false exactly when the captured output contains both
    [Skipped] and [files might be identical], whatever count the output
    declares (none, zero, or one that the extracted paths do or do not
    match); on every other output it returns true. *)
Theorem C1_isMissing_by_mention
    (installer : Installer) (componentName output : jsstring) (w : World) :
  installer (spawned w) (Verifier.command componentName) = inr output ->
  fst (Verifier.verifyComponentMissing installer componentName w)
  = inr (negb (JS.includes output (js "Skipped")
               && JS.includes output (js "files might be identical"))).
Proof.
  intros H. rewrite (verify_success _ _ _ _ H). simpl.
  now rewrite interpret_mentions.
Qed.

Lemma C1_isMissing_by_mention_witness :
  Sample.answering Sample.created (spawned emptyWorld)
                   (Verifier.command (js "card")) = inr Sample.created
  /\ fst (Verifier.verifyComponentMissing (Sample.answering Sample.created)
            (js "card") emptyWorld)
     = inr (negb (JS.includes Sample.created (js "Skipped")
                  && JS.includes Sample.created (js "files might be identical"))).
Proof.
  split; [reflexivity|].
  apply (C1_isMissing_by_mention (Sample.answering Sample.created)
           (js "card") Sample.created emptyWorld).
  reflexivity.
Defined.

(** C1 (as stated) fails. The output [Skipped 0 files: (files might be
    identical, ...)] declares the count zero and lists no path: the counts
    agree but are not positive, so the rule of the specification falls to its
    last case and answers missing, while the code answers present. *)
Lemma C1_counterexample :
  VerdictRule.mentionsSkippedIdentical Sample.skippedNone = true
  /\ VerdictRule.declaredCount Sample.skippedNone = Some 0
  /\ VerdictRule.extractedCount Sample.skippedNone = 0
  /\ fst (Verifier.verifyComponentMissing
            (Sample.answering Sample.skippedNone) (js "card") emptyWorld)
     <> inr (VerdictRule.verdict Sample.skippedNone).
Proof.
  repeat split; try reflexivity.
  vm_compute. discriminate.
Qed.

(** C5 (as amended). When the output carries the note [files might be
    identical], it is judged present both when it declares two skipped files
    and lists two paths and when it declares three and lists only two: a
    disagreement of the counts does not turn the verdict to missing. *)
Theorem C5_skipped_counts
    (installer : Installer) (componentName output : jsstring) (w : World) :
  installer (spawned w) (Verifier.command componentName) = inr output ->
  JS.includes output (js "files might be identical") = true ->
  (VerdictRule.declaredCount output = Some 2
   /\ VerdictRule.extractedCount output = 2)
  \/ (VerdictRule.declaredCount output = Some 3
      /\ VerdictRule.extractedCount output = 2) ->
  fst (Verifier.verifyComponentMissing installer componentName w) = inr false.
Proof.
  intros Hrun Hnote Hcounts.
  rewrite (verify_success _ _ _ _ Hrun). simpl.
  rewrite interpret_mentions. unfold VerdictRule.mentionsSkippedIdentical.
  assert (Hdecl : exists n, VerdictRule.declaredCount output = Some n)
    by (destruct Hcounts as [[-> _]|[-> _]]; eauto).
  destruct Hdecl as [n Hn]. unfold VerdictRule.declaredCount in Hn.
  destruct (Regex.matchSkipped output) as [digits|] eqn:E; [|discriminate].
  now rewrite (matchSkipped_includes _ _ E), Hnote.
Qed.

Lemma C5_skipped_counts_witness :
  fst (Verifier.verifyComponentMissing
         (Sample.answering Sample.skippedTwoOfTwo) (js "card") emptyWorld)
  = inr false
  /\ fst (Verifier.verifyComponentMissing
            (Sample.answering Sample.skippedTwoOfThree) (js "card") emptyWorld)
     = inr false.
Proof.
  split.
  - apply (C5_skipped_counts (Sample.answering Sample.skippedTwoOfTwo)
             (js "card") Sample.skippedTwoOfTwo emptyWorld);
      [reflexivity | reflexivity | left; split; reflexivity].
  - apply (C5_skipped_counts (Sample.answering Sample.skippedTwoOfThree)
             (js "card") Sample.skippedTwoOfThree emptyWorld);
      [reflexivity | reflexivity | right; split; reflexivity].
Defined.

(** C5 (as stated) fails in its second half. The output that declares three
    skipped files and lists two paths is judged present, not missing. *)
Lemma C5_counterexample :
  VerdictRule.declaredCount Sample.skippedTwoOfThree = Some 3
  /\ VerdictRule.extractedCount Sample.skippedTwoOfThree = 2
  /\ fst (Verifier.verifyComponentMissing
            (Sample.answering Sample.skippedTwoOfThree) (js "card") emptyWorld)
     <> inr true.
Proof.
  repeat split; try reflexivity.
  vm_compute. discriminate.
Qed.

(** C6. When the installer subprocess of the probe fails, whatever was
    thrown, [isMissing] returns true to its caller (nothing is thrown
    further), and one warning is written to the console, by [console.warn]:
    its first argument is the warning sign followed by
    [ Could not verify component "<name>":], its second the message of the
    error, or [Unknown error] when what was thrown is not an [Error]. *)
Theorem C6_probe_failure_judged_missing
    (installer : Installer) (componentName : jsstring) (e : JsError) (w : World) :
  installer (spawned w) (Verifier.command componentName) = inl e ->
  Verifier.verifyComponentMissing installer componentName w
  = (inr true,
     mkWorld (spawned w ++ [Verifier.command componentName])
             (console w
                ++ [ConsoleWarn
                      [ [9888; 65039] ++ js " Could not verify component "
                          ++ [34] ++ componentName ++ [34] ++ js ":";
                        match e with
                        | ErrorObject message => message
                        | ThrownValue => js "Unknown error"
                        end ]])
             (progressMessages w) (app w)).
Proof.
intros Hfail.
unfold Verifier.verifyComponentMissing, Eff.tryCatch, Eff.bind.
unfold Proc.execSync. rewrite Hfail.
destruct e; reflexivity.
Qed.

Lemma C6_probe_failure_judged_missing_witness :
  Sample.failing (spawned emptyWorld) (Verifier.command (js "card"))
  = inl (ErrorObject (js "Command failed"))
  /\ Verifier.verifyComponentMissing Sample.failing (js "card") emptyWorld
     = (inr true,
        mkWorld [Verifier.command (js "card")]
                [ConsoleWarn
                   [ [9888; 65039] ++ js " Could not verify component "
                       ++ [34] ++ js "card" ++ [34] ++ js ":";
                     js "Command failed" ]]
                [] initialApp).
Proof.
  split; [reflexivity|].
  apply (C6_probe_failure_judged_missing Sample.failing (js "card")
           (ErrorObject (js "Command failed")) emptyWorld).
  reflexivity.
Defined.

(** ** Sequencing *)

Section EffFacts.

Context {S A B : Type}.

Lemma bind_returned (m : Eff.M S A) (k : A -> Eff.M S B) s a s' :
  m s = (inr a, s') -> Eff.bind m k s = k a s'.
Proof. unfold Eff.bind. now intros ->. Qed.

Lemma bind_thrown (m : Eff.M S A) (k : A -> Eff.M S B) s e s' :
  m s = (inl e, s') -> Eff.bind m k s = (inl e, s').
Proof. unfold Eff.bind. now intros ->. Qed.

Lemma tryCatch_returned (m : Eff.M S A) (h : JsError -> Eff.M S A) s a s' :
  m s = (inr a, s') -> Eff.tryCatch m h s = (inr a, s').
Proof. unfold Eff.tryCatch. now intros ->. Qed.

Lemma tryCatch_thrown (m : Eff.M S A) (h : JsError -> Eff.M S A) s e s' :
  m s = (inl e, s') -> Eff.tryCatch m h s = h e s'.
Proof. unfold Eff.tryCatch. now intros ->. Qed.

End EffFacts.

(** ** Local Inventory Scanner *)

Section ScannerFacts.

Variable readdirSync : jsstring -> JsError + list jsstring.
Variable statSync : jsstring -> JsError + Scanner.Stats.
Variable join : jsstring -> jsstring -> jsstring.

Let scanFile := Scanner.scanFile statSync join.
Let scanDirectory := Scanner.scanDirectory readdirSync statSync join.
Let scanAll := Scanner.scanAll readdirSync statSync join.
Let listingNames := ScanNames.listingNames statSync join.
Let directoryNames := ScanNames.directoryNames readdirSync statSync join.
Let themeName := ScanNames.themeName statSync.

(** One file: either [statSync] throws and nothing is pushed, or the
    candidate name of the file, if it has one, is pushed. *)
Lemma scanFile_result dirPath exts file components :
  match statSync (join dirPath file) with
  | inl e => scanFile dirPath exts file components = (inl e, components)
  | inr stat =>
      scanFile dirPath exts file components
      = (inr tt,
         components ++ (if Scanner.isFile stat
                        then ScanNames.candidate exts file else []))
  end.
Proof.
  unfold scanFile, Scanner.scanFile, Eff.bind, Eff.lift, ScanNames.candidate.
  destruct (statSync (join dirPath file)) as [e|stat]; [reflexivity|].
  destruct (Scanner.isFile stat); [|now rewrite app_nil_r].
  destruct (List.find _ exts) as [ext|]; [|now rewrite app_nil_r].
  destruct (Scanner.truthy ext); [|now rewrite app_nil_r].
  destruct (bool_decide _); simpl; [now rewrite app_nil_r | reflexivity].
Qed.

(** The files of one listing: what has been pushed when the loop ends or
    is left by an exception. *)
Lemma forEach_scanFile dirPath exts files components :
  snd (Eff.forEach (scanFile dirPath exts) files components)
  = components ++ listingNames dirPath exts files.
Proof.
  revert components.
  induction files as [|file files IH]; intros components; simpl.
  - now rewrite app_nil_r.
  - pose proof (scanFile_result dirPath exts file components) as H.
    unfold listingNames in *. simpl.
    destruct (statSync (join dirPath file)) as [e|stat].
    + rewrite (bind_thrown _ _ _ _ _ H). simpl. now rewrite app_nil_r.
    + rewrite (bind_returned _ _ _ _ _ H), IH. now rewrite app_assoc.
Qed.

(** A directory never lets an exception out. *)
Lemma scanDirectory_result d components :
  scanDirectory d components = (inr tt, components ++ directoryNames d).
Proof.
  unfold scanDirectory, Scanner.scanDirectory, directoryNames,
    ScanNames.directoryNames, Eff.tryCatch, Eff.bind, Eff.lift.
  destruct (readdirSync (Scanner.path d)) as [e|files].
  - unfold Eff.ret. now rewrite app_nil_r.
  - pose proof (forEach_scanFile (Scanner.path d) (Scanner.extensions d)
                  files components) as H.
    unfold scanFile, listingNames in H.
    destruct (Eff.forEach _ files components) as [[e|[]] comps];
      simpl in H; subst comps; reflexivity.
Qed.

Lemma forEach_scanDirectory dirs components :
  Eff.forEach scanDirectory dirs components
  = (inr tt, components ++ concat (List.map directoryNames dirs)).
Proof.
  revert components.
  induction dirs as [|d dirs IH]; intros components; simpl.
  - unfold Eff.ret. now rewrite app_nil_r.
  - rewrite (bind_returned _ _ _ _ _ (scanDirectory_result d components)).
    rewrite IH. now rewrite app_assoc.
Qed.

Lemma checkTheme_result components :
  Scanner.checkTheme statSync components = (inr tt, components ++ themeName).
Proof.
  unfold Scanner.checkTheme, themeName, ScanNames.themeName, Eff.tryCatch,
    Eff.bind, Eff.lift.
  destruct (statSync (js "./src/globals.css")) as [e|stat].
  - unfold Eff.ret. now rewrite app_nil_r.
  - destruct (Scanner.isFile stat); [reflexivity|].
    unfold Eff.ret. now rewrite app_nil_r.
Qed.

Lemma scanAll_result dirs components :
  scanAll dirs components
  = (inr (components ++ concat (List.map directoryNames dirs) ++ themeName),
     components ++ concat (List.map directoryNames dirs) ++ themeName).
Proof.
  unfold scanAll, Scanner.scanAll.
  rewrite (bind_returned _ _ _ _ _ (forEach_scanDirectory dirs components)).
  rewrite (bind_returned _ _ _ _ _ (checkTheme_result _)).
  unfold Eff.get. now rewrite <- app_assoc.
Qed.

Lemma getExistingComponents_names :
  Scanner.getExistingComponents readdirSync statSync join
  = inr (concat (List.map directoryNames Scanner.directories) ++ themeName).
Proof.
  unfold Scanner.getExistingComponents.
  fold scanAll. now rewrite scanAll_result.
Qed.

End ScannerFacts.

(** C8 (as amended). [scan()] returns an array, not a set: the names
    contributed by the qualifying files of [./src/components], of
    [./src/icons] and of [./src/hooks], in that order and each in listing
    order, then [theme] when the global style file is a regular file.
    Nothing is collapsed: a name that several files yield occurs once for
    each of them. *)
Theorem C8_scan_is_a_list
    (readdirSync : jsstring -> JsError + list jsstring)
    (statSync : jsstring -> JsError + Scanner.Stats)
    (join : jsstring -> jsstring -> jsstring) :
  let names := ScanNames.directoryNames readdirSync statSync join in
  Scanner.getExistingComponents readdirSync statSync join
  = inr (names {| Scanner.path := js "./src/components";
                  Scanner.extensions := [js ".tsx"; js ".json"] |}
         ++ names {| Scanner.path := js "./src/icons";
                     Scanner.extensions := [js ".tsx"] |}
         ++ names {| Scanner.path := js "./src/hooks";
                     Scanner.extensions := [js ".ts"; js ".tsx"] |}
         ++ ScanNames.themeName statSync).
Proof.
  intros names. rewrite getExistingComponents_names.
  unfold Scanner.directories. simpl. now rewrite app_nil_r, <- !app_assoc.
Qed.

(** C8 (as stated) fails. With [button.tsx] and [button.json] in the
    component directory the name [button] is returned twice. *)
Lemma C8_counterexample :
  Scanner.getExistingComponents Sample.twoButtons Sample.statTwoButtons
                                Sample.joinPath
  = inr [js "button"; js "button"]
  /\ ~ NoDup [js "button"; js "button"].
Proof.
  split; [reflexivity|].
  intros H. apply NoDup_cons in H as [H _]. apply H. left.
Qed.

(** C9. When a listed directory is absent or unreadable ([readdirSync]
    throws), [scan()] still returns an array; that directory adds nothing to
    the array; and the array is the one that the scan of the remaining
    directories gives. *)
Theorem C9_absent_directory
    (readdirSync : jsstring -> JsError + list jsstring)
    (statSync : jsstring -> JsError + Scanner.Stats)
    (join : jsstring -> jsstring -> jsstring)
    (d : Scanner.Directory) (before after : list Scanner.Directory)
    (e : JsError) :
  Scanner.directories = before ++ d :: after ->
  readdirSync (Scanner.path d) = inl e ->
  (exists names,
      Scanner.getExistingComponents readdirSync statSync join = inr names)
  /\ (forall components,
        Scanner.scanDirectory readdirSync statSync join d components
        = (inr tt, components))
  /\ Scanner.getExistingComponents readdirSync statSync join
     = fst (Scanner.scanAll readdirSync statSync join (before ++ after) []).
Proof.
  intros Hdirs Habsent.
  assert (Hnone : ScanNames.directoryNames readdirSync statSync join d = [])
    by (unfold ScanNames.directoryNames; now rewrite Habsent).
  split; [|split].
  - eexists. apply getExistingComponents_names.
  - intros components. rewrite scanDirectory_result, Hnone.
    now rewrite app_nil_r.
  - unfold Scanner.getExistingComponents. rewrite Hdirs, !scanAll_result.
    simpl. rewrite !map_app, !concat_app. simpl. now rewrite Hnone.
Qed.

Lemma C9_absent_directory_witness :
  Scanner.directories
  = [] ++ {| Scanner.path := js "./src/components";
             Scanner.extensions := [js ".tsx"; js ".json"] |}
       :: [ {| Scanner.path := js "./src/icons";
               Scanner.extensions := [js ".tsx"] |};
            {| Scanner.path := js "./src/hooks";
               Scanner.extensions := [js ".ts"; js ".tsx"] |} ]
  /\ Sample.noDirectory (js "./src/components") = inl Sample.enoent
  /\ Scanner.getExistingComponents Sample.noDirectory Sample.noFile
                                   Sample.joinPath
     = fst (Scanner.scanAll Sample.noDirectory Sample.noFile Sample.joinPath
              [ {| Scanner.path := js "./src/icons";
                   Scanner.extensions := [js ".tsx"] |};
                {| Scanner.path := js "./src/hooks";
                   Scanner.extensions := [js ".ts"; js ".tsx"] |} ] []).
Proof.
  split; [reflexivity|]. split; [reflexivity|].
  apply (C9_absent_directory Sample.noDirectory Sample.noFile Sample.joinPath
           {| Scanner.path := js "./src/components";
              Scanner.extensions := [js ".tsx"; js ".json"] |}
           [] _ Sample.enoent); reflexivity.
Defined.

(** ** Reconciliation and the run without arguments *)

Section ReconcilerFacts.

Variable installer : Installer.

Let report := Some Proc.addProgressMessage.

Lemma progress_result (message : jsstring) (w : World) :
  Reconciler.progress report message w
  = (inr tt, mkWorld (spawned w) (console w)
                     (progressMessages w ++ [message]) (app w)).
Proof. reflexivity. Qed.

(** The verification loop returns, having probed each pending name once,
    in order, and nothing else. *)
Lemma verifyLoop_result total (pending : list jsstring) :
  forall i verifiedMissing alreadyInstalled w,
  exists r w',
    Reconciler.verifyLoop installer report total i pending
                          verifiedMissing alreadyInstalled w = (inr r, w')
    /\ spawned w' = spawned w ++ List.map Verifier.command pending
    /\ app w' = app w.
Proof.
  induction pending as [|component pending IH];
    intros i verifiedMissing alreadyInstalled w.
  - eexists _, _. split; [reflexivity|]. simpl. now rewrite app_nil_r.
  - cbn [Reconciler.verifyLoop].
    rewrite (bind_returned _ _ _ _ _ (progress_result _ w)).
    destruct (verify_returns installer component
                (mkWorld (spawned w) (console w)
                   (progressMessages w ++
                      [[55357; 56580] ++ js " Checking " ++ component
                         ++ js " (" ++ JS.numberToString (Z.of_nat (i + 1))
                         ++ js "/" ++ JS.numberToString (Z.of_nat total)
                         ++ js ")"]) (app w)))
      as (b & w1 & Hrun & Hsp & Happ).
    rewrite (bind_returned _ _ _ _ _ Hrun).
    simpl in Hsp, Happ.
    destruct b.
    + destruct (IH (S i) (verifiedMissing ++ [component]) alreadyInstalled w1)
        as (r & w' & Hloop & Hsp' & Happ').
      exists r, w'. split; [exact Hloop|]. split.
      * rewrite Hsp', Hsp. simpl. now rewrite <- app_assoc.
      * congruence.
    + destruct (IH (S i) verifiedMissing (alreadyInstalled ++ [component]) w1)
        as (r & w' & Hloop & Hsp' & Happ').
      exists r, w'. split; [exact Hloop|]. split.
      * rewrite Hsp', Hsp. simpl. now rewrite <- app_assoc.
      * congruence.
Qed.

Lemma consoleLog_result (line : jsstring) (w : World) :
  Proc.consoleLog line w
  = (inr tt, mkWorld (spawned w) (console w ++ [ConsoleLog [line]])
                     (progressMessages w) (app w)).
Proof. reflexivity. Qed.

Lemma forEach_consoleLog (f : jsstring -> jsstring) (l : list jsstring) :
  forall w, exists w',
    Eff.forEach (fun comp => Proc.consoleLog (f comp)) l w = (inr tt, w')
    /\ spawned w' = spawned w /\ app w' = app w.
Proof.
  induction l as [|x l IH]; intros w; simpl.
  - now exists w.
  - rewrite (bind_returned _ _ _ _ _ (consoleLog_result _ w)).
    destruct (IH (mkWorld (spawned w) (console w ++ [ConsoleLog [f x]])
                          (progressMessages w) (app w)))
      as (w' & H & Hs & Ha).
    now exists w'.
Qed.

(** Reconciliation returns, and the subprocesses it starts are the probes
    of the names without a verbatim local match. *)
Lemma getVerifiedMissingComponents_result
    (registryComponents existingComponents : list jsstring) (w : World) :
  exists verifiedMissing w',
    Reconciler.getVerifiedMissingComponents installer registryComponents
      existingComponents report w = (inr verifiedMissing, w')
    /\ spawned w'
       = spawned w
         ++ List.map Verifier.command
              (Reconciler.potentialMismatches registryComponents
                                              existingComponents)
    /\ app w' = app w.
Proof.
  unfold Reconciler.getVerifiedMissingComponents.
  rewrite (bind_returned _ _ _ _ _ (progress_result _ w)).
  rewrite (bind_returned _ _ _ _ _ (progress_result _ _)).
  destruct (Reconciler.potentialMismatches registryComponents
              existingComponents) as [|c pending] eqn:E.
  - simpl. rewrite (bind_returned _ _ _ _ _ (progress_result _ _)).
    eexists _, _. split; [reflexivity|]. simpl. now rewrite app_nil_r.
  - cbn [length Nat.eqb].
    rewrite (bind_returned _ _ _ _ _ (progress_result _ _)).
    match goal with
    | |- context [Reconciler.verifyLoop _ _ ?t ?i ?p ?v ?a] =>
        match goal with
        | |- context [Eff.bind (Reconciler.verifyLoop _ _ t i p v a) _ ?w0] =>
            destruct (verifyLoop_result t p i v a w0)
              as (r & w1 & Hloop & Hsp & Happ)
        end
    end.
    rewrite (bind_returned _ _ _ _ _ Hloop).
    simpl in Hsp, Happ.
    assert (Hlog : exists w2,
      (if (0 <? length (snd r))%nat
       then
         do _ <- Proc.consoleLog
           ([9989] ++ js " Found "
              ++ JS.numberToString (Z.of_nat (length (snd r)))
              ++ js " components already installed (but under different names):");
         do _ <- Eff.forEach
           (fun comp => Proc.consoleLog
              (js "   - " ++ comp ++ js ": already added")) (snd r);
         Proc.consoleEmit (ConsoleLog [])
       else Eff.ret tt) w1 = (inr tt, w2)
      /\ spawned w2 = spawned w1 /\ app w2 = app w1).
    { destruct (0 <? length (snd r))%nat.
      - rewrite (bind_returned _ _ _ _ _ (consoleLog_result _ w1)).
        destruct (forEach_consoleLog
                    (fun comp => js "   - " ++ comp ++ js ": already added")
                    (snd r)
                    (mkWorld (spawned w1)
                       (console w1 ++
                          [ConsoleLog
                             [[9989] ++ js " Found "
                                ++ JS.numberToString (Z.of_nat (length (snd r)))
                                ++ js " components already installed (but under different names):"]])
                       (progressMessages w1) (app w1)))
          as (w2 & H2 & Hs2 & Ha2).
        rewrite (bind_returned _ _ _ _ _ H2).
        eexists. split; [reflexivity|]. simpl. now split.
      - now exists w1. }
    destruct Hlog as (w2 & Hlog & Hs2 & Ha2).
    rewrite (bind_returned _ _ _ _ _ Hlog).
    rewrite (bind_returned _ _ _ _ _ (progress_result _ _)).
    eexists _, _. split; [reflexivity|]. simpl. split; congruence.
Qed.

End ReconcilerFacts.

Section BreakdownFacts.

Lemma theme_not_hook_nor_icon (n : jsstring) :
  Breakdown.isTheme n = true ->
  Breakdown.isHook n = false /\ Breakdown.isIcon n = false.
Proof.
  unfold Breakdown.isTheme. intros ->%bool_decide_eq_true.
  split; reflexivity.
Qed.

(** The four categories cover the registry names, and they are disjoint
    as long as no name is both a hook and an icon. *)
Lemma categories_sum (registryComponents : list jsstring) :
  Forall (fun n => Breakdown.isHook n && Breakdown.isIcon n = false)
         registryComponents ->
  length registryComponents
  = (length (Breakdown.components registryComponents)
     + length (Breakdown.hooks registryComponents)
     + length (Breakdown.icons registryComponents)
     + length (Breakdown.theme registryComponents))%nat.
Proof.
  unfold Breakdown.components, Breakdown.hooks, Breakdown.icons,
    Breakdown.theme.
  induction 1 as [|n l Hn _ IH]; [reflexivity|].
  cbn [List.filter].
  destruct (Breakdown.isTheme n) eqn:Ht.
  - destruct (theme_not_hook_nor_icon n Ht) as [-> ->].
    cbn [negb andb length]. lia.
  - destruct (Breakdown.isHook n), (Breakdown.isIcon n);
      try discriminate; cbn [negb andb length]; lia.
Qed.

Lemma probe_is_not_install (n m : jsstring) (force : bool) :
  Verifier.command n <> Driver.command m force.
Proof.
  intros H. apply (f_equal last) in H. revert H.
  unfold Verifier.command, Driver.command, Driver.overwriteFlag.
  change (js " 2>&1") with (js " 2>&" ++ [49]).
  replace (if force then js "--overwrite" else js "--overwrite")
    with (js "--overwrit" ++ [101]) by (now destruct force).
  rewrite !app_assoc, !last_snoc. discriminate.
Qed.

End BreakdownFacts.

Section RunFacts.

Variable installer : Installer.
Variable readdirSync : jsstring -> JsError + list jsstring.
Variable statSync : jsstring -> JsError + Scanner.Stats.
Variable join : jsstring -> jsstring -> jsstring.
Variable readFileSync : jsstring -> JsError + jsstring.
Variable fetchRegistry : JsError + App.RegistryResponse.
Variable fetchComponent : jsstring -> JsError + App.ComponentResponse.
Variable getLocalFilePath : jsstring -> jsstring -> option jsstring.
Variable scheduling : App.Scheduling.

Lemma not_dashed_not_flag (arg flag : jsstring) :
  JS.startsWith arg (js "-") = false ->
  JS.startsWith flag (js "-") = true ->
  arg <> flag.
Proof. intros H1 H2 ->. congruence. Qed.

Lemma parseFlags_bare (node script : jsstring) :
  JS.startsWith node (js "-") = false ->
  JS.startsWith script (js "-") = false ->
  App.parseFlags [node; script] = App.bareFlags.
Proof.
  intros Hn Hs.
  assert (Hflag : forall flag, JS.startsWith flag (js "-") = true ->
                    JS.arrayIncludes [node; script] flag = false).
  { intros flag Hf. unfold JS.arrayIncludes.
    apply bool_decide_eq_false. rewrite !elem_of_cons, elem_of_nil.
    intros [->|[->|[]]]; congruence. }
  unfold App.parseFlags, App.bareFlags.
  rewrite !Hflag by reflexivity.
  unfold App.findComponentArg. cbn [List.find lookup list_lookup].
  rewrite Hn, Hs. cbn [negb andb].
  rewrite (bool_decide_eq_true_2 (Some node = Some node)) by reflexivity.
  rewrite (bool_decide_eq_true_2 (Some script = Some script)) by reflexivity.
  cbn [negb andb]. rewrite andb_false_r. reflexivity.
Qed.

Lemma bind_modify {S B} (f : S -> S) (k : unit -> Eff.M S B) (s : S) :
  Eff.bind (Eff.modify f) k s = k tt (f s).
Proof. reflexivity. Qed.

Lemma bind_lift_returned {S A B} (a : A) (k : A -> Eff.M S B) (s : S) :
  Eff.bind (Eff.lift (inr a)) k s = k a s.
Proof. reflexivity. Qed.

(** The effect on [error] does nothing as long as no error is set. *)
Lemma errorEffect_unset (w : World) :
  error (app w) = None -> App.errorEffect w = (inr tt, w).
Proof. unfold App.errorEffect. now intros ->. Qed.

(** It never starts a subprocess. *)
Lemma errorEffect_spawned (w : World) :
  exists w', App.errorEffect w = (inr tt, w') /\ spawned w' = spawned w.
Proof.
unfold App.errorEffect.
destruct (App.truthy (error (app w))); eexists; split; reflexivity.
Qed.

(** [loadData] of a run without arguments whose registry request
    succeeds. *)
Lemma loadData_bare (registry : list jsstring) :
  App.fetchRegistryComponents fetchRegistry = inr registry ->
  exists existing missing w,
    Scanner.getExistingComponents readdirSync statSync join = inr existing
    /\ App.loadData installer readdirSync statSync join readFileSync
         fetchRegistry fetchComponent getLocalFilePath scheduling
         App.bareFlags emptyWorld
       = (inr tt, w)
    /\ spawned w
       = List.map Verifier.command
           (Reconciler.potentialMismatches registry existing)
    /\ app w = mkApp registry existing missing false None view [] [] false.
Proof.
  intros Hfetch.
  pose proof (getExistingComponents_names readdirSync statSync join) as Hex.
  set (existing := concat _ ++ _) in Hex.
  exists existing.
  unfold App.loadData.
  unfold Proc.addProgressMessage at 1.
  match goal with
  | |- context [Eff.tryCatch ?body ?h] =>
      assert (Hbody : exists missing w,
        body emptyWorld = (inr tt, w)
        /\ spawned w
           = List.map Verifier.command
               (Reconciler.potentialMismatches registry existing)
        /\ app w = mkApp registry existing missing false None view [] [] false)
  end.
  { rewrite bind_modify, Hex, bind_lift_returned, Hfetch, bind_lift_returned.
    unfold Proc.addProgressMessage at 1 2.
    unfold App.setRegistryComponents, App.setExistingComponents, Proc.setApp.
    rewrite !bind_modify.
    match goal with
    | |- context [Eff.bind (Reconciler.getVerifiedMissingComponents _ _ _ _) _ ?w0] =>
        destruct (getVerifiedMissingComponents_result installer registry
                    existing w0) as (missing & w1 & Hrun & Hsp & Happ)
    end.
    rewrite (bind_returned _ _ _ _ _ Hrun).
    unfold App.setMissingComponents, App.setLoading, Proc.setApp,
      Proc.addProgressMessage.
    rewrite !bind_modify.
    exists missing. eexists. split; [reflexivity|].
    cbn [spawned app]. rewrite Hsp, Happ. cbn [spawned app emptyWorld].
    split; reflexivity. }
  destruct Hbody as (missing & w & Hbody & Hsp & Happ).
  exists missing, w. split; [exact Hex|].
  split; [|split; assumption].
  now apply tryCatch_returned.
Qed.

End RunFacts.

(** C7 (as amended). In a run without arguments whose registry request
    succeeds, the view is the registry breakdown, and its total is the
    number of registry names; the total is the sum of the four category
    counts as long as no name is both a hook ([use-] prefix) and an icon
    ([-icon] suffix).  The subprocesses started during the run are the
    probes of the Existence Verifier, one for each registry name that is not
    a local name verbatim, in registry order; the Installer Driver is not
    invoked. *)
Theorem C7_run_without_arguments
    (installer : Installer)
    (readdirSync : jsstring -> JsError + list jsstring)
    (statSync : jsstring -> JsError + Scanner.Stats)
    (join : jsstring -> jsstring -> jsstring)
    (readFileSync : jsstring -> JsError + jsstring)
    (fetchRegistry : JsError + App.RegistryResponse)
    (fetchComponent : jsstring -> JsError + App.ComponentResponse)
    (getLocalFilePath : jsstring -> jsstring -> option jsstring)
    (scheduling : App.Scheduling)
    (node script : jsstring) (registry : list jsstring) :
  JS.startsWith node (js "-") = false ->
  JS.startsWith script (js "-") = false ->
  App.fetchRegistryComponents fetchRegistry = inr registry ->
  exists existing w s,
    Scanner.getExistingComponents readdirSync statSync join = inr existing
    /\ App.run installer readdirSync statSync join readFileSync fetchRegistry
         fetchComponent getLocalFilePath scheduling [node; script]
       = App.Rendered w (App.RegistryBreakdown s)
    /\ spawned w
       = List.map Verifier.command
           (Reconciler.potentialMismatches registry existing)
    /\ (forall c, c ∈ spawned w -> forall n force, c <> Driver.command n force)
    /\ Breakdown.total s = length registry
    /\ (Forall (fun n => Breakdown.isHook n && Breakdown.isIcon n = false)
               registry ->
        Breakdown.total s
        = (length (Breakdown.componentNames s)
           + length (Breakdown.hookNames s)
           + length (Breakdown.iconNames s)
           + length (Breakdown.themeNames s))%nat).
Proof.
  intros Hnode Hscript Hfetch.
  destruct (loadData_bare installer readdirSync statSync join readFileSync
              fetchRegistry fetchComponent getLocalFilePath scheduling
              registry Hfetch)
    as (existing & missing & w & Hex & Hload & Hsp & Happ).
  exists existing, w,
    (Breakdown.summary registry existing missing).
  split; [exact Hex|]. split; [|split; [exact Hsp|split; [|split]]].
  - unfold App.run, App.validate.
    rewrite (parseFlags_bare node script Hnode Hscript).
    cbn [App.isForce App.isDiff App.bareFlags andb].
    rewrite (bind_returned _ _ _ _ _ Hload).
    rewrite errorEffect_unset by (now rewrite Happ).
    cbn [snd]. unfold App.render. rewrite Happ.
    reflexivity.
  - intros c Hc n force. rewrite Hsp in Hc.
    apply list_elem_of_In, in_map_iff in Hc as (m & <- & _).
    apply probe_is_not_install.
  - reflexivity.
  - intros Hdisjoint. cbn. now apply categories_sum.
Qed.

Lemma C7_run_without_arguments_witness :
  exists existing w s,
    Scanner.getExistingComponents Sample.noDirectory Sample.noFile
                                  Sample.joinPath = inr existing
    /\ App.run (Sample.answering Sample.created) Sample.noDirectory
         Sample.noFile Sample.joinPath Sample.noText Sample.cardRegistry
         Sample.noComponent Sample.noLocalPath App.OneByOne Sample.bareArgv
       = App.Rendered w (App.RegistryBreakdown s)
    /\ spawned w
       = List.map Verifier.command
           (Reconciler.potentialMismatches [js "card"] existing)
    /\ (forall c, c ∈ spawned w -> forall n force, c <> Driver.command n force)
    /\ Breakdown.total s = length [js "card"]
    /\ (Forall (fun n => Breakdown.isHook n && Breakdown.isIcon n = false)
               [js "card"] ->
        Breakdown.total s
        = (length (Breakdown.componentNames s)
           + length (Breakdown.hookNames s)
           + length (Breakdown.iconNames s)
           + length (Breakdown.themeNames s))%nat).
Proof.
  apply (C7_run_without_arguments (Sample.answering Sample.created)
           Sample.noDirectory Sample.noFile Sample.joinPath Sample.noText
           Sample.cardRegistry Sample.noComponent Sample.noLocalPath
           App.OneByOne
           (js "/usr/local/bin/bun") (js "scripts/shadcn-ui.tsx") [js "card"]);
    reflexivity.
Defined.

(** C7 (as stated) fails. In a run without arguments over a registry that
    offers [card] and a project without local components, the probe of
    [card] is started: a subprocess is invoked. *)
Lemma C7_counterexample :
  exists w s,
    App.run (Sample.answering Sample.created) Sample.noDirectory
      Sample.noFile Sample.joinPath Sample.noText Sample.cardRegistry
      Sample.noComponent Sample.noLocalPath App.OneByOne Sample.bareArgv
    = App.Rendered w (App.RegistryBreakdown s)
    /\ spawned w = [Verifier.command (js "card")]
    /\ spawned w <> [].
Proof.
  eexists _, _. split; [vm_compute; reflexivity|].
  split; [reflexivity | discriminate].
Qed.

(** ** Numerals in template literals *)

Section NumeralFacts.

Lemma js_inj (s t : string) : js s = js t -> s = t.
Proof.
unfold js. intros H.
rewrite <- (string_of_list_ascii_of_string s),
        <- (string_of_list_ascii_of_string t).
f_equal. revert H.
generalize (list_ascii_of_string s) (list_ascii_of_string t).
induction l as [|a l IH]; intros [|b l']; simpl; try discriminate;
  [reflexivity|].
intros [= Hab Hl]. f_equal; [|now apply IH].
rewrite <- (ascii_N_embedding a), <- (ascii_N_embedding b). now f_equal.
Qed.

Lemma uint_digits (d : Decimal.uint) :
  Forall (fun c => Regex.isDigit c = true) (js (NilEmpty.string_of_uint d)).
Proof.
induction d; simpl; constructor; solve [reflexivity | assumption].
Qed.

Lemma to_int_proper (z : Z) :
  Z.to_int z <> Decimal.Pos Decimal.Nil /\ Z.to_int z <> Decimal.Neg Decimal.Nil.
Proof.
destruct z as [|p|p]; simpl; split; try discriminate;
  intros [= H]; now apply DecimalPos.Unsigned.to_uint_nonnil in H.
Qed.

Lemma numberToString_inj (a b : Z) :
  JS.numberToString a = JS.numberToString b -> a = b.
Proof.
unfold JS.numberToString. intros H%js_inj.
apply (f_equal NilZero.int_of_string) in H.
destruct (to_int_proper a) as [Ha1 Ha2], (to_int_proper b) as [Hb1 Hb2].
rewrite !NilZero.isi in H by assumption.
injection H as H. apply (f_equal Z.of_int) in H.
now rewrite !DecimalZ.of_to in H.
Qed.

(** A numeral has digits and possibly a sign, nothing else. *)
Lemma numberToString_units (z : Z) :
  Forall (fun c => Regex.isDigit c = true \/ c = 45) (JS.numberToString z).
Proof.
unfold JS.numberToString.
assert (Hd : forall d, Forall (fun c => Regex.isDigit c = true \/ c = 45)
                         (js (NilZero.string_of_uint d))).
{ intros d. eapply Forall_impl; [|intros c Hc; left; exact Hc].
  destruct d; try apply uint_digits.
  repeat constructor. }
destruct (Z.to_int z) as [d|d]; simpl.
- apply Hd.
- constructor; [now right|]. apply Hd.
Qed.

Lemma numberToString_no_unit (z : Z) (sep : N) :
  Regex.isDigit sep = false -> sep <> 45 -> sep ∉ JS.numberToString z.
Proof.
intros Hs1 Hs2 Hin.
pose proof (numberToString_units z) as H.
rewrite Forall_forall in H. destruct (H sep Hin); congruence.
Qed.

Lemma app_sep_inj (sep : N) (l1 r1 l2 r2 : jsstring) :
  sep ∉ l1 -> sep ∉ l2 ->
  l1 ++ sep :: r1 = l2 ++ sep :: r2 -> l1 = l2 /\ r1 = r2.
Proof.
revert l2. induction l1 as [|c l1 IH]; intros [|c' l2] H1 H2; simpl.
- now intros [= ->].
- intros [= <- _]. exfalso. apply H2. left.
- intros [= -> _]. exfalso. apply H1. left.
- intros [= <- H]. apply not_elem_of_cons in H1 as [_ H1].
  apply not_elem_of_cons in H2 as [_ H2].
  destruct (IH l2 H1 H2 H) as [-> ->]. now split.
Qed.

(** A hunk header determines the four numbers it was rendered from. *)
Lemma hunkHeader_inj (a c b d a' c' b' d' : Z) :
  Diff.hunkHeader a c b d = Diff.hunkHeader a' c' b' d' ->
  a = a' /\ c = c' /\ b = b' /\ d = d'.
Proof.
unfold Diff.hunkHeader. intros H.
apply app_inv_head in H.
change (js ",") with [44] in H. change (js " +") with [32; 43] in H.
change (js " @@") with [32; 64; 64] in H. simpl in H.
apply app_sep_inj in H as [Ha H];
  [|now apply numberToString_no_unit..].
apply app_sep_inj in H as [Hc H];
  [|now apply numberToString_no_unit..].
injection H as H.
apply app_sep_inj in H as [Hb H];
  [|now apply numberToString_no_unit..].
apply app_sep_inj in H as [Hd _];
  [|now apply numberToString_no_unit..].
repeat split; now apply numberToString_inj.
Qed.

End NumeralFacts.

(** ** Diff Renderer: the shape of the emitted lines *)

Section DiffShape.

Variables localLines registryLines : list jsstring.

(** The comparison of iteration [i] finds the two sides equal. *)
Let same (i : nat) : Prop :=
  default [] (localLines !! i) = default [] (registryLines !! i).

(** A hunk opens at index [i]: the sides differ there, and no hunk is open
    when the iteration starts. *)
Let opensAt (i : nat) : Prop :=
  ~ same i /\ (i = 0%nat \/ same (i - 1)%nat).

(** A line of a hunk body carries a [-] or a [+] in front. *)
Let body (line : jsstring) : Prop :=
  exists text, line = 45 :: text \/ line = 43 :: text.

(** A header whose two start numbers are one and the same 1-based index,
    that of the line at which its hunk opened. *)
Let header (line : jsstring) : Prop :=
  exists (i : nat) (c d : Z),
    line = Diff.hunkHeader (Z.of_nat i + 1) c (Z.of_nat i + 1) d
    /\ opensAt i.

(** The state before iteration [i]. *)
Let shaped (i : nat) (st : Diff.LoopState) : Prop :=
  Forall (fun line => body line \/ header line) (Diff.diffLines st)
  /\ Forall body (Diff.hunkLines st)
  /\ (Diff.hunkStart st <> (-1)%Z ->
      exists s : nat, Diff.hunkLocalStart st = Z.of_nat s
                      /\ Diff.hunkRegistryStart st = Z.of_nat s
                      /\ opensAt s)
  /\ (Diff.hunkStart st = (-1)%Z -> i = 0%nat \/ same (i - 1)%nat).

Lemma emitHunk_shaped (i : nat) (st : Diff.LoopState) :
  shaped i st -> Diff.hunkStart st <> (-1)%Z ->
  Forall (fun line => body line \/ header line) (Diff.emitHunk st).
Proof.
intros (Hd & Hh & Hs & _) Hopen. destruct (Hs Hopen) as (s & Hl & Hr & Hat).
unfold Diff.emitHunk. rewrite Hl, Hr.
apply Forall_app. split; [exact Hd|].
apply Forall_app. split.
- constructor; [|constructor]. right. exists s. eexists _, _.
  split; [reflexivity|exact Hat].
- eapply Forall_impl; [exact Hh|]. intros line H. now left.
Qed.

Lemma initial_shaped (fileName : jsstring) :
  shaped 0 (Diff.initial fileName).
Proof.
split; [|split; [|split]].
- constructor; [left; eexists; left; reflexivity|].
  constructor; [left; eexists; right; reflexivity|]. constructor.
- constructor.
- simpl. congruence.
- intros _. now left.
Qed.

Lemma step_shaped (st : Diff.LoopState) (i : nat) :
  shaped i st -> shaped (S i) (Diff.step localLines registryLines st i).
Proof.
intros Hst. pose proof Hst as (Hd & Hh & Hs & Hc).
unfold Diff.step.
destruct (decide (same i)) as [Hsame|Hdiffer].
- (* the lines are equal: an open hunk is emitted *)
  rewrite bool_decide_eq_true_2 by exact Hsame. cbn [negb].
  assert (Hnext : S i = 0%nat \/ same (S i - 1)%nat)
    by (right; now replace (S i - 1)%nat with i by lia).
  destruct (Z.eqb_spec (Diff.hunkStart st) (-1)) as [Hclosed|Hopen];
    cbn [negb].
  + split; [exact Hd|]. split; [exact Hh|]. split; [exact Hs|].
    intros _. exact Hnext.
  + split; [now apply (emitHunk_shaped i)|]. split; [constructor|].
    cbn [Diff.hunkStart]. split; [congruence|]. intros _. exact Hnext.
- (* the lines differ: a hunk opens or goes on *)
  rewrite bool_decide_eq_false_2 by exact Hdiffer. cbn [negb].
  assert (Hpush : forall lines,
            Forall body lines ->
            Forall body
              (match registryLines !! i with
               | Some _ =>
                   match localLines !! i with
                   | Some _ => lines ++ [js "-" ++ default [] (localLines !! i)]
                   | None => lines
                   end ++ [js "+" ++ default [] (registryLines !! i)]
               | None =>
                   match localLines !! i with
                   | Some _ => lines ++ [js "-" ++ default [] (localLines !! i)]
                   | None => lines
                   end
               end)).
  { intros lines Hlines.
    assert (Hminus : Forall body
              (match localLines !! i with
               | Some _ => lines ++ [js "-" ++ default [] (localLines !! i)]
               | None => lines
               end)).
    { destruct (localLines !! i); [|exact Hlines].
      apply Forall_app. split; [exact Hlines|].
      constructor; [|constructor]. eexists. left. reflexivity. }
    destruct (registryLines !! i); [|exact Hminus].
    apply Forall_app. split; [exact Hminus|].
    constructor; [|constructor]. eexists. right. reflexivity. }
  destruct (Z.eqb_spec (Diff.hunkStart st) (-1)) as [Hclosed|Hopen];
    cbn [Diff.diffLines Diff.hunkLines Diff.hunkStart Diff.hunkLocalStart
         Diff.hunkRegistryStart].
  + split; [exact Hd|]. split; [now apply Hpush|]. split.
    * intros _. exists i. split; [reflexivity|]. split; [reflexivity|].
      split; [exact Hdiffer|now apply Hc].
    * intros Habs. cbn [Diff.hunkStart] in Habs. lia.
  + split; [exact Hd|]. split; [now apply Hpush|]. split; [exact Hs|].
    intros Habs. cbn [Diff.hunkStart] in Habs. congruence.
Qed.

Lemma fold_shaped (k : nat) :
  forall (i : nat) (st : Diff.LoopState),
    shaped i st ->
    shaped (i + k)
           (fold_left (Diff.step localLines registryLines) (seq i k) st).
Proof.
induction k as [|k IH]; intros i st Hst; simpl.
- now rewrite Nat.add_0_r.
- replace (i + S k)%nat with (S i + k)%nat by lia.
  apply IH. now apply step_shaped.
Qed.

Lemma loop_shaped (fileName : jsstring) :
  shaped (Nat.max (length localLines) (length registryLines))
         (Diff.loop localLines registryLines fileName).
Proof. apply (fold_shaped _ 0), initial_shaped. Qed.

End DiffShape.

Lemma generateDiffLines_shaped (localContent registryContent fileName : jsstring) :
  let localLines := JS.split JS.LF localContent in
  let registryLines := JS.split JS.LF registryContent in
  let same := fun i : nat =>
    default [] (localLines !! i) = default [] (registryLines !! i) in
  Forall (fun line =>
            (exists text, line = 45 :: text \/ line = 43 :: text)
            \/ exists (i : nat) (c d : Z),
                 line = Diff.hunkHeader (Z.of_nat i + 1) c (Z.of_nat i + 1) d
                 /\ ~ same i /\ (i = 0%nat \/ same (i - 1)%nat))
         (Diff.generateDiffLines localContent registryContent fileName).
Proof.
intros localLines registryLines same.
unfold Diff.generateDiffLines. fold localLines registryLines.
pose proof (loop_shaped localLines registryLines fileName) as Hst.
destruct (Z.eqb_spec
            (Diff.hunkStart (Diff.loop localLines registryLines fileName))
            (-1))
  as [Hclosed|Hopen]; cbn [negb].
- apply Hst.
- now apply (emitHunk_shaped localLines registryLines _ _ Hst).
Qed.

(** C10. Every hunk header among the lines that the Diff Renderer emits has
    the same local and registry start number: a line that begins with [@@]
    is the header template filled, for both starts, with the 1-based index
    of the line at which the hunk opened (the two texts differ at that line
    and not at the line before), and whatever four numbers render to that
    line, the first and the third are equal. *)
Theorem C10_hunk_starts_coincide
    (localContent registryContent fileName line : jsstring) :
  line ∈ Diff.generateDiffLines localContent registryContent fileName ->
  JS.startsWith line (js "@@") = true ->
  (exists (i : nat) (c d : Z),
      line = Diff.hunkHeader (Z.of_nat i + 1) c (Z.of_nat i + 1) d
      /\ default [] (JS.split JS.LF localContent !! i)
         <> default [] (JS.split JS.LF registryContent !! i)
      /\ (i = 0%nat
          \/ default [] (JS.split JS.LF localContent !! (i - 1)%nat)
             = default [] (JS.split JS.LF registryContent !! (i - 1)%nat)))
  /\ (forall a c b d : Z, line = Diff.hunkHeader a c b d -> a = b).
Proof.
intros Hin Hat.
pose proof (generateDiffLines_shaped localContent registryContent fileName)
  as Hall.
cbv zeta in Hall. rewrite Forall_forall in Hall.
destruct (Hall line Hin)
  as [[text [-> | ->]]|(i & c & d & Hline & Hdiffer & Hbefore)];
  try discriminate.
split; [now exists i, c, d|].
intros a c' b d' Heq. rewrite Hline in Heq.
apply hunkHeader_inj in Heq as (Ha & _ & Hb & _). congruence.
Qed.

Lemma C10_hunk_starts_coincide_witness :
  js "@@ -2,1 +2,2 @@"
    ∈ Diff.generateDiffLines (js "a" ++ [JS.LF] ++ js "b")
        (js "a" ++ [JS.LF] ++ js "c" ++ [JS.LF] ++ js "d") (js "f")
  /\ forall a c b d : Z, js "@@ -2,1 +2,2 @@" = Diff.hunkHeader a c b d -> a = b.
Proof.
assert (Hin : js "@@ -2,1 +2,2 @@"
                ∈ Diff.generateDiffLines (js "a" ++ [JS.LF] ++ js "b")
                    (js "a" ++ [JS.LF] ++ js "c" ++ [JS.LF]
                      ++ js "d") (js "f")).
{ apply list_elem_of_In. vm_compute. right. right. left. reflexivity. }
split; [exact Hin|].
apply (C10_hunk_starts_coincide _ _ _ _ Hin). reflexivity.
Defined.

(** ** Diff Renderer: the returned text and its lines *)

Section LineBreaks.

Lemma split_without_sep (sep : N) (l : jsstring) :
  sep ∉ l -> JS.split sep l = [l].
Proof.
induction l as [|c l IH]; intros H; [reflexivity|].
apply not_elem_of_cons in H as [Hc Hl]. simpl.
destruct (N.eqb_spec c sep) as [->|_]; [congruence|].
now rewrite (IH Hl).
Qed.

Lemma split_app_sep (sep : N) (l rest : jsstring) :
  sep ∉ l -> JS.split sep (l ++ sep :: rest) = l :: JS.split sep rest.
Proof.
induction l as [|c l IH]; intros H; simpl.
- now rewrite N.eqb_refl.
- apply not_elem_of_cons in H as [Hc Hl].
  destruct (N.eqb_spec c sep) as [->|_]; [congruence|].
  now rewrite (IH Hl).
Qed.

Lemma split_lines_unbroken (sep : N) (s : jsstring) :
  Forall (fun line => sep ∉ line) (JS.split sep s).
Proof.
induction s as [|c s IH]; simpl.
- constructor; [apply not_elem_of_nil|constructor].
- destruct (N.eqb_spec c sep) as [->|Hne].
  + constructor; [apply not_elem_of_nil|exact IH].
  + destruct (JS.split sep s) as [|l ls].
    * constructor; [|constructor].
      rewrite elem_of_cons, elem_of_nil. intros [?|[]]. congruence.
    * apply Forall_cons in IH as [Hl Hls]. constructor; [|exact Hls].
      rewrite elem_of_cons. intros [?|?]; [congruence|tauto].
Qed.

Lemma split_join (lines : list jsstring) :
  lines <> [] -> Forall (fun line => JS.LF ∉ line) lines ->
  JS.split JS.LF (JS.join [JS.LF] lines) = lines.
Proof.
induction lines as [|l lines IH]; intros Hne Hall; [congruence|].
apply Forall_cons in Hall as [Hl Hall].
destruct lines as [|l' lines].
- simpl. now apply split_without_sep.
- change (JS.join [JS.LF] (l :: l' :: lines))
    with (l ++ JS.LF :: JS.join [JS.LF] (l' :: lines)).
  rewrite split_app_sep by assumption. f_equal. now apply IH.
Qed.

Lemma numeral_unbroken (z : Z) : JS.LF ∉ JS.numberToString z.
Proof. now apply numberToString_no_unit. Qed.

Lemma hunkHeader_unbroken (a c b d : Z) : JS.LF ∉ Diff.hunkHeader a c b d.
Proof.
unfold Diff.hunkHeader.
rewrite !elem_of_app.
pose proof (numeral_unbroken a). pose proof (numeral_unbroken b).
pose proof (numeral_unbroken c). pose proof (numeral_unbroken d).
assert (Hlit : forall s, Forall (fun ch => ch <> JS.LF) (js s) -> JS.LF ∉ js s).
{ intros s Hs Hin. rewrite Forall_forall in Hs. now apply (Hs _ Hin). }
intros [?|[?|[?|[?|[?|[?|[?|[?|?]]]]]]]]; try tauto;
  match goal with
  | H : JS.LF ∈ js _ |- _ =>
      revert H; apply Hlit; repeat constructor; discriminate
  end.
Qed.

Variables localLines registryLines : list jsstring.
Hypothesis localUnbroken : Forall (fun line => JS.LF ∉ line) localLines.
Hypothesis registryUnbroken : Forall (fun line => JS.LF ∉ line) registryLines.

Let unbroken (st : Diff.LoopState) : Prop :=
  Forall (fun line => JS.LF ∉ line) (Diff.diffLines st)
  /\ Forall (fun line => JS.LF ∉ line) (Diff.hunkLines st)
  /\ Diff.diffLines st <> [].

Lemma line_unbroken (lines : list jsstring) (i : nat) (mark : N) :
  Forall (fun line => JS.LF ∉ line) lines -> mark <> JS.LF ->
  JS.LF ∉ mark :: default [] (lines !! i).
Proof.
intros Hall Hmark. rewrite elem_of_cons. intros [?|Hin]; [congruence|].
destruct (lines !! i) as [l|] eqn:E; simpl in Hin.
- rewrite Forall_forall in Hall.
  apply (Hall l); [now apply list_elem_of_lookup_2 in E|exact Hin].
- now apply elem_of_nil in Hin.
Qed.

Lemma emitHunk_unbroken (st : Diff.LoopState) :
  unbroken st -> Forall (fun line => JS.LF ∉ line) (Diff.emitHunk st).
Proof.
intros (Hd & Hh & _). unfold Diff.emitHunk.
apply Forall_app. split; [exact Hd|]. apply Forall_app. split; [|exact Hh].
constructor; [apply hunkHeader_unbroken|constructor].
Qed.

Lemma step_unbroken (st : Diff.LoopState) (i : nat) :
  unbroken st -> unbroken (Diff.step localLines registryLines st i).
Proof.
intros Hst. pose proof Hst as (Hd & Hh & Hne). unfold Diff.step.
destruct (negb (bool_decide _)).
- assert (Hne' : Diff.diffLines
            (if Z.eqb (Diff.hunkStart st) (-1)
             then Diff.mkLoop (Diff.diffLines st) (Z.of_nat i) (Z.of_nat i)
                    (Z.of_nat i) (Diff.hunkLines st)
             else st) <> [])
    by (now destruct (Z.eqb _ _)).
  assert (Hlines : Forall (fun line => JS.LF ∉ line)
            (Diff.hunkLines
               (if Z.eqb (Diff.hunkStart st) (-1)
                then Diff.mkLoop (Diff.diffLines st) (Z.of_nat i) (Z.of_nat i)
                       (Z.of_nat i) (Diff.hunkLines st)
                else st)))
    by (now destruct (Z.eqb _ _)).
  assert (Hdiff : Forall (fun line => JS.LF ∉ line)
            (Diff.diffLines
               (if Z.eqb (Diff.hunkStart st) (-1)
                then Diff.mkLoop (Diff.diffLines st) (Z.of_nat i) (Z.of_nat i)
                       (Z.of_nat i) (Diff.hunkLines st)
                else st)))
    by (now destruct (Z.eqb _ _)).
  split; [|split]; cbn [Diff.diffLines Diff.hunkLines];
    [exact Hdiff| |exact Hne'].
  assert (Hminus : Forall (fun line => JS.LF ∉ line)
            (match localLines !! i with
             | Some _ =>
                 Diff.hunkLines
                   (if Z.eqb (Diff.hunkStart st) (-1)
                    then Diff.mkLoop (Diff.diffLines st) (Z.of_nat i)
                           (Z.of_nat i) (Z.of_nat i) (Diff.hunkLines st)
                    else st)
                 ++ [js "-" ++ default [] (localLines !! i)]
             | None =>
                 Diff.hunkLines
                   (if Z.eqb (Diff.hunkStart st) (-1)
                    then Diff.mkLoop (Diff.diffLines st) (Z.of_nat i)
                           (Z.of_nat i) (Z.of_nat i) (Diff.hunkLines st)
                    else st)
             end)).
  { destruct (localLines !! i) eqn:E; [|exact Hlines].
    apply Forall_app. split; [exact Hlines|].
    constructor; [|constructor]. rewrite <- E.
    now apply (line_unbroken localLines i 45). }
  destruct (registryLines !! i) eqn:E; [|exact Hminus].
  apply Forall_app. split; [exact Hminus|].
  constructor; [|constructor]. rewrite <- E.
  now apply (line_unbroken registryLines i 43).
- destruct (negb (Z.eqb _ _)); [|exact Hst].
  split; [now apply emitHunk_unbroken|]. split; [constructor|].
  cbn [Diff.diffLines]. unfold Diff.emitHunk. intros H.
  apply app_eq_nil in H as [_ H]. discriminate.
Qed.

Lemma loop_unbroken (fileName : jsstring) :
  JS.LF ∉ fileName ->
  unbroken (Diff.loop localLines registryLines fileName).
Proof.
intros Hname. unfold Diff.loop.
generalize (seq 0 (Nat.max (length localLines) (length registryLines))).
assert (Hinit : unbroken (Diff.initial fileName)).
{ assert (Hlit : forall s, Forall (fun ch => ch <> JS.LF) (js s) ->
                    JS.LF ∉ js s ++ fileName).
  { intros s Hs. rewrite elem_of_app. intros [Hin|?]; [|tauto].
    rewrite Forall_forall in Hs. now apply (Hs _ Hin). }
  split; [|split; [constructor|discriminate]].
  unfold Diff.initial. cbn [Diff.diffLines].
  apply Forall_cons. split.
  - apply Hlit. repeat constructor; discriminate.
  - apply Forall_cons. split; [|constructor].
    apply Hlit. repeat constructor; discriminate. }
revert Hinit. generalize (Diff.initial fileName).
intros st Hst indices. revert st Hst.
induction indices as [|i indices IH]; intros st Hst; [exact Hst|].
simpl. apply IH. now apply step_unbroken.
Qed.

End LineBreaks.

Lemma generateDiffLines_unbroken (localContent registryContent fileName : jsstring) :
  JS.LF ∉ fileName ->
  Forall (fun line => JS.LF ∉ line)
         (Diff.generateDiffLines localContent registryContent fileName)
  /\ Diff.generateDiffLines localContent registryContent fileName <> [].
Proof.
intros Hname. unfold Diff.generateDiffLines.
pose proof (loop_unbroken _ _ (split_lines_unbroken JS.LF localContent)
              (split_lines_unbroken JS.LF registryContent) fileName Hname)
  as Hst.
destruct (negb (Z.eqb _ _)).
- split; [now apply emitHunk_unbroken|].
  unfold Diff.emitHunk. intros H. apply app_eq_nil in H as [_ H].
  discriminate.
- split; apply Hst.
Qed.

Lemma generateDiff_lines (localContent registryContent fileName : jsstring) :
  JS.LF ∉ fileName ->
  JS.split JS.LF (Diff.generateDiff localContent registryContent fileName)
  = Diff.generateDiffLines localContent registryContent fileName.
Proof.
intros Hname. unfold Diff.generateDiff.
destruct (generateDiffLines_unbroken localContent registryContent fileName
            Hname) as [Hall Hne].
now apply split_join.
Qed.

(** ** Diff Renderer: reading the hunks back *)

Section RoundTripNumerals.

Lemma split_cons_shape (sep : N) (s : jsstring) :
  exists l ls, JS.split sep s = l :: ls.
Proof.
induction s as [|c s (l & ls & IH)]; simpl; [now eexists _, _|].
destruct (N.eqb c sep); [now eexists _, _|].
rewrite IH. now eexists _, _.
Qed.

Lemma join_split (s : jsstring) : JS.join [JS.LF] (JS.split JS.LF s) = s.
Proof.
induction s as [|c s IH]; [reflexivity|].
simpl JS.split.
destruct (split_cons_shape JS.LF s) as (l & ls & Hs). rewrite Hs in *.
destruct (N.eqb_spec c JS.LF) as [->|Hne].
- change (JS.join [JS.LF] ([] :: l :: ls))
    with ([] ++ [JS.LF] ++ JS.join [JS.LF] (l :: ls)).
  now rewrite IH.
- destruct ls as [|l' ls].
  + simpl in *. now rewrite IH.
  + change (JS.join [JS.LF] ((c :: l) :: l' :: ls))
      with (c :: (l ++ [JS.LF] ++ JS.join [JS.LF] (l' :: ls))).
    now rewrite <- IH.
Qed.

Lemma parseInt_acc_uint (d : Decimal.uint) (acc : positive) :
  fold_left (fun a c => 10 * a + (c - 48)) (js (NilEmpty.string_of_uint d))
            (Npos acc)
  = Npos (Pos.of_uint_acc d acc).
Proof.
revert acc. induction d; intros acc; simpl; try reflexivity;
  rewrite <- IHd; f_equal; lia.
Qed.

Lemma parseInt_uint (d : Decimal.uint) :
  Regex.parseInt (js (NilEmpty.string_of_uint d)) = Pos.of_uint d.
Proof.
unfold Regex.parseInt.
induction d; simpl; try assumption; try reflexivity;
  rewrite <- parseInt_acc_uint; reflexivity.
Qed.

Lemma parseInt_numberToString (z : Z) :
  (0 <= z)%Z -> Regex.parseInt (JS.numberToString z) = Z.to_N z.
Proof.
intros Hz. unfold JS.numberToString.
destruct z as [|p|p]; [reflexivity| |lia].
simpl Z.to_int. simpl NilZero.string_of_int.
unfold NilZero.string_of_uint.
pose proof (DecimalPos.Unsigned.to_uint_nonnil p) as Hnil.
destruct (Pos.to_uint p) eqn:E; try congruence;
  rewrite <- E, parseInt_uint, DecimalPos.Unsigned.of_to; reflexivity.
Qed.

Lemma numberToString_digits (z : Z) :
  (0 <= z)%Z ->
  Forall (fun c => Regex.isDigit c = true) (JS.numberToString z)
  /\ JS.numberToString z <> [].
Proof.
intros Hz. unfold JS.numberToString.
destruct z as [|p|p]; [split; [repeat constructor|discriminate]| |lia].
simpl Z.to_int. simpl NilZero.string_of_int.
unfold NilZero.string_of_uint.
pose proof (DecimalPos.Unsigned.to_uint_nonnil p) as Hnil.
destruct (Pos.to_uint p) eqn:E; try congruence; rewrite <- E;
  (split; [apply uint_digits|rewrite E; discriminate]).
Qed.

Lemma takeWhile_app_stop (f : N -> bool) (l r : jsstring) (sep : N) :
  Forall (fun c => f c = true) l -> f sep = false ->
  Regex.takeWhile f (l ++ sep :: r) = l.
Proof.
induction 1 as [|c l Hc _ IH]; intros Hsep; simpl.
- now rewrite Hsep.
- now rewrite Hc, IH.
Qed.

Lemma headerStart_hunkHeader (i : nat) (c b d : Z) :
  Patch.headerStart (Diff.hunkHeader (Z.of_nat i + 1) c b d) = Some (S i).
Proof.
unfold Patch.headerStart, Diff.hunkHeader.
rewrite startsWith_app.
change (js "@@ -") with [64; 64; 32; 45].
change (js ",") with [44].
repeat match goal with
| |- context [drop 4 ([64; 64; 32; 45] ++ ?x)] =>
    change (drop 4 ([64; 64; 32; 45] ++ x)) with x
| |- context [?l ++ [44] ++ ?x] =>
    change (l ++ [44] ++ x) with (l ++ 44 :: x)
end.
destruct (numberToString_digits (Z.of_nat i + 1)) as [Hd Hne]; [lia|].
rewrite takeWhile_app_stop by (assumption || reflexivity).
destruct (JS.numberToString (Z.of_nat i + 1)) eqn:E; [congruence|].
cbn [Regex.nonEmpty]. rewrite <- E, parseInt_numberToString by lia.
f_equal. lia.
Qed.

End RoundTripNumerals.

Section RoundTrip.

Variables L R : list jsstring.
Hypothesis overhangL : forall i, (length R <= i)%nat -> L !! i <> Some [].
Hypothesis overhangR : forall i, (length L <= i)%nat -> R !! i <> Some [].

(** The lines that iteration [i] pushes when the two sides differ. *)
Let pushed (i : nat) : list jsstring :=
  match L !! i with Some l => [45 :: l] | None => [] end
  ++ match R !! i with Some r => [43 :: r] | None => [] end.

Lemma equal_lines_defined (i : nat) :
  (i < Nat.max (length L) (length R))%nat ->
  default [] (L !! i) = default [] (R !! i) ->
  exists l, L !! i = Some l /\ R !! i = Some l.
Proof.
intros Hi Heq.
destruct (L !! i) as [l|] eqn:El, (R !! i) as [r|] eqn:Er; simpl in Heq.
- subst r. now exists l.
- subst l. apply lookup_ge_None in Er. now apply overhangL in Er.
- subst r. apply lookup_ge_None in El. now apply overhangR in El.
- apply lookup_ge_None in El, Er. lia.
Qed.

Lemma apply_pushed (i : nat) (tail : list jsstring) :
  Patch.apply (pushed i ++ tail) (Nat.min i (length L)) (drop i L) (take i R)
  = Patch.apply tail (Nat.min (S i) (length L)) (drop (S i) L) (take (S i) R).
Proof.
unfold pushed.
assert (Hplus : forall pos rest,
  Patch.apply (match R !! i with Some r => [43 :: r] | None => [] end ++ tail)
              pos rest (take i R)
  = Patch.apply tail pos rest (take (S i) R)).
{ intros pos rest. destruct (R !! i) as [r|] eqn:Er.
  - cbn -[Nat.min take drop]. now rewrite (take_S_r _ _ _ Er).
  - apply lookup_ge_None in Er. cbn [app].
    now rewrite !take_ge by lia. }
destruct (L !! i) as [l|] eqn:El.
- pose proof (lookup_lt_Some _ _ _ El) as Hlt.
  rewrite (drop_S _ _ _ El).
  rewrite <- app_assoc. cbn -[Nat.min take drop].
  rewrite bool_decide_eq_true_2 by reflexivity.
  rewrite Hplus. f_equal; lia.
- apply lookup_ge_None in El. cbn [app].
  rewrite Hplus, !drop_ge by lia. f_equal; lia.
Qed.

Lemma apply_header (i p : nat) (c b d : Z) (rest : list jsstring) :
  (p <= i)%nat ->
  (forall k, (p <= k < i)%nat -> exists l, L !! k = Some l /\ R !! k = Some l) ->
  Patch.apply (Diff.hunkHeader (Z.of_nat i + 1) c b d :: rest) p
              (drop p L) (take p R)
  = Patch.apply rest i (drop i L) (take i R).
Proof.
intros Hpi Hagree.
pose proof (headerStart_hunkHeader i c b d) as Hstart.
cbn [Patch.apply].
change (Diff.hunkHeader (Z.of_nat i + 1) c b d)
  with (64 :: 64 :: 32 :: 45 ::
        (JS.numberToString (Z.of_nat i + 1) ++ js "," ++ JS.numberToString c
           ++ js " +" ++ JS.numberToString b ++ js ","
           ++ JS.numberToString d ++ js " @@")) in *.
rewrite Hstart.
replace (S i - 1)%nat with i by lia.
destruct (Nat.ltb_spec i p) as [?|_]; [lia|].
rewrite drop_drop. replace (p + (i - p))%nat with i by lia.
f_equal.
assert (Hsame : take (i - p) (drop p L) = take (i - p) (drop p R)).
{ apply list_eq. intros k.
  destruct (decide (k < i - p)%nat) as [Hk|Hk].
  - rewrite !lookup_take_lt, !lookup_drop by lia.
    destruct (Hagree (p + k)%nat) as (l & -> & ->); [lia|reflexivity].
  - rewrite !lookup_take_ge by lia. reflexivity. }
rewrite Hsame, take_take_drop. f_equal. lia.
Qed.


Let n : nat := Nat.max (length L) (length R).

(** What the lines emitted so far, and those collected in the open hunk,
    do to the local text: after [i] iterations the first [i] lines of the
    registry text have been produced. *)
Let inv (i : nat) (st : Diff.LoopState) : Prop :=
  (2 <= length (Diff.diffLines st))%nat
  /\ ((Diff.hunkStart st = (-1)%Z
       /\ Diff.hunkLines st = []
       /\ exists p : nat,
            (p <= i)%nat /\ (p <= length L)%nat
            /\ (forall k, (p <= k < i)%nat ->
                  exists l, L !! k = Some l /\ R !! k = Some l)
            /\ forall tail,
                 Patch.apply (drop 2 (Diff.diffLines st) ++ tail) 0 L []
                 = Patch.apply tail p (drop p L) (take p R))
      \/ (Diff.hunkStart st <> (-1)%Z
          /\ exists s : nat,
               Diff.hunkLocalStart st = Z.of_nat s
               /\ forall c b d tail,
                    Patch.apply
                      (drop 2 (Diff.diffLines st)
                         ++ Diff.hunkHeader (Z.of_nat s + 1) c b d
                              :: Diff.hunkLines st ++ tail) 0 L []
                    = Patch.apply tail (Nat.min i (length L)) (drop i L)
                                  (take i R))).

Lemma inv_initial (fileName : jsstring) : inv 0 (Diff.initial fileName).
Proof.
split; [simpl; lia|]. left. split; [reflexivity|]. split; [reflexivity|].
exists 0%nat. split; [lia|]. split; [lia|]. split; [intros k Hk; lia|].
intros tail. reflexivity.
Qed.

Lemma agree_below (p i : nat) :
  (forall k, (p <= k < i)%nat -> exists l, L !! k = Some l /\ R !! k = Some l) ->
  (p < i)%nat -> (i <= length L)%nat.
Proof.
intros Hagree Hlt.
destruct (Hagree (i - 1)%nat) as (l & Hl & _); [lia|].
apply lookup_lt_Some in Hl. lia.
Qed.

Lemma step_pushed (st : Diff.LoopState) (i : nat) (lines : list jsstring) :
  match R !! i with
  | Some _ =>
      match L !! i with
      | Some _ => lines ++ [js "-" ++ default [] (L !! i)]
      | None => lines
      end ++ [js "+" ++ default [] (R !! i)]
  | None =>
      match L !! i with
      | Some _ => lines ++ [js "-" ++ default [] (L !! i)]
      | None => lines
      end
  end = lines ++ pushed i.
Proof.
unfold pushed.
destruct (L !! i), (R !! i); simpl; rewrite <- ?app_assoc, ?app_nil_r;
  reflexivity.
Qed.

Lemma inv_step (i : nat) (st : Diff.LoopState) :
  (i < n)%nat -> inv i st -> inv (S i) (Diff.step L R st i).
Proof.
intros Hi [Hlen Hst]. unfold Diff.step.
destruct (decide (default [] (L !! i) = default [] (R !! i))) as [Heq|Hne].
- (* the lines are equal *)
  rewrite bool_decide_eq_true_2 by assumption. cbn [negb].
  destruct (equal_lines_defined i Hi Heq) as (l & Hl & Hr).
  pose proof (lookup_lt_Some _ _ _ Hl) as HiL.
  destruct Hst as [(Hclosed & Hnil & p & Hp & HpL & Hagree & Happly)
                  |(Hopen & s & Hs & Happly)].
  + rewrite Hclosed, Z.eqb_refl. cbn [negb]. split; [exact Hlen|]. left.
    split; [exact Hclosed|]. split; [exact Hnil|].
    exists p. split; [lia|]. split; [exact HpL|]. split; [|exact Happly].
    intros k Hk. destruct (decide (k = i)) as [->|]; [now exists l|].
    apply Hagree. lia.
  + destruct (Z.eqb_spec (Diff.hunkStart st) (-1)) as [?|_]; [congruence|].
    cbn [negb]. split.
    { cbn [Diff.diffLines]. unfold Diff.emitHunk. rewrite length_app. lia. }
    left. cbn [Diff.hunkStart Diff.hunkLines Diff.diffLines].
    split; [reflexivity|]. split; [reflexivity|].
    exists i. split; [lia|]. split; [lia|]. split.
    { intros k Hk. replace k with i by lia. now exists l. }
    intros tail. unfold Diff.emitHunk.
    rewrite drop_app_le by lia. rewrite <- !app_assoc, <- cons_middle.
    rewrite Hs, Happly. f_equal. lia.
- (* the lines differ *)
  rewrite bool_decide_eq_false_2 by assumption. cbn [negb].
  destruct Hst as [(Hclosed & Hnil & p & Hp & HpL & Hagree & Happly)
                  |(Hopen & s & Hs & Happly)].
  + rewrite Hclosed, Z.eqb_refl.
    cbn [Diff.diffLines Diff.hunkLines Diff.hunkStart Diff.hunkLocalStart
         Diff.hunkRegistryStart].
    rewrite step_pushed by exact st. rewrite Hnil. cbn [app].
    split; [exact Hlen|]. right. cbn [Diff.diffLines Diff.hunkLines Diff.hunkStart Diff.hunkLocalStart
         Diff.hunkRegistryStart].
    split; [lia|]. exists i. split; [reflexivity|].
    intros c b d tail. rewrite Happly.
    rewrite (apply_header i p) by (assumption || lia).
    assert (HiL : (i <= length L)%nat).
    { destruct (decide (p < i)%nat) as [Hlt|Hge].
      - exact (agree_below p i Hagree Hlt).
      - replace i with p by lia. exact HpL. }
    rewrite <- (apply_pushed i tail). f_equal. lia.
  + destruct (Z.eqb_spec (Diff.hunkStart st) (-1)) as [?|_]; [congruence|].
    cbn [Diff.diffLines Diff.hunkLines Diff.hunkStart Diff.hunkLocalStart
         Diff.hunkRegistryStart].
    rewrite step_pushed by exact st.
    split; [exact Hlen|]. right. cbn [Diff.diffLines Diff.hunkLines Diff.hunkStart Diff.hunkLocalStart
         Diff.hunkRegistryStart].
    split; [exact Hopen|].
    exists s. split; [exact Hs|].
    intros c b d tail. rewrite <- app_assoc, Happly. apply apply_pushed.
Qed.


Lemma inv_fold (k : nat) :
  forall i st, (i + k <= n)%nat -> inv i st ->
    inv (i + k) (fold_left (Diff.step L R) (seq i k) st).
Proof.
induction k as [|k IH]; intros i st Hk Hinv; simpl.
- rewrite Nat.add_0_r. exact Hinv.
- replace (i + S k)%nat with (S i + k)%nat by lia.
  apply IH; [lia|]. apply inv_step; [lia|exact Hinv].
Qed.

Lemma inv_loop (fileName : jsstring) : inv n (Diff.loop L R fileName).
Proof.
unfold Diff.loop. fold n.
apply (inv_fold n 0 (Diff.initial fileName)); [lia|apply inv_initial].
Qed.

(** The lines at the [return] statement turn the local lines into the
    registry lines. *)
Lemma apply_finished (fileName : jsstring) :
  Patch.apply
    (drop 2
       (if negb (Z.eqb (Diff.hunkStart (Diff.loop L R fileName)) (-1))
        then Diff.emitHunk (Diff.loop L R fileName)
        else Diff.diffLines (Diff.loop L R fileName)))
    0 L []
  = Some R.
Proof.
destruct (inv_loop fileName)
  as [Hlen [(Hclosed & Hnil & p & Hp & HpL & Hagree & Happly)
           |(Hopen & s & Hs & Happly)]].
- rewrite Hclosed, Z.eqb_refl. cbn [negb].
  rewrite <- (app_nil_r (drop 2 _)), Happly. cbn [Patch.apply].
  f_equal. rewrite <- (take_drop p R) at 2. f_equal.
  apply list_eq. intros k. rewrite !lookup_drop.
  destruct (decide (p + k < n)%nat) as [Hk|Hk].
  + destruct (Hagree (p + k)%nat) as (l & -> & ->); [lia|reflexivity].
  + rewrite !(proj2 (lookup_ge_None _ _)) by (unfold n in Hk; lia).
    reflexivity.
- destruct (Z.eqb_spec (Diff.hunkStart (Diff.loop L R fileName)) (-1))
    as [?|_]; [congruence|].
  cbn [negb]. unfold Diff.emitHunk.
  rewrite drop_app_le by lia. rewrite <- cons_middle.
  rewrite <- (app_nil_r (Diff.hunkLines _)), Hs, Happly.
  cbn [Patch.apply]. rewrite take_ge, drop_ge by (unfold n; lia).
  now rewrite app_nil_r.
Qed.

End RoundTrip.

(** Outside the case of blank lines beyond the end of the shorter text, the
    hunks do reconstruct the registry text from the local text. *)
Theorem diff_round_trip (localText registryText fileName : jsstring) :
  Patch.noBlankOverhang localText registryText ->
  Patch.applyTo (Diff.generateDiffLines localText registryText fileName)
                localText
  = Some registryText.
Proof.
intros [HL HR]. unfold Patch.applyTo, Diff.generateDiffLines.
rewrite (apply_finished _ _ HL HR). simpl. now rewrite join_split.
Qed.

(** X4. The text that [generateDiff] returns for a file name without line
    break, cut into lines again and applied to the local text, gives the
    registry text back, as long as no line beyond the end of the shorter
    text is empty. *)
Theorem diff_round_trip_text (localText registryText fileName : jsstring) :
  JS.LF ∉ fileName ->
  Patch.noBlankOverhang localText registryText ->
  Patch.applyText (Diff.generateDiff localText registryText fileName)
                  localText
  = Some registryText.
Proof.
intros Hname Hblank. unfold Patch.applyText.
rewrite generateDiff_lines by exact Hname.
now apply diff_round_trip.
Qed.

Example diff_round_trip_sample :
  Patch.applyTo
    (Diff.generateDiffLines (js "a" ++ [JS.LF] ++ js "b")
       (js "x" ++ [JS.LF] ++ js "b" ++ [JS.LF] ++ js "c") (js "f"))
    (js "a" ++ [JS.LF] ++ js "b")
  = Some (js "x" ++ [JS.LF] ++ js "b" ++ [JS.LF] ++ js "c").
Proof.
apply diff_round_trip. split; intros i Hi.
- destruct i as [|[|[|i]]]; simpl in Hi; try lia; discriminate.
- destruct i as [|[|[|i]]]; simpl in Hi; try lia; discriminate.
Qed.

(** C3 fails on the code. For the local text made of the line [a] and a
    final line break, and the registry text [a] without it, the second local
    line is empty and the registry has no second line; the comparison takes
    the missing line for an empty one, no hunk is emitted, and applying the
    (empty) list of hunks leaves the local text, which is not the registry
    text. *)
Theorem C3_trailing_blank_line_lost :
  Diff.generateDiff (js "a" ++ [JS.LF]) (js "a") (js "f")
  = js "--- a/f" ++ [JS.LF] ++ js "+++ b/f"
  /\ Patch.applyText
       (Diff.generateDiff (js "a" ++ [JS.LF]) (js "a") (js "f"))
       (js "a" ++ [JS.LF])
     = Some (js "a" ++ [JS.LF])
  /\ Patch.applyText
       (Diff.generateDiff (js "a" ++ [JS.LF]) (js "a") (js "f"))
       (js "a" ++ [JS.LF])
     <> Some (js "a").
Proof.
split; [reflexivity|]. split; [reflexivity|].
vm_compute. discriminate.
Qed.

(** * Further properties *)
(** ** Diff Renderer: when hunks are emitted, and what they look like *)

Section DiffHunks.

Variables localLines registryLines : list jsstring.
Variable fileName : jsstring.

Let same (i : nat) : Prop :=
  default [] (localLines !! i) = default [] (registryLines !! i).

Let fileHeader : list jsstring :=
  [js "--- a/" ++ fileName; js "+++ b/" ++ fileName].

Let maxLines : nat := Nat.max (length localLines) (length registryLines).

Lemma same_beyond (i : nat) : (maxLines <= i)%nat -> same i.
Proof.
intros Hi. unfold same.
rewrite !(proj2 (lookup_ge_None _ _)) by (unfold maxLines in Hi; lia).
reflexivity.
Qed.

Lemma step_same_closed (st : Diff.LoopState) (i : nat) :
  same i -> Diff.hunkStart st = (-1)%Z ->
  Diff.step localLines registryLines st i = st.
Proof.
intros Hsame Hclosed. unfold Diff.step.
rewrite bool_decide_eq_true_2 by exact Hsame.
now rewrite Hclosed.
Qed.

Lemma fold_all_same (indices : list nat) (st : Diff.LoopState) :
  (forall i, same i) -> Diff.hunkStart st = (-1)%Z ->
  fold_left (Diff.step localLines registryLines) indices st = st.
Proof.
intros Hsame Hclosed. induction indices as [|i indices IH]; [reflexivity|].
simpl. now rewrite step_same_closed.
Qed.

(** The lines pushed at an index where the sides differ are marked, and
    there is at least one. *)
Lemma pushed_lines (lines : list jsstring) (i : nat) :
  ~ same i ->
  exists new,
    match registryLines !! i with
    | Some _ =>
        match localLines !! i with
        | Some _ => lines ++ [js "-" ++ default [] (localLines !! i)]
        | None => lines
        end ++ [js "+" ++ default [] (registryLines !! i)]
    | None =>
        match localLines !! i with
        | Some _ => lines ++ [js "-" ++ default [] (localLines !! i)]
        | None => lines
        end
    end = lines ++ new
    /\ new <> [] /\ Forall Hunks.marked new.
Proof.
intros Hdiffer. unfold same in Hdiffer.
destruct (localLines !! i) as [l|], (registryLines !! i) as [r|];
  simpl in *.
- exists [45 :: l; 43 :: r]. rewrite <- app_assoc. split; [reflexivity|].
  split; [discriminate|].
  constructor; [eexists; left; reflexivity|].
  constructor; [eexists; right; reflexivity|constructor].
- exists [45 :: l]. split; [reflexivity|]. split; [discriminate|].
  constructor; [eexists; left; reflexivity|constructor].
- exists [43 :: r]. split; [reflexivity|]. split; [discriminate|].
  constructor; [eexists; right; reflexivity|constructor].
- congruence.
Qed.

Lemma StronglySorted_snoc (l : list nat) (x : nat) :
  StronglySorted lt l -> Forall (fun y => (y < x)%nat) l ->
  StronglySorted lt (l ++ [x]).
Proof.
induction 1 as [|y l Hl IH Hy]; intros Hall; simpl.
- repeat constructor.
- apply Forall_cons in Hall as [Hyx Hall]. constructor; [now apply IH|].
  apply Forall_app. split; [exact Hy|]. now constructor.
Qed.

Let wellFormed (h : Hunks.Hunk) : Prop :=
  snd h <> [] /\ Forall Hunks.marked (snd h) /\ ~ same (fst h).

(** The state before iteration [i], as a sequence of closed hunks and
    possibly an open one. *)
Let hunked (i : nat) (st : Diff.LoopState) : Prop :=
  exists hunks : list Hunks.Hunk,
    Diff.diffLines st = fileHeader ++ flat_map Hunks.render hunks
    /\ Forall wellFormed hunks
    /\ StronglySorted lt (List.map fst hunks)
    /\ ((Diff.hunkStart st = (-1)%Z
         /\ Diff.hunkLines st = []
         /\ Forall (fun h => (fst h < i)%nat) hunks)
        \/ (Diff.hunkStart st <> (-1)%Z
            /\ exists s : nat,
                 Diff.hunkLocalStart st = Z.of_nat s
                 /\ Diff.hunkRegistryStart st = Z.of_nat s
                 /\ (s < i)%nat
                 /\ wellFormed (s, Diff.hunkLines st)
                 /\ Forall (fun h => (fst h < s)%nat) hunks)).

Lemma initial_hunked : hunked 0 (Diff.initial fileName).
Proof.
exists []. split; [reflexivity|]. split; [constructor|].
split; [constructor|]. left. repeat split; constructor.
Qed.

Lemma emitHunk_render (st : Diff.LoopState) (s : nat)
    (hunks : list Hunks.Hunk) :
  Diff.diffLines st = fileHeader ++ flat_map Hunks.render hunks ->
  Diff.hunkLocalStart st = Z.of_nat s ->
  Diff.hunkRegistryStart st = Z.of_nat s ->
  Diff.emitHunk st
  = fileHeader ++ flat_map Hunks.render (hunks ++ [(s, Diff.hunkLines st)]).
Proof.
intros Hd Hl Hr. unfold Diff.emitHunk. rewrite Hd, Hl, Hr.
rewrite flat_map_app. cbn [flat_map]. rewrite app_nil_r.
unfold Hunks.render. cbn [fst snd]. rewrite <- !app_assoc. reflexivity.
Qed.

Lemma step_hunked (st : Diff.LoopState) (i : nat) :
  hunked i st -> hunked (S i) (Diff.step localLines registryLines st i).
Proof.
intros (hunks & Hd & Hwf & Hsorted & Hstate). unfold Diff.step.
destruct (decide (same i)) as [Hsame|Hdiffer].
- rewrite bool_decide_eq_true_2 by exact Hsame. cbn [negb].
  destruct Hstate as [(Hclosed & Hnil & Hbelow)
                     |(Hopen & s & Hl & Hr & Hs & Hcur & Hbelow)].
  + rewrite Hclosed, Z.eqb_refl. cbn [negb].
    exists hunks. split; [exact Hd|]. split; [exact Hwf|].
    split; [exact Hsorted|]. left. split; [exact Hclosed|].
    split; [exact Hnil|].
    eapply Forall_impl; [exact Hbelow|]. intros h Hh. simpl in Hh. lia.
  + destruct (Z.eqb_spec (Diff.hunkStart st) (-1)) as [?|_]; [congruence|].
    cbn [negb].
    exists (hunks ++ [(s, Diff.hunkLines st)]).
    cbn [Diff.diffLines Diff.hunkStart Diff.hunkLines].
    split; [now apply emitHunk_render|].
    split; [apply Forall_app; split; [exact Hwf|now constructor]|].
    split.
    { rewrite map_app. apply StronglySorted_snoc; [exact Hsorted|].
      apply Forall_forall. intros y Hy.
      apply list_elem_of_In, in_map_iff in Hy as (h & <- & Hh).
      rewrite Forall_forall in Hbelow. apply Hbelow.
      now apply list_elem_of_In. }
    left. split; [reflexivity|]. split; [reflexivity|].
    apply Forall_app. split.
    * eapply Forall_impl; [exact Hbelow|]. intros h Hh. simpl in Hh. lia.
    * constructor; [simpl; lia|constructor].
- rewrite bool_decide_eq_false_2 by exact Hdiffer. cbn [negb].
  destruct Hstate as [(Hclosed & Hnil & Hbelow)
                     |(Hopen & s & Hl & Hr & Hs & Hcur & Hbelow)].
  + rewrite Hclosed, Z.eqb_refl.
    cbn [Diff.diffLines Diff.hunkLines Diff.hunkStart Diff.hunkLocalStart
         Diff.hunkRegistryStart].
    destruct (pushed_lines (Diff.hunkLines st) i Hdiffer)
      as (new & -> & Hne & Hmarked).
    rewrite Hnil. cbn [app].
    exists hunks. cbn [Diff.diffLines]. split; [exact Hd|].
    split; [exact Hwf|]. split; [exact Hsorted|]. right.
    cbn [Diff.hunkStart Diff.hunkLocalStart Diff.hunkRegistryStart
         Diff.hunkLines].
    split; [lia|]. exists i. split; [reflexivity|]. split; [reflexivity|].
    split; [lia|]. split; [|exact Hbelow].
    split; [exact Hne|]. split; [exact Hmarked|exact Hdiffer].
  + destruct (Z.eqb_spec (Diff.hunkStart st) (-1)) as [?|_]; [congruence|].
    destruct (pushed_lines (Diff.hunkLines st) i Hdiffer)
      as (new & -> & Hne & Hmarked).
    exists hunks. cbn [Diff.diffLines]. split; [exact Hd|].
    split; [exact Hwf|]. split; [exact Hsorted|]. right.
    cbn [Diff.hunkStart Diff.hunkLocalStart Diff.hunkRegistryStart
         Diff.hunkLines].
    split; [exact Hopen|]. exists s. split; [exact Hl|]. split; [exact Hr|].
    split; [lia|]. split; [|exact Hbelow].
    destruct Hcur as (Hcur1 & Hcur2 & Hcur3). cbn [fst snd] in *.
    split; [|split; [|exact Hcur3]].
    * intros Habs. apply app_eq_nil in Habs as [_ Habs]. congruence.
    * apply Forall_app. now split.
Qed.

Lemma fold_hunked (k : nat) :
  forall (i : nat) (st : Diff.LoopState),
    hunked i st ->
    hunked (i + k)
           (fold_left (Diff.step localLines registryLines) (seq i k) st).
Proof.
induction k as [|k IH]; intros i st Hst; simpl.
- now rewrite Nat.add_0_r.
- replace (i + S k)%nat with (S i + k)%nat by lia.
  apply IH. now apply step_hunked.
Qed.

Lemma loop_hunked :
  hunked maxLines (Diff.loop localLines registryLines fileName).
Proof. apply (fold_hunked _ 0), initial_hunked. Qed.

(** The array at the [return] statement. *)
Lemma finished_hunked :
  exists hunks : list Hunks.Hunk,
    (if negb (Z.eqb (Diff.hunkStart
                       (Diff.loop localLines registryLines fileName)) (-1))
     then Diff.emitHunk (Diff.loop localLines registryLines fileName)
     else Diff.diffLines (Diff.loop localLines registryLines fileName))
    = fileHeader ++ flat_map Hunks.render hunks
    /\ Forall wellFormed hunks
    /\ StronglySorted lt (List.map fst hunks)
    /\ Forall (fun h => (fst h < maxLines)%nat) hunks.
Proof.
destruct loop_hunked as (hunks & Hd & Hwf & Hsorted & Hstate).
destruct Hstate as [(Hclosed & Hnil & Hbelow)
                   |(Hopen & s & Hl & Hr & Hs & Hcur & Hbelow)].
- rewrite Hclosed, Z.eqb_refl. cbn [negb]. now exists hunks.
- destruct (Z.eqb_spec
              (Diff.hunkStart (Diff.loop localLines registryLines fileName))
              (-1)) as [?|_]; [congruence|].
  cbn [negb].
  exists (hunks ++ [(s, Diff.hunkLines
                          (Diff.loop localLines registryLines fileName))]).
  split; [now apply emitHunk_render|].
  split; [apply Forall_app; split; [exact Hwf|now constructor]|].
  split.
  + rewrite map_app. apply StronglySorted_snoc; [exact Hsorted|].
    apply Forall_forall. intros y Hy.
    apply list_elem_of_In, in_map_iff in Hy as (h & <- & Hh).
    rewrite Forall_forall in Hbelow. apply Hbelow.
    now apply list_elem_of_In.
  + apply Forall_app. split.
    * eapply Forall_impl; [exact Hbelow|]. intros h Hh. simpl in Hh. lia.
    * constructor; [exact Hs|constructor].
Qed.

(** Once the sides have differed at some index, a hunk is open or has
    been emitted. *)
Let covered (i : nat) (st : Diff.LoopState) : Prop :=
  (2 <= length (Diff.diffLines st))%nat
  /\ (forall k, (k < i)%nat -> ~ same k ->
        (2 < length (Diff.diffLines st))%nat
        \/ Diff.hunkStart st <> (-1)%Z).

Lemma step_covered (st : Diff.LoopState) (i : nat) :
  covered i st -> covered (S i) (Diff.step localLines registryLines st i).
Proof.
intros [Hlen Hcov]. unfold Diff.step.
destruct (decide (same i)) as [Hsame|Hdiffer].
- rewrite bool_decide_eq_true_2 by exact Hsame. cbn [negb].
  destruct (Z.eqb_spec (Diff.hunkStart st) (-1)) as [Hclosed|Hopen];
    cbn [negb].
  + split; [exact Hlen|]. intros k Hk Hdiffer.
    destruct (decide (k = i)) as [->|Hne]; [contradiction|].
    apply (Hcov k); [lia|exact Hdiffer].
  + split; [|intros k _ _; left]; cbn [Diff.diffLines];
      unfold Diff.emitHunk; rewrite !length_app; cbn [length]; lia.
- rewrite bool_decide_eq_false_2 by exact Hdiffer. cbn [negb].
  destruct (Z.eqb_spec (Diff.hunkStart st) (-1)) as [Hclosed|Hopen].
  + split; [exact Hlen|]. intros k _ _. right. cbn [Diff.hunkStart]. lia.
  + split; [exact Hlen|]. intros k _ _. now right.
Qed.

Lemma fold_covered (k : nat) :
  forall (i : nat) (st : Diff.LoopState),
    covered i st ->
    covered (i + k)
            (fold_left (Diff.step localLines registryLines) (seq i k) st).
Proof.
induction k as [|k IH]; intros i st Hst; simpl.
- now rewrite Nat.add_0_r.
- replace (i + S k)%nat with (S i + k)%nat by lia.
  apply IH. now apply step_covered.
Qed.

Lemma finished_without_hunks :
  (if negb (Z.eqb (Diff.hunkStart
                     (Diff.loop localLines registryLines fileName)) (-1))
   then Diff.emitHunk (Diff.loop localLines registryLines fileName)
   else Diff.diffLines (Diff.loop localLines registryLines fileName))
  = fileHeader
  <-> forall i, same i.
Proof.
split.
- intros Hlines i.
  destruct (decide (i < maxLines)%nat) as [Hi|Hi];
    [|apply same_beyond; lia].
  destruct (decide (same i)) as [Hsame|Hdiffer]; [exact Hsame|].
  exfalso.
  assert (Hcov : covered maxLines
                   (Diff.loop localLines registryLines fileName)).
  { apply (fold_covered _ 0). split; [simpl; lia|]. intros k Hk. lia. }
  destruct Hcov as [Hlen Hcov]. apply (f_equal length) in Hlines.
  destruct (Z.eqb_spec
              (Diff.hunkStart (Diff.loop localLines registryLines fileName))
              (-1)) as [Hclosed|Hopen]; cbn [negb] in Hlines.
  + destruct (Hcov i Hi Hdiffer) as [Hgrown|Hopen]; [|congruence].
    simpl in Hlines. lia.
  + unfold Diff.emitHunk in Hlines. rewrite !length_app in Hlines.
    simpl in Hlines. lia.
- intros Hsame. unfold Diff.loop.
  rewrite fold_all_same by (exact Hsame || reflexivity).
  reflexivity.
Qed.

End DiffHunks.

Lemma marked_counts (lines : list jsstring) :
  Forall Hunks.marked lines ->
  (Diff.countStartingWith (js "-") lines
   + Diff.countStartingWith (js "+") lines)%Z
  = Z.of_nat (length lines).
Proof.
unfold Diff.countStartingWith.
induction 1 as [|line lines [text [-> | ->]] _ IH]; [reflexivity| |];
  cbn [List.filter JS.startsWith js list_ascii_of_string List.map
       N_of_ascii N.eqb Pos.eqb length] in *; simpl length in *; lia.
Qed.

(** X1. The diff consists of the two file header lines alone exactly when the
    two texts agree at every line index, a line missing from one text
    counting as an empty line; in particular a text compared with itself
    gives no hunk. *)
Theorem diff_without_hunks (localContent registryContent fileName : jsstring) :
  (Diff.generateDiffLines localContent registryContent fileName
   = [js "--- a/" ++ fileName; js "+++ b/" ++ fileName]
   <-> forall i : nat,
         default [] (JS.split JS.LF localContent !! i)
         = default [] (JS.split JS.LF registryContent !! i))
  /\ Diff.generateDiff localContent localContent fileName
     = js "--- a/" ++ fileName ++ [JS.LF] ++ js "+++ b/" ++ fileName.
Proof.
split; [apply finished_without_hunks|].
unfold Diff.generateDiff, Diff.generateDiffLines.
rewrite (proj2 (finished_without_hunks _ _ fileName)) by reflexivity.
cbn [JS.join]. now rewrite <- !app_assoc.
Qed.

(** X2. The lines after the file header are a sequence of hunks, in
    increasing order of the index at which they opened.  Each hunk is its
    header followed by at least one line, every one of them marked [-] or
    [+]; the two counts of the header add up to the number of these lines;
    the texts differ at the index the header names. *)
Theorem diff_is_hunks (localContent registryContent fileName : jsstring) :
  exists hunks : list Hunks.Hunk,
    Diff.generateDiffLines localContent registryContent fileName
    = [js "--- a/" ++ fileName; js "+++ b/" ++ fileName]
        ++ flat_map Hunks.render hunks
    /\ Forall
         (fun h =>
            snd h <> []
            /\ Forall Hunks.marked (snd h)
            /\ (Diff.countStartingWith (js "-") (snd h)
                + Diff.countStartingWith (js "+") (snd h))%Z
               = Z.of_nat (length (snd h))
            /\ default [] (JS.split JS.LF localContent !! fst h)
               <> default [] (JS.split JS.LF registryContent !! fst h))
         hunks
    /\ StronglySorted lt (List.map fst hunks).
Proof.
destruct (finished_hunked (JS.split JS.LF localContent)
            (JS.split JS.LF registryContent) fileName)
  as (hunks & Hlines & Hwf & Hsorted & _).
exists hunks. split; [exact Hlines|]. split; [|exact Hsorted].
eapply Forall_impl; [exact Hwf|].
intros h (Hne & Hmarked & Hdiffer).
split; [exact Hne|]. split; [exact Hmarked|].
split; [now apply marked_counts|exact Hdiffer].
Qed.

(** X3. In the diff view no line of a diff falls to the default colour: each
    line after the file header is shown as a hunk header, a removal or an
    addition (the file name being free of line breaks). *)
Theorem diff_view_colours (localContent registryContent fileName : jsstring) :
  JS.LF ∉ fileName ->
  Forall (fun c => c <> DiffView.gray)
         (DiffView.colours
            (Diff.generateDiff localContent registryContent fileName)).
Proof.
intros Hname. unfold DiffView.colours.
rewrite generateDiff_lines by exact Hname.
pose proof (generateDiffLines_shaped localContent registryContent fileName)
  as Hall.
cbv zeta in Hall. apply (Forall_drop _ 2) in Hall.
apply Forall_forall. intros c Hc.
apply list_elem_of_In, in_map_iff in Hc as (line & <- & Hline).
rewrite Forall_forall in Hall.
destruct (Hall line (proj2 (list_elem_of_In _ _) Hline))
  as [[text [-> | ->]]|(i & c & d & -> & _)]; discriminate.
Qed.

Lemma diff_view_colours_witness :
  (JS.LF ∉ js "f")
  /\ Forall (fun c => c <> DiffView.gray)
         (DiffView.colours
            (Diff.generateDiff (js "a") (js "b") (js "f"))).
Proof.
assert (Hname : JS.LF ∉ js "f").
{ intros H. apply list_elem_of_In in H. vm_compute in H.
  intuition discriminate. }
split; [exact Hname|].
apply (diff_view_colours (js "a") (js "b") (js "f") Hname).
Defined.

Lemma diff_round_trip_text_witness :
  (JS.LF ∉ js "f")
  /\ Patch.applyText
       (Diff.generateDiff (js "a" ++ [JS.LF] ++ js "b")
          (js "x" ++ [JS.LF] ++ js "b" ++ [JS.LF] ++ js "c") (js "f"))
       (js "a" ++ [JS.LF] ++ js "b")
     = Some (js "x" ++ [JS.LF] ++ js "b" ++ [JS.LF] ++ js "c").
Proof.
assert (Hname : JS.LF ∉ js "f").
{ intros H. apply list_elem_of_In in H. vm_compute in H.
  intuition discriminate. }
split; [exact Hname|].
apply (diff_round_trip_text _ _ _ Hname). split; intros i Hi.
- destruct i as [|[|[|i]]]; simpl in Hi; try lia; discriminate.
- destruct i as [|[|[|i]]]; simpl in Hi; try lia; discriminate.
Defined.

(** ** Registry Client *)

(** X5. The names that [fetchRegistryComponents] returns are names of the
    response, none of them [index], [theme] or a name that contains
    [-demo].  So the theme category of a breakdown over them is empty, and
    the local name [theme] that the scan adds for the global style file
    makes no difference to which names are verified. *)
Theorem registry_names_exclude_theme
    (fetchRegistry : JsError + App.RegistryResponse)
    (registry : list jsstring) :
  App.fetchRegistryComponents fetchRegistry = inr registry ->
  (forall n, n ∈ registry ->
     JS.includes n (js "-demo") = false /\ n <> js "index" /\ n <> js "theme")
  /\ Breakdown.theme registry = []
  /\ (forall existing,
        Reconciler.potentialMismatches registry (existing ++ [js "theme"])
        = Reconciler.potentialMismatches registry existing).
Proof.
intros Hfetch.
assert (Hnames : forall n, n ∈ registry ->
          JS.includes n (js "-demo") = false
          /\ n <> js "index" /\ n <> js "theme").
{ unfold App.fetchRegistryComponents in Hfetch.
  destruct fetchRegistry as [e|response]; [discriminate|].
  destruct (negb (App.ok response)); [discriminate|].
  destruct (App.items response) as [registryItems|]; [|discriminate].
  injection Hfetch as <-. intros n Hn.
  apply list_elem_of_In, filter_In in Hn as [_ Hn].
  apply andb_prop in Hn as [Hn Htheme]. apply andb_prop in Hn as [Hdemo Hindex].
  apply negb_true_iff in Hdemo, Hindex, Htheme.
  apply bool_decide_eq_false in Hindex, Htheme. tauto. }
split; [exact Hnames|]. split.
- unfold Breakdown.theme. clear Hfetch. revert Hnames.
  induction registry as [|n l IH]; intros Hnames; [reflexivity|].
  simpl. destruct (Hnames n) as (_ & _ & Hn); [left|].
  unfold Breakdown.isTheme at 1. rewrite bool_decide_eq_false_2 by exact Hn.
  apply IH. intros m Hm. apply Hnames. now right.
- intros existing. unfold Reconciler.potentialMismatches.
  apply filter_ext_in. intros n Hn. f_equal.
  unfold JS.arrayIncludes. apply bool_decide_ext.
  rewrite elem_of_app, list_elem_of_singleton.
  destruct (Hnames n) as (_ & _ & Hnt); [now apply list_elem_of_In|].
  tauto.
Qed.

Lemma registry_names_exclude_theme_witness :
  App.fetchRegistryComponents Sample.cardRegistry = inr [js "card"]
  /\ Breakdown.theme [js "card"] = [].
Proof.
split; [reflexivity|].
apply (registry_names_exclude_theme Sample.cardRegistry [js "card"]).
reflexivity.
Defined.

(** ** Local Inventory Scanner *)

Section ScannerNames.

Variable readdirSync : jsstring -> JsError + list jsstring.
Variable statSync : jsstring -> JsError + Scanner.Stats.
Variable join : jsstring -> jsstring -> jsstring.

Lemma candidate_not_index (exts : list jsstring) (file : jsstring) :
  js "index" ∉ ScanNames.candidate exts file.
Proof.
unfold ScanNames.candidate.
destruct (List.find _ exts) as [ext|]; [|apply not_elem_of_nil].
destruct (Scanner.truthy ext); [|apply not_elem_of_nil].
destruct (bool_decide_reflect (JS.replace file ext [] = js "index"))
  as [Heq|Hne]; simpl; [apply not_elem_of_nil|].
rewrite list_elem_of_singleton. congruence.
Qed.

Lemma listingNames_not_index (dirPath : jsstring) (exts files : list jsstring) :
  js "index" ∉ ScanNames.listingNames statSync join dirPath exts files.
Proof.
induction files as [|file files IH]; simpl; [apply not_elem_of_nil|].
destruct (statSync (join dirPath file)) as [e|stat];
  [apply not_elem_of_nil|].
rewrite elem_of_app. intros [H|H]; [|contradiction].
destruct (Scanner.isFile stat); [|now apply not_elem_of_nil in H].
now apply candidate_not_index in H.
Qed.

(** An entry that [statSync] rejects ends the scan of its listing. *)
Lemma listingNames_cut (dirPath : jsstring) (exts before after : list jsstring)
    (file : jsstring) (e : JsError) :
  statSync (join dirPath file) = inl e ->
  ScanNames.listingNames statSync join dirPath exts (before ++ file :: after)
  = ScanNames.listingNames statSync join dirPath exts before.
Proof.
intros Hfile. induction before as [|f before IH]; simpl.
- now rewrite Hfile.
- destruct (statSync (join dirPath f)); [reflexivity|]. now rewrite IH.
Qed.

End ScannerNames.

(** X6. [getExistingComponents] never returns the name [index]. *)
Theorem scan_never_yields_index
    (readdirSync : jsstring -> JsError + list jsstring)
    (statSync : jsstring -> JsError + Scanner.Stats)
    (join : jsstring -> jsstring -> jsstring) :
  exists names,
    Scanner.getExistingComponents readdirSync statSync join = inr names
    /\ js "index" ∉ names.
Proof.
eexists. split; [apply getExistingComponents_names|].
rewrite elem_of_app. intros [H|H].
- apply list_elem_of_In, in_concat in H as (l & Hl & H).
  apply in_map_iff in Hl as (d & <- & _).
  apply list_elem_of_In in H. revert H.
  unfold ScanNames.directoryNames.
  destruct (readdirSync (Scanner.path d)); [apply not_elem_of_nil|].
  apply listingNames_not_index.
- revert H. unfold ScanNames.themeName.
  destruct (statSync (js "./src/globals.css")) as [|stat];
    [apply not_elem_of_nil|].
  destruct (Scanner.isFile stat); [|apply not_elem_of_nil].
  rewrite list_elem_of_singleton. discriminate.
Qed.

(** X7. When [statSync] throws on an entry of a directory listing, the scan
    of that directory ends there without an exception: the names pushed for
    the entries before it stay, the entries after it are not looked at. *)
Theorem scan_directory_cut_short
    (readdirSync : jsstring -> JsError + list jsstring)
    (statSync : jsstring -> JsError + Scanner.Stats)
    (join : jsstring -> jsstring -> jsstring)
    (d : Scanner.Directory) (before after : list jsstring)
    (file : jsstring) (e : JsError) (components : list jsstring) :
  readdirSync (Scanner.path d) = inr (before ++ file :: after) ->
  statSync (join (Scanner.path d) file) = inl e ->
  Scanner.scanDirectory readdirSync statSync join d components
  = (inr tt,
     components
       ++ ScanNames.listingNames statSync join (Scanner.path d)
            (Scanner.extensions d) before).
Proof.
intros Hlist Hfile. rewrite scanDirectory_result. f_equal. f_equal.
unfold ScanNames.directoryNames. rewrite Hlist.
now apply listingNames_cut with (e := e).
Qed.

Lemma scan_directory_cut_short_witness :
  Scenario.danglingListing (js "./src/components")
  = inr ([js "button.tsx"] ++ js "dangling.tsx" :: [js "card.tsx"])
  /\ Scenario.danglingStat
       (Sample.joinPath (js "./src/components") (js "dangling.tsx"))
     = inl Sample.enoent
  /\ Scanner.scanDirectory Scenario.danglingListing Scenario.danglingStat
       Sample.joinPath
       {| Scanner.path := js "./src/components";
          Scanner.extensions := [js ".tsx"; js ".json"] |} []
     = (inr tt, [js "button"]).
Proof.
split; [reflexivity|]. split; [reflexivity|].
apply (scan_directory_cut_short Scenario.danglingListing
         Scenario.danglingStat Sample.joinPath
         {| Scanner.path := js "./src/components";
            Scanner.extensions := [js ".tsx"; js ".json"] |}
         [js "button.tsx"] [js "card.tsx"] (js "dangling.tsx")
         Sample.enoent []); reflexivity.
Defined.

(** ** Name Reconciler: what is verified, and what comes of it *)

Section ReconcilerOutcome.

Variable installer : Installer.

Let report := Some Proc.addProgressMessage.

(** The verdict on a name when the installer answers by the command
    alone. *)
Let judged (oracle : jsstring -> JsError + jsstring) (n : jsstring) : bool :=
  match oracle (Verifier.command n) with
  | inl _ => true
  | inr output => Verifier.interpret output
  end.

Lemma verifyLoop_by_command (oracle : jsstring -> JsError + jsstring)
    (total : nat) (pending : list jsstring) :
  (forall history command, installer history command = oracle command) ->
  forall i verifiedMissing alreadyInstalled w,
  exists w',
    Reconciler.verifyLoop installer report total i pending
                          verifiedMissing alreadyInstalled w
    = (inr (verifiedMissing ++ List.filter (judged oracle) pending,
            alreadyInstalled
              ++ List.filter (fun n => negb (judged oracle n)) pending),
       w')
    /\ spawned w' = spawned w ++ List.map Verifier.command pending.
Proof.
intros Horacle.
induction pending as [|component pending IH];
  intros i verifiedMissing alreadyInstalled w.
- exists w. simpl. now rewrite !app_nil_r.
- cbn [Reconciler.verifyLoop].
  rewrite (bind_returned _ _ _ _ _ (progress_result _ w)).
  match goal with
  | |- context [Eff.bind (Verifier.verifyComponentMissing _ _) _ ?w0] =>
      set (w1 := w0)
  end.
  assert (Hrun : exists w2,
            Verifier.verifyComponentMissing installer component w1
            = (inr (judged oracle component), w2)
            /\ spawned w2 = spawned w ++ [Verifier.command component]).
  { unfold judged.
    destruct (oracle (Verifier.command component)) as [e|output] eqn:E.
    - eexists. split; [apply (verify_failure installer component e w1);
                        rewrite Horacle; exact E|].
      reflexivity.
    - eexists. split; [apply (verify_success installer component output w1);
                        rewrite Horacle; exact E|].
      reflexivity. }
  destruct Hrun as (w2 & Hrun & Hsp).
  rewrite (bind_returned _ _ _ _ _ Hrun).
  cbn [List.filter]. destruct (judged oracle component); cbn [negb].
  + destruct (IH (S i) (verifiedMissing ++ [component]) alreadyInstalled w2)
      as (w' & Hloop & Hsp').
    exists w'. rewrite Hloop, Hsp', Hsp, <- !app_assoc. now split.
  + destruct (IH (S i) verifiedMissing (alreadyInstalled ++ [component]) w2)
      as (w' & Hloop & Hsp').
    exists w'. rewrite Hloop, Hsp', Hsp, <- !app_assoc. now split.
Qed.

End ReconcilerOutcome.

(** X8. When every registry name is a local name verbatim,
    [getVerifiedMissingComponents] returns the empty list without starting
    a subprocess or writing to the console. *)
Theorem reconcile_all_exact
    (installer : Installer) (registry existing : list jsstring) (w : World) :
  Forall (fun n => n ∈ existing) registry ->
  exists w',
    Reconciler.getVerifiedMissingComponents installer registry existing
      (Some Proc.addProgressMessage) w = (inr [], w')
    /\ spawned w' = spawned w /\ console w' = console w.
Proof.
intros Hall.
assert (Hnone : Reconciler.potentialMismatches registry existing = []).
{ unfold Reconciler.potentialMismatches.
  induction Hall as [|n l Hn _ IH]; [reflexivity|]. simpl.
  unfold JS.arrayIncludes at 1. now rewrite bool_decide_eq_true_2. }
unfold Reconciler.getVerifiedMissingComponents.
rewrite Hnone. cbn [length Nat.eqb].
eexists. split; [reflexivity|]. now split.
Qed.

Lemma reconcile_all_exact_witness :
  exists w',
    Reconciler.getVerifiedMissingComponents Sample.failing
      [js "button"] [js "button"; js "card"]
      (Some Proc.addProgressMessage) emptyWorld = (inr [], w')
    /\ spawned w' = spawned emptyWorld /\ console w' = console emptyWorld.
Proof.
apply (reconcile_all_exact Sample.failing [js "button"]
         [js "button"; js "card"] emptyWorld).
repeat constructor.
Defined.

(** X9. When the installer's answer depends on the command alone, the
    verified-missing names are the registry names without a verbatim local
    match whose probe fails or whose output does not carry the two marks of
    skipped identical files, in registry order; each such name is probed
    once, names with a verbatim local match are not probed. *)
Theorem reconcile_by_command
    (installer : Installer) (oracle : jsstring -> JsError + jsstring)
    (registry existing : list jsstring) (w : World) :
  (forall history command, installer history command = oracle command) ->
  exists w',
    Reconciler.getVerifiedMissingComponents installer registry existing
      (Some Proc.addProgressMessage) w
    = (inr (List.filter
              (fun n =>
                 match oracle (Verifier.command n) with
                 | inl _ => true
                 | inr output =>
                     negb (JS.includes output (js "Skipped")
                           && JS.includes output (js "files might be identical"))
                 end)
              (Reconciler.potentialMismatches registry existing)),
       w')
    /\ spawned w'
       = spawned w
         ++ List.map Verifier.command
              (Reconciler.potentialMismatches registry existing).
Proof.
intros Horacle.
assert (Hfilter : forall l,
  List.filter
    (fun n =>
       match oracle (Verifier.command n) with
       | inl _ => true
       | inr output =>
           negb (JS.includes output (js "Skipped")
                 && JS.includes output (js "files might be identical"))
       end) l
  = List.filter
      (fun n =>
         match oracle (Verifier.command n) with
         | inl _ => true
         | inr output => Verifier.interpret output
         end) l).
{ intros l. apply filter_ext. intros n.
  destruct (oracle (Verifier.command n)); [reflexivity|].
  now rewrite interpret_mentions. }
rewrite Hfilter.
unfold Reconciler.getVerifiedMissingComponents.
rewrite (bind_returned _ _ _ _ _ (progress_result _ w)).
rewrite (bind_returned _ _ _ _ _ (progress_result _ _)).
destruct (Reconciler.potentialMismatches registry existing)
  as [|c pending] eqn:E.
- simpl. rewrite (bind_returned _ _ _ _ _ (progress_result _ _)).
  eexists. split; [reflexivity|]. simpl. now rewrite app_nil_r.
- cbn [length Nat.eqb].
  rewrite (bind_returned _ _ _ _ _ (progress_result _ _)).
  match goal with
  | |- context [Eff.bind (Reconciler.verifyLoop _ _ ?t ?i ?p ?v ?a) _ ?w0] =>
      destruct (verifyLoop_by_command installer oracle t p Horacle i v a w0)
        as (w1 & Hloop & Hsp)
  end.
  rewrite (bind_returned _ _ _ _ _ Hloop).
  cbn [fst snd app]. simpl in Hsp.
  match goal with
  | |- context [Eff.bind (if ?b then ?m else Eff.ret tt) _ w1] =>
      assert (Hlog : exists w2,
                (if b then m else Eff.ret tt) w1 = (inr tt, w2)
                /\ spawned w2 = spawned w1)
  end.
  { destruct (0 <? _)%nat; [|now exists w1].
    rewrite (bind_returned _ _ _ _ _ (consoleLog_result _ w1)).
    match goal with
    | |- context [Eff.bind (Eff.forEach
                             (fun comp => Proc.consoleLog (@?f comp)) ?l)
                          _ ?w0] =>
        destruct (forEach_consoleLog f l w0) as (w2 & H2 & Hs2 & _)
    end.
    rewrite (bind_returned _ _ _ _ _ H2).
    eexists. split; [reflexivity|]. exact Hs2. }
  destruct Hlog as (w2 & Hlog & Hs2).
  rewrite (bind_returned _ _ _ _ _ Hlog).
  rewrite (bind_returned _ _ _ _ _ (progress_result _ _)).
  eexists. split; [reflexivity|]. simpl. congruence.
Qed.

Lemma reconcile_by_command_witness :
  exists w',
    Reconciler.getVerifiedMissingComponents Sample.failing
      [js "button"; js "card"] [js "button"]
      (Some Proc.addProgressMessage) emptyWorld
    = (inr [js "card"], w')
    /\ spawned w' = [Verifier.command (js "card")].
Proof.
apply (reconcile_by_command Sample.failing
         (fun _ => inl (ErrorObject (js "Command failed")))
         [js "button"; js "card"] [js "button"] emptyWorld).
reflexivity.
Defined.

(** ** Installer Driver: outcomes *)

(** X10. [updateComponent] always returns: it starts exactly one subprocess;
    its result is [failed] exactly when that run fails, and then one error
    line is written to the console; when the run returns, the console is
    left alone and the result is [skipped] if the output carries the two
    marks of skipped identical files and [updated] otherwise, whether or
    not the output mentions [Updated] or [Installing dependencies]. *)
Theorem updateComponent_outcomes
    (installer : Installer) (componentName : jsstring) (force : bool)
    (w : World) :
  exists r w',
    Driver.updateComponent installer componentName force w = (inr r, w')
    /\ spawned w' = spawned w ++ [Driver.command componentName force]
    /\ progressMessages w' = progressMessages w /\ app w' = app w
    /\ match installer (spawned w) (Driver.command componentName force) with
       | inl e =>
           r = failed
           /\ console w' = console w ++ [Driver.failure componentName e]
       | inr output =>
           console w' = console w
           /\ r = (if JS.includes output (js "Skipped")
                      && JS.includes output (js "files might be identical")
                   then skipped else updated)
       end.
Proof.
unfold Driver.updateComponent, Eff.tryCatch, Eff.bind, Proc.execSync.
destruct (installer (spawned w) (Driver.command componentName force))
  as [e|output].
- eexists _, _. split; [reflexivity|]. repeat split.
- eexists _, _. split; [reflexivity|]. repeat split.
  unfold Driver.classify.
  destruct (JS.includes output (js "Skipped")
            && JS.includes output (js "files might be identical"));
    [reflexivity|].
  now destruct (_ || _).
Qed.

(** ** Batch installation *)

Section BatchFacts.

Variable installer : Installer.

Lemma updateComponent_returns (componentName : jsstring) (force : bool)
    (w : World) :
  exists r w',
    Driver.updateComponent installer componentName force w = (inr r, w')
    /\ spawned w' = spawned w ++ [Driver.command componentName force]
    /\ app w' = app w.
Proof.
unfold Driver.updateComponent, Eff.tryCatch, Eff.bind, Proc.execSync.
destruct (installer (spawned w) (Driver.command componentName force));
  eexists _, _; (split; [reflexivity|]); now split.
Qed.

(** From a state in which [done] components have been processed, the
    effect runs through the remaining ones and then reports. *)
Lemma run_remaining (remaining : list jsstring) :
  forall (done : list jsstring) (entries : list (jsstring * UpdateResult))
         (fuel : nat) (w : World),
    List.map fst entries = done ->
    (length remaining < fuel)%nat ->
    exists completed w',
      Batch.run installer (done ++ remaining) fuel
                (Batch.mkState (length done) entries) w
      = (inr (Some completed), w')
      /\ List.map fst completed = done ++ remaining
      /\ spawned w'
         = spawned w ++ List.map (fun c => Driver.command c true) remaining
      /\ app w' = app w.
Proof.
induction remaining as [|component remaining IH];
  intros done entries fuel w Hdone Hfuel.
- destruct fuel as [|fuel]; [simpl in Hfuel; lia|].
  rewrite app_nil_r. cbn [Batch.run]. unfold Batch.effect.
  cbn [Batch.currentIndex Batch.results].
  rewrite (proj2 (Nat.ltb_ge _ _)) by lia.
  assert (Hlen : length entries = length done)
    by (rewrite <- Hdone; now rewrite length_map).
  rewrite Hlen, Nat.eqb_refl.
  eexists _, _. split; [reflexivity|]. cbn [snd fst].
  split; [exact Hdone|]. split; [simpl; now rewrite app_nil_r|reflexivity].
- destruct fuel as [|fuel]; [simpl in Hfuel; lia|].
  destruct (updateComponent_returns component true w)
    as (r & w1 & Hrun & Hsp & Happ).
  assert (Heff :
    Batch.effect installer (done ++ component :: remaining)
                 (Batch.mkState (length done) entries) w
    = (inr (Batch.mkState (S (length done)) (entries ++ [(component, r)]),
            None), w1)).
  { unfold Batch.effect. cbn [Batch.currentIndex Batch.results].
    rewrite (proj2 (Nat.ltb_lt _ _)) by (rewrite length_app; simpl; lia).
    rewrite lookup_app_r, Nat.sub_diag by lia.
    cbn [lookup list_lookup default].
    now rewrite (bind_returned _ _ _ _ _ Hrun). }
  cbn [Batch.run]. rewrite (bind_returned _ _ _ _ _ Heff).
  cbn [snd fst Batch.currentIndex].
  rewrite (proj2 (Nat.eqb_neq _ _)) by lia.
  destruct (IH (done ++ [component]) (entries ++ [(component, r)]) fuel w1)
    as (completed & w' & Hloop & Hnames & Hsp' & Happ').
  { rewrite map_app, Hdone. reflexivity. }
  { simpl in Hfuel. lia. }
  rewrite length_app, Nat.add_1_r, <- app_assoc in Hloop.
  exists completed, w'. split; [exact Hloop|].
  split; [now rewrite <- app_assoc in Hnames|].
  split; [|congruence].
  rewrite Hsp', Hsp. simpl. now rewrite <- app_assoc.
Qed.

End BatchFacts.

(** X11. The batch installation processes every component of its list, in
    order, with one installer run each, always with the overwrite
    directive, and then reports one outcome per component in the same
    order; a run that fails does not keep the following components from
    being processed.  (The effect has to run once per component and once
    more to report.) *)
Theorem batch_processes_all
    (installer : Installer) (components : list jsstring) (fuel : nat)
    (w : World) :
  (length components < fuel)%nat ->
  exists completed w',
    Batch.run installer components fuel Batch.initial w
    = (inr (Some completed), w')
    /\ List.map fst completed = components
    /\ spawned w'
       = spawned w ++ List.map (fun c => Driver.command c true) components
    /\ app w' = app w.
Proof.
intros Hfuel.
apply (run_remaining installer components [] [] fuel w eq_refl Hfuel).
Qed.

Lemma batch_processes_all_witness :
  exists completed w',
    Batch.run Sample.failing [js "button"; js "card"] 3 Batch.initial
              emptyWorld
    = (inr (Some completed), w')
    /\ List.map fst completed = [js "button"; js "card"]
    /\ spawned w'
       = spawned emptyWorld
         ++ List.map (fun c => Driver.command c true) [js "button"; js "card"]
    /\ app w' = app emptyWorld.
Proof.
apply (batch_processes_all Sample.failing [js "button"; js "card"] 3
         emptyWorld).
simpl. lia.
Defined.

(** ** Final tally *)

Lemma withResult_lengths (results : list (jsstring * UpdateResult)) :
  (length (Results.withResult updated results)
   + length (Results.withResult skipped results)
   + length (Results.withResult failed results))%nat
  = length results.
Proof.
unfold Results.withResult.
induction results as [|[name []] results IH]; simpl; lia.
Qed.

(** X12. The three counts of the final view add up to the total it shows
    (a count whose line is left out being zero), and the closing line is
    the one of a full success exactly when no outcome is [failed], in which
    case no line of failures is shown. *)
Theorem tally_adds_up (results : list (jsstring * UpdateResult)) :
  let t := Results.tally results in
  (default 0%nat (Results.updatedLine t)
   + default 0%nat (Results.skippedLine t)
   + default 0%nat (fst <$> Results.failedLine t))%nat
  = Results.totalProcessed t
  /\ (Results.allSynced t = true
      <-> Forall (fun entry => snd entry <> failed) results)
  /\ (Results.allSynced t = true <-> Results.failedLine t = None).
Proof.
intros t. subst t. unfold Results.tally.
cbn [Results.updatedLine Results.skippedLine Results.failedLine
     Results.totalProcessed Results.allSynced].
assert (Hpos : forall n, default 0%nat (Results.positive n) = n).
{ intros [|n]; reflexivity. }
assert (Hfailed :
  length (Results.withResult failed results) = 0%nat
  <-> Forall (fun entry => snd entry <> failed) results).
{ unfold Results.withResult.
  induction results as [|[name r] results IH]; simpl.
  - split; [constructor|reflexivity].
  - destruct (bool_decide_reflect (r = failed)) as [->|Hr]; simpl.
    + split; [discriminate|]. intros H. apply Forall_cons in H as [H _].
      now destruct H.
    + rewrite IH. split; [now constructor|].
      intros H. now apply Forall_cons in H as [_ H]. }
split; [|split].
- rewrite !Hpos.
  replace (default 0%nat
             (fst <$> (if (0 <? length (Results.withResult failed results))%nat
                       then Some (length (Results.withResult failed results),
                                  JS.join (js ", ")
                                    (List.map fst
                                       (Results.withResult failed results)))
                       else None)))
    with (length (Results.withResult failed results))
    by (now destruct (length (Results.withResult failed results))).
  apply withResult_lengths.
- rewrite Nat.eqb_eq. exact Hfailed.
- rewrite Nat.eqb_eq.
  destruct (length (Results.withResult failed results)); simpl;
    split; congruence.
Qed.

(** ** Local file lookup *)

Section LocalPathFacts.

Variable statSync : jsstring -> JsError + Scanner.Stats.

Let regular (p : jsstring) : Prop :=
  exists stat, statSync p = inr stat /\ Scanner.isFile stat = true.

Lemma firstFile_regular (alts : list jsstring) (q : jsstring) :
  LocalPath.firstFile statSync alts = Some q -> q ∈ alts /\ regular q.
Proof.
induction alts as [|alt alts IH]; simpl; [discriminate|].
destruct (statSync alt) as [e|stat] eqn:E.
- intros H. destruct (IH H). split; [now right|assumption].
- destruct (Scanner.isFile stat) eqn:F.
  + intros [= <-]. split; [left|now exists stat].
  + intros H. destruct (IH H). split; [now right|assumption].
Qed.

Lemma split_app_segments (sep : N) (a b : jsstring) :
  JS.split sep (a ++ sep :: b) = JS.split sep a ++ JS.split sep b.
Proof.
induction a as [|c a IH]; simpl.
- now rewrite N.eqb_refl.
- destruct (N.eqb c sep); [now rewrite IH|].
  rewrite IH. destruct (split_cons_shape sep a) as (l & ls & ->).
  reflexivity.
Qed.

Lemma secondToLast_snoc2 (parts : list jsstring) (a b : jsstring) :
  LocalPath.secondToLast (parts ++ [a; b]) = Some a.
Proof.
unfold LocalPath.secondToLast. rewrite length_app. cbn [length].
rewrite (proj2 (Nat.ltb_ge _ _)) by lia.
rewrite lookup_app_r by lia.
replace (length parts + 2 - 2 - length parts)%nat with 0%nat by lia.
reflexivity.
Qed.

Lemma mapPrefix_mapping (registryPrefix localPrefix rest : jsstring) :
  (registryPrefix, localPrefix) ∈ LocalPath.pathMappings ->
  LocalPath.mapPrefix LocalPath.pathMappings (registryPrefix ++ rest)
  = localPrefix ++ rest.
Proof.
assert (Hreplace : forall p l, JS.replace (p ++ rest) p l = l ++ rest).
{ intros p l.
  transitivity (if JS.startsWith (p ++ rest) p
                then l ++ drop (length p) (p ++ rest) else []).
  - destruct (p ++ rest) eqn:E; cbn [JS.replace]; [|rewrite <- E at 1];
      [now destruct (JS.startsWith [] p)|].
    rewrite <- E. now rewrite startsWith_app.
  - now rewrite startsWith_app, drop_app_length. }
unfold LocalPath.pathMappings.
rewrite !elem_of_cons, elem_of_nil.
intros [[= -> ->]|[[= -> ->]|[[= -> ->]|[[= -> ->]|[]]]]];
  cbn [LocalPath.mapPrefix];
  repeat match goal with
  | |- context [JS.startsWith (?p ++ rest) ?p] =>
      rewrite (startsWith_app p rest)
  | |- context [JS.startsWith (?p ++ rest) ?q] =>
      replace (JS.startsWith (p ++ rest) q) with false by reflexivity
  end; apply Hreplace.
Qed.

End LocalPathFacts.

(** X13. A path that [getLocalFilePath] returns names a regular file, and it
    is the mapped path itself or one of its five alternatives. *)
Theorem local_path_is_regular_file
    (statSync : jsstring -> JsError + Scanner.Stats)
    (componentName registryPath found : jsstring) :
  LocalPath.getLocalFilePath statSync componentName registryPath = Some found ->
  (exists stat, statSync found = inr stat /\ Scanner.isFile stat = true)
  /\ let localPath :=
       LocalPath.flattenIndex registryPath
         (LocalPath.mapPrefix LocalPath.pathMappings registryPath) in
     found = localPath
     \/ found ∈ LocalPath.alternatives componentName localPath.
Proof.
unfold LocalPath.getLocalFilePath.
destruct (statSync (LocalPath.flattenIndex _ _)) as [e|stat] eqn:E.
- intros H. apply firstFile_regular in H as [Hin H]. split; [exact H|].
  now right.
- destruct (Scanner.isFile stat) eqn:F; [|discriminate].
  intros [= <-]. split; [now exists stat|now left].
Qed.

Lemma local_path_is_regular_file_witness :
  LocalPath.getLocalFilePath Sample.statTwoButtons (js "button")
    (js "registry/components/button.ts")
  = Some (js "src/components/button.tsx")
  /\ exists stat,
       Sample.statTwoButtons (js "src/components/button.tsx") = inr stat
       /\ Scanner.isFile stat = true.
Proof.
split; [reflexivity|].
apply (local_path_is_regular_file Sample.statTwoButtons (js "button")
         (js "registry/components/button.ts")
         (js "src/components/button.tsx")).
reflexivity.
Defined.

(** X14. A registry path under one of the four mapped directories that does
    not mention [index.tsx] is looked up with the directory replaced by its
    local counterpart, the rest of the path unchanged; when that is a
    regular file it is the result. *)
Theorem local_path_replaces_prefix
    (statSync : jsstring -> JsError + Scanner.Stats)
    (componentName registryPrefix localPrefix rest : jsstring)
    (stat : Scanner.Stats) :
  (registryPrefix, localPrefix) ∈ LocalPath.pathMappings ->
  JS.includes (registryPrefix ++ rest) (js "index.tsx") = false ->
  statSync (localPrefix ++ rest) = inr stat ->
  Scanner.isFile stat = true ->
  LocalPath.getLocalFilePath statSync componentName (registryPrefix ++ rest)
  = Some (localPrefix ++ rest).
Proof.
intros Hin Hindex Hstat Hfile. unfold LocalPath.getLocalFilePath.
rewrite (mapPrefix_mapping _ _ _ Hin). unfold LocalPath.flattenIndex.
now rewrite Hindex, Hstat, Hfile.
Qed.

Lemma local_path_replaces_prefix_witness :
  LocalPath.getLocalFilePath Sample.statTwoButtons (js "button")
    (js "registry/components" ++ js "/button.json")
  = Some (js "src/components" ++ js "/button.json").
Proof.
apply (local_path_replaces_prefix Sample.statTwoButtons (js "button")
         (js "registry/components") (js "src/components")
         (js "/button.json") Sample.regularFile).
- apply list_elem_of_In. simpl. now left.
- reflexivity.
- reflexivity.
- reflexivity.
Defined.

(** X15. An [index.tsx] inside a named directory, anywhere under one of the
    four mapped directories, is looked up as the flat file
    [src/components/<directory>.tsx], whichever of the four it is under;
    when that is a regular file it is the result. *)
Theorem local_path_flattens_index
    (statSync : jsstring -> JsError + Scanner.Stats)
    (componentName registryPrefix localPrefix middle dir : jsstring)
    (stat : Scanner.Stats) :
  (registryPrefix, localPrefix) ∈ LocalPath.pathMappings ->
  47 ∉ dir -> dir <> [] -> dir <> js "components" ->
  statSync (js "src/components/" ++ dir ++ js ".tsx") = inr stat ->
  Scanner.isFile stat = true ->
  LocalPath.getLocalFilePath statSync componentName
    (registryPrefix ++ middle ++ js "/" ++ dir ++ js "/index.tsx")
  = Some (js "src/components/" ++ dir ++ js ".tsx").
Proof.
intros Hin Hslash Hne Hcomp Hstat Hfile. unfold LocalPath.getLocalFilePath.
rewrite (mapPrefix_mapping _ _ _ Hin). unfold LocalPath.flattenIndex.
assert (Hidx : JS.includes
                 (registryPrefix ++ middle ++ js "/" ++ dir ++ js "/index.tsx")
                 (js "index.tsx") = true).
{ change (js "/index.tsx") with (js "/" ++ js "index.tsx" ++ []).
  rewrite !app_assoc. rewrite <- (app_assoc _ (js "index.tsx") []).
  apply includes_app. }
rewrite Hidx.
assert (Hparts : exists parts,
          JS.split 47 (localPrefix ++ middle ++ js "/" ++ dir ++ js "/index.tsx")
          = parts ++ [dir; js "index.tsx"]).
{ exists (JS.split 47 (localPrefix ++ middle)).
  rewrite (app_assoc localPrefix middle).
  change (js "/" ++ dir ++ js "/index.tsx")
    with (47 :: (dir ++ 47 :: js "index.tsx")).
  rewrite split_app_segments. f_equal.
  now rewrite split_app_sep. }
destruct Hparts as (parts & ->). rewrite secondToLast_snoc2.
destruct dir as [|c dir]; [congruence|]. cbn [Scanner.truthy].
rewrite bool_decide_eq_false_2 by exact Hcomp. cbn [negb andb].
now rewrite Hstat, Hfile.
Qed.

Lemma local_path_flattens_index_witness :
  LocalPath.getLocalFilePath Sample.statTwoButtons (js "use-button")
    (js "registry/hooks" ++ js "/forms" ++ js "/" ++ js "button"
       ++ js "/index.tsx")
  = Some (js "src/components/" ++ js "button" ++ js ".tsx").
Proof.
apply (local_path_flattens_index Sample.statTwoButtons (js "use-button")
         (js "registry/hooks") (js "src/hooks") (js "/forms") (js "button")
         Sample.regularFile).
- apply list_elem_of_In. simpl. right. now left.
- intros H. apply list_elem_of_In in H. vm_compute in H.
  intuition discriminate.
- discriminate.
- discriminate.
- reflexivity.
- reflexivity.
Defined.

(** ** Confirmation *)

Section ConfirmFacts.

Variable installer : Installer.
Variable isForce : bool.
Variable components : list jsstring.

(** Keys that decide nothing leave everything as it is. *)
Lemma pressAll_undecided (keys : list Confirm.Key) (st : Confirm.State)
    (w : World) :
  Forall (fun k => Confirm.answer k = None) keys ->
  Confirm.pressAll installer isForce components st keys w = (inr st, w).
Proof.
induction 1 as [|k keys Hk _ IH]; [reflexivity|].
cbn [Confirm.pressAll]. unfold Eff.bind, Confirm.press.
rewrite Hk. now destruct (Confirm.prompting components st).
Qed.

(** Once the prompt is gone no key has any effect. *)
Lemma pressAll_unmounted (keys : list Confirm.Key) (st : Confirm.State)
    (w : World) :
  Confirm.prompting components st = false ->
  Confirm.pressAll installer isForce components st keys w = (inr st, w).
Proof.
intros Hst. induction keys as [|k keys IH]; [reflexivity|].
cbn [Confirm.pressAll]. unfold Eff.bind, Confirm.press.
now rewrite Hst.
Qed.

Lemma pressAll_app (keys later : list Confirm.Key) :
  forall (st : Confirm.State) (w : World) (st' : Confirm.State) (w' : World),
    Confirm.pressAll installer isForce components st keys w = (inr st', w') ->
    Confirm.pressAll installer isForce components st (keys ++ later) w
    = Confirm.pressAll installer isForce components st' later w'.
Proof.
induction keys as [|k keys IH]; intros st w st' w'.
- intros [= -> ->]. reflexivity.
- rewrite <- app_comm_cons. cbn [Confirm.pressAll]. unfold Eff.bind.
  destruct (Confirm.press installer isForce components st k w)
    as [[e|st1] w1]; [discriminate|].
  apply IH.
Qed.

End ConfirmFacts.

(** X16. With a single component, keys that decide nothing are ignored and
    the first key that decides settles it: a refusal records [skipped] and
    starts no subprocess, an acceptance records what [updateComponent]
    returns; the completed list has that one entry and later keys change
    nothing. *)
Theorem confirm_single_component
    (installer : Installer) (isForce confirmed : bool) (component : jsstring)
    (undecided later : list Confirm.Key) (k : Confirm.Key) (w : World) :
  Forall (fun k' => Confirm.answer k' = None) undecided ->
  Confirm.answer k = Some confirmed ->
  exists st' r w',
    Confirm.pressAll installer isForce [component] Confirm.initial
      (undecided ++ k :: later) w = (inr st', w')
    /\ Confirm.completed [component] st' = Some [(component, r)]
    /\ (if confirmed
        then Driver.updateComponent installer component isForce w
             = (inr r, w')
        else r = skipped /\ w' = w).
Proof.
intros Hundecided Hk.
rewrite (pressAll_app installer isForce [component] undecided (k :: later)
           Confirm.initial w Confirm.initial w)
  by now apply pressAll_undecided.
cbn [Confirm.pressAll]. unfold Eff.bind at 1. unfold Confirm.press.
change (Confirm.prompting [component] Confirm.initial) with true.
cbn iota. rewrite Hk. unfold Confirm.onConfirm.
change (default [] ([component] !! Confirm.currentIndex Confirm.initial))
  with component.
destruct confirmed.
- destruct (updateComponent_returns installer component isForce w)
    as (r & w1 & Hrun & _).
  rewrite (bind_returned _ _ _ _ _ Hrun). unfold Eff.ret at 1.
  rewrite pressAll_unmounted by reflexivity.
  eexists _, r, w1. split; [reflexivity|]. split; [reflexivity|exact Hrun].
- unfold Eff.bind, Eff.ret at 1 2.
  rewrite pressAll_unmounted by reflexivity.
  eexists _, skipped, w. split; [reflexivity|]. now split.
Qed.

Lemma confirm_single_component_witness :
  exists st' r w',
    Confirm.pressAll Sample.failing false [js "card"] Confirm.initial
      ([Scenario.keyX; Scenario.keyX] ++ Scenario.keyN :: [Scenario.keyReturn])
      emptyWorld = (inr st', w')
    /\ Confirm.completed [js "card"] st' = Some [(js "card", r)]
    /\ r = skipped /\ w' = emptyWorld.
Proof.
apply (confirm_single_component Sample.failing false false (js "card")
         [Scenario.keyX; Scenario.keyX] [Scenario.keyReturn] Scenario.keyN
         emptyWorld).
- repeat constructor.
- reflexivity.
Defined.

(** X17. With two components or more the dialogue never completes: whatever
    keys are pressed, at most one component is decided and at most one
    subprocess is started, after which the prompt is gone and keys have no
    effect. *)
Theorem confirm_stalls_after_first
    (installer : Installer) (isForce : bool) (components : list jsstring)
    (keys : list Confirm.Key) (w : World) :
  (2 <= length components)%nat ->
  exists st' w',
    Confirm.pressAll installer isForce components Confirm.initial keys w
    = (inr st', w')
    /\ Confirm.completed components st' = None
    /\ (length (Confirm.results st') <= 1)%nat
    /\ (Confirm.results st' <> [] ->
        Confirm.prompting components st' = false)
    /\ (length (spawned w') <= length (spawned w) + 1)%nat.
Proof.
intros Hlen. induction keys as [|k keys IH].
- exists Confirm.initial, w. split; [reflexivity|].
  unfold Confirm.completed. cbn [Confirm.currentIndex Confirm.initial].
  rewrite (proj2 (Nat.leb_gt _ _)) by lia.
  split; [reflexivity|]. split; [simpl; lia|]. split; [now intros []|lia].
- cbn [Confirm.pressAll]. unfold Eff.bind at 1. unfold Confirm.press.
  assert (Hprompt : Confirm.prompting components Confirm.initial = true).
  { unfold Confirm.prompting. cbn [Confirm.currentIndex Confirm.initial
      Confirm.awaitingConfirmation].
    rewrite (proj2 (Nat.ltb_lt _ _)) by lia. reflexivity. }
  rewrite Hprompt.
  destruct (Confirm.answer k) as [confirmed|]; [|exact IH].
  clear IH. unfold Confirm.onConfirm.
  assert (Hstep : exists r w1,
    (if confirmed
     then Driver.updateComponent installer
            (default [] (components !! Confirm.currentIndex Confirm.initial))
            isForce
     else Eff.ret skipped) w = (inr r, w1)
    /\ (length (spawned w1) <= length (spawned w) + 1)%nat).
  { destruct confirmed.
    - destruct (updateComponent_returns installer
                  (default [] (components
                               !! Confirm.currentIndex Confirm.initial))
                  isForce w) as (r & w1 & Hrun & Hsp & _).
      exists r, w1. split; [exact Hrun|].
      rewrite Hsp, length_app. simpl. lia.
    - exists skipped, w. split; [reflexivity|lia]. }
  destruct Hstep as (r & w1 & Hrun & Hsp).
  rewrite (bind_returned _ _ _ _ _ Hrun). unfold Eff.ret at 1.
  rewrite pressAll_unmounted
    by (unfold Confirm.prompting; cbn [Confirm.awaitingConfirmation];
        apply andb_false_r).
  eexists _, w1. split; [reflexivity|].
  unfold Confirm.completed.
  cbn [Confirm.currentIndex Confirm.initial Confirm.results].
  rewrite (proj2 (Nat.leb_gt _ _)) by lia.
  split; [reflexivity|]. split; [simpl; lia|].
  split; [|exact Hsp].
  intros _. unfold Confirm.prompting. cbn [Confirm.awaitingConfirmation].
  apply andb_false_r.
Qed.

Lemma confirm_stalls_after_first_witness :
  exists st' w',
    Confirm.pressAll Sample.failing false [js "button"; js "card"]
      Confirm.initial [Scenario.keyReturn; Scenario.keyReturn] emptyWorld
    = (inr st', w')
    /\ Confirm.completed [js "button"; js "card"] st' = None
    /\ (length (Confirm.results st') <= 1)%nat
    /\ (Confirm.results st' <> [] ->
        Confirm.prompting [js "button"; js "card"] st' = false)
    /\ (length (spawned w') <= length (spawned emptyWorld) + 1)%nat.
Proof.
apply (confirm_stalls_after_first Sample.failing false
         [js "button"; js "card"] [Scenario.keyReturn; Scenario.keyReturn]
         emptyWorld).
simpl. lia.
Defined.

(** ** The run as a whole *)

Section DispatchFacts.

Variable installer : Installer.
Variable readdirSync : jsstring -> JsError + list jsstring.
Variable statSync : jsstring -> JsError + Scanner.Stats.
Variable join : jsstring -> jsstring -> jsstring.
Variable readFileSync : jsstring -> JsError + jsstring.
Variable fetchRegistry : JsError + App.RegistryResponse.
Variable fetchComponent : jsstring -> JsError + App.ComponentResponse.
Variable getLocalFilePath : jsstring -> jsstring -> option jsstring.
Variable scheduling : App.Scheduling.

(** A computation that returns and starts no subprocess. *)
Let quiet {A} (m : Eff.M World A) : Prop :=
  forall w, exists a w', m w = (inr a, w') /\ spawned w' = spawned w.

Lemma quiet_ret {A} (a : A) : quiet (Eff.ret a).
Proof. intros w. now exists a, w. Qed.

Lemma quiet_modify (g : World -> World) :
  (forall w, spawned (g w) = spawned w) -> quiet (Eff.modify g).
Proof. intros Hg w. exists tt, (g w). split; [reflexivity|apply Hg]. Qed.

Lemma quiet_bind {A B} (m : Eff.M World A) (k : A -> Eff.M World B) :
  quiet m -> (forall a, quiet (k a)) -> quiet (Eff.bind m k).
Proof.
intros Hm Hk w. destruct (Hm w) as (a & w1 & Hrun & Hsp).
destruct (Hk a w1) as (b & w2 & Hrun2 & Hsp2).
exists b, w2. rewrite (bind_returned _ _ _ _ _ Hrun).
split; [exact Hrun2|congruence].
Qed.

Lemma quiet_consoleLog (line : jsstring) : quiet (Proc.consoleLog line).
Proof. now apply quiet_modify. Qed.

Lemma quiet_addProgressMessage (message : jsstring) :
  quiet (Proc.addProgressMessage message).
Proof. now apply quiet_modify. Qed.

Lemma quiet_setApp (g : AppState -> AppState) : quiet (Proc.setApp g).
Proof. now apply quiet_modify. Qed.

Lemma quiet_if {A} (b : bool) (m1 m2 : Eff.M World A) :
  quiet m1 -> quiet m2 -> quiet (if b then m1 else m2).
Proof. now destruct b. Qed.

Lemma quiet_tryCatch {A} (body : Eff.M World A) (h : JsError -> Eff.M World A) :
  (forall w, spawned (snd (body w)) = spawned w) ->
  (forall e, quiet (h e)) -> quiet (Eff.tryCatch body h).
Proof.
intros Hbody Hh w. unfold Eff.tryCatch. specialize (Hbody w).
destruct (body w) as [[e|a] w1]; cbn [snd] in Hbody.
- destruct (Hh e w1) as (a & w2 & Hrun & Hsp). exists a, w2.
  split; [exact Hrun|congruence].
- now exists a, w1.
Qed.

Ltac quiet_step :=
  first
    [ apply quiet_bind; [|intros ?]
    | apply quiet_if
    | apply quiet_consoleLog
    | apply quiet_addProgressMessage
    | apply quiet_setApp
    | apply quiet_ret ].

Lemma quiet_dryRun (regComponents : list jsstring) :
  quiet (App.dryRun regComponents).
Proof. unfold App.dryRun, App.exit. repeat quiet_step. Qed.

(** The one branch of [dispatch] that starts a subprocess. *)
Let installs (f : App.Flags) (regComponents : list jsstring) : list jsstring :=
  if negb (App.isAddAll f) && negb (App.isAddMissing f)
     && App.truthy (App.componentArg f)
     && JS.arrayIncludes regComponents (default [] (App.componentArg f))
     && negb (App.isDiff f) && App.isForce f
  then [Driver.command (default [] (App.componentArg f)) true]
  else [].

Lemma dispatch_spawned (f : App.Flags)
    (regComponents verifiedMissing : list jsstring) (w : World) :
  exists w',
    App.dispatch installer readFileSync fetchComponent getLocalFilePath
      f regComponents verifiedMissing w = (inr tt, w')
    /\ spawned w' = spawned w ++ installs f regComponents.
Proof.
assert (Hquiet : forall m : Eff.M World unit, quiet m ->
          exists w', m w = (inr tt, w') /\ spawned w' = spawned w ++ []).
{ intros m Hm. destruct (Hm w) as ([] & w' & Hrun & Hsp).
  exists w'. now rewrite app_nil_r. }
unfold App.dispatch, installs.
destruct (App.isAddAll f); cbn [negb andb].
{ apply Hquiet. unfold App.setMissingComponents, App.setMode, App.exit.
  repeat first [apply quiet_dryRun|quiet_step]. }
destruct (App.isAddMissing f); cbn [negb andb].
{ apply Hquiet. unfold App.setMode, App.exit. repeat quiet_step. }
destruct (App.truthy (App.componentArg f)); cbn [negb andb].
2:{ apply Hquiet. unfold App.exit. repeat quiet_step. }
destruct (JS.arrayIncludes regComponents _); cbn [negb andb].
2:{ apply Hquiet. unfold App.exit. repeat quiet_step. }
destruct (App.isDiff f); cbn [negb andb].
{ apply Hquiet. unfold App.setDiffResults, App.setMode, App.setError.
  quiet_step; [quiet_step|].
  apply quiet_tryCatch; [|intros e; quiet_step].
  intros w0. unfold Eff.bind, Eff.lift.
  now destruct (App.fetchComponentDetails fetchComponent _). }
destruct (App.isForce f).
2:{ apply Hquiet. unfold App.setMode. repeat quiet_step. }
unfold App.setUpdateResults, App.setMode.
rewrite (bind_returned _ _ _ _ _ (consoleLog_result _ w)).
match goal with
| |- context [Eff.bind (Driver.updateComponent _ ?c _) _ ?w0] =>
    destruct (updateComponent_returns installer c true w0)
      as (r & w1 & Hrun & Hsp & _)
end.
rewrite (bind_returned _ _ _ _ _ Hrun).
match goal with
| |- context [Eff.bind ?m ?k w1] =>
    assert (Hrest : quiet (Eff.bind m k))
      by (repeat quiet_step)
end.
destruct (Hrest w1) as ([] & w2 & Hrun2 & Hsp2).
exists w2. split; [exact Hrun2|]. now rewrite Hsp2, Hsp.
Qed.

(** [loadData] up to the dispatch on the flags, when the registry request
    succeeds. *)
Lemma loadData_loaded (f : App.Flags) (registry : list jsstring) :
  App.fetchRegistryComponents fetchRegistry = inr registry ->
  exists existing missing w1,
    Scanner.getExistingComponents readdirSync statSync join = inr existing
    /\ spawned w1
       = List.map Verifier.command
           (Reconciler.potentialMismatches registry existing)
    /\ app w1 = mkApp registry existing missing false None view [] [] false
    /\ forall w,
         App.dispatch installer readFileSync fetchComponent getLocalFilePath
           f registry missing w1 = (inr tt, w) ->
         App.loadData installer readdirSync statSync join readFileSync
           fetchRegistry fetchComponent getLocalFilePath scheduling f
           emptyWorld
         = (inr tt, w).
Proof.
intros Hfetch.
pose proof (getExistingComponents_names readdirSync statSync join) as Hex.
set (existing := concat _ ++ _) in Hex.
exists existing.
unfold App.loadData.
unfold Proc.addProgressMessage at 1.
match goal with
| |- context [Eff.tryCatch ?body ?h] =>
    assert (Hbody : exists missing w1,
      spawned w1
      = List.map Verifier.command
          (Reconciler.potentialMismatches registry existing)
      /\ app w1 = mkApp registry existing missing false None view [] [] false
      /\ body emptyWorld
         = App.dispatch installer readFileSync fetchComponent
             getLocalFilePath f registry missing w1)
end.
{ rewrite bind_modify, Hex, bind_lift_returned, Hfetch, bind_lift_returned.
  unfold Proc.addProgressMessage at 1 2.
  unfold App.setRegistryComponents, App.setExistingComponents, Proc.setApp.
  rewrite !bind_modify.
  match goal with
  | |- context [Eff.bind (Reconciler.getVerifiedMissingComponents _ _ _ _) _ ?w0] =>
      destruct (getVerifiedMissingComponents_result installer registry
                  existing w0) as (missing & w1 & Hrun & Hsp & Happ)
  end.
  rewrite (bind_returned _ _ _ _ _ Hrun).
  unfold App.setMissingComponents, App.setLoading, Proc.setApp,
    Proc.addProgressMessage.
  rewrite !bind_modify.
  exists missing. eexists. split; [|split; [|reflexivity]].
  - cbn [spawned]. rewrite Hsp. reflexivity.
  - cbn [app]. rewrite Happ. reflexivity. }
destruct Hbody as (missing & w1 & Hsp & Happ & Hbody).
exists missing, w1. split; [exact Hex|]. split; [exact Hsp|].
split; [exact Happ|].
intros w Hd. apply tryCatch_returned. now rewrite Hbody.
Qed.

(** [loadData] when the registry request fails with an error that
    carries a message: rendered one by one, the update of [error] lets the
    effect call [exit] while [loading] is still true, and the update of
    [loading] is dropped. *)
Lemma loadData_failed (f : App.Flags) (message : jsstring) :
  App.fetchRegistryComponents fetchRegistry = inl (ErrorObject message) ->
  message <> [] ->
  App.loadData installer readdirSync statSync join readFileSync
    fetchRegistry fetchComponent getLocalFilePath scheduling f emptyWorld
  = (inr tt,
     mkWorld [] []
       [[55356; 57104] ++ js " Fetching registry components..."]
       match scheduling with
       | App.Batched => mkApp [] [] [] false (Some message) view [] [] false
       | App.OneByOne => mkApp [] [] [] true (Some message) view [] [] true
       end).
Proof.
intros Hfetch Hmessage.
pose proof (getExistingComponents_names readdirSync statSync join) as Hex.
unfold App.loadData. unfold Proc.addProgressMessage at 1.
erewrite tryCatch_thrown.
2:{ rewrite bind_modify, Hex, bind_lift_returned, Hfetch. reflexivity. }
destruct message as [|c message]; [congruence|].
now destruct scheduling.
Qed.

End DispatchFacts.

(** X18. When the registry request fails with an error that carries a
    message, no subprocess is started and nothing is printed; the message
    is stored as the error and the effect of [App] on it calls [exit].  The
    last frame is the error view with that message when the two updates of
    the catch clause are rendered together; when each update is rendered on
    its own it is still the loading spinner, the error view is never
    shown. *)
Theorem run_registry_failure
    (installer : Installer)
    (readdirSync : jsstring -> JsError + list jsstring)
    (statSync : jsstring -> JsError + Scanner.Stats)
    (join : jsstring -> jsstring -> jsstring)
    (readFileSync : jsstring -> JsError + jsstring)
    (fetchRegistry : JsError + App.RegistryResponse)
    (fetchComponent : jsstring -> JsError + App.ComponentResponse)
    (getLocalFilePath : jsstring -> jsstring -> option jsstring)
    (scheduling : App.Scheduling)
    (argv : list jsstring) (message : jsstring) :
  App.validate argv = None ->
  App.fetchRegistryComponents fetchRegistry = inl (ErrorObject message) ->
  message <> [] ->
  exists w,
    App.run installer readdirSync statSync join readFileSync fetchRegistry
      fetchComponent getLocalFilePath scheduling argv
    = App.Rendered w
        match scheduling with
        | App.Batched => App.ErrorView message
        | App.OneByOne =>
            App.LoadingSpinner
              [[55356; 57104] ++ js " Fetching registry components..."]
        end
    /\ spawned w = [] /\ console w = []
    /\ error (app w) = Some message /\ exited (app w) = true.
Proof.
intros Hvalid Hfetch Hmessage. unfold App.run. rewrite Hvalid.
rewrite (bind_returned _ _ _ _ _
           (loadData_failed installer readdirSync statSync join readFileSync
              fetchRegistry fetchComponent getLocalFilePath scheduling
              (App.parseFlags argv) message Hfetch Hmessage)).
destruct message as [|c message]; [congruence|].
destruct scheduling; eexists; (split; [reflexivity|]); now repeat split.
Qed.

Lemma run_registry_failure_witness :
  exists w,
    App.run Sample.failing Sample.noDirectory Sample.noFile Sample.joinPath
      Sample.noText Scenario.unavailable Sample.noComponent
      Sample.noLocalPath App.OneByOne Sample.bareArgv
    = App.Rendered w
        (App.LoadingSpinner
           [[55356; 57104] ++ js " Fetching registry components..."])
    /\ spawned w = [] /\ console w = []
    /\ error (app w)
       = Some (js "Failed to fetch registry: 503 Service Unavailable")
    /\ exited (app w) = true.
Proof.
apply (run_registry_failure Sample.failing Sample.noDirectory Sample.noFile
         Sample.joinPath Sample.noText Scenario.unavailable
         Sample.noComponent Sample.noLocalPath App.OneByOne Sample.bareArgv
         (js "Failed to fetch registry: 503 Service Unavailable")).
- reflexivity.
- reflexivity.
- discriminate.
Defined.

(** X19. With [--add-all] and [--force] and a registry that is not empty,
    the run ends in the batch installation of every registry name, in
    registry order, whatever is installed locally and whatever else is on
    the command line; up to that view only the probes of the Existence
    Verifier have been started. *)
Theorem run_add_all_force
    (installer : Installer)
    (readdirSync : jsstring -> JsError + list jsstring)
    (statSync : jsstring -> JsError + Scanner.Stats)
    (join : jsstring -> jsstring -> jsstring)
    (readFileSync : jsstring -> JsError + jsstring)
    (fetchRegistry : JsError + App.RegistryResponse)
    (fetchComponent : jsstring -> JsError + App.ComponentResponse)
    (getLocalFilePath : jsstring -> jsstring -> option jsstring)
    (scheduling : App.Scheduling)
    (argv registry : list jsstring) :
  App.validate argv = None ->
  js "--add-all" ∈ argv -> js "--force" ∈ argv ->
  App.fetchRegistryComponents fetchRegistry = inr registry ->
  registry <> [] ->
  exists existing w,
    Scanner.getExistingComponents readdirSync statSync join = inr existing
    /\ App.run installer readdirSync statSync join readFileSync fetchRegistry
         fetchComponent getLocalFilePath scheduling argv
       = App.Rendered w (App.UpdateProgressComponent registry true)
    /\ spawned w
       = List.map Verifier.command
           (Reconciler.potentialMismatches registry existing).
Proof.
intros Hvalid Hall Hforce Hfetch Hne. unfold App.run. rewrite Hvalid.
destruct (loadData_loaded installer readdirSync statSync join readFileSync
            fetchRegistry fetchComponent getLocalFilePath scheduling
            (App.parseFlags argv) registry Hfetch)
  as (existing & missing & w1 & Hex & Hsp & Happ & Hload).
exists existing.
assert (HaddAll : App.isAddAll (App.parseFlags argv) = true)
  by (now apply bool_decide_eq_true_2).
assert (HisForce : App.isForce (App.parseFlags argv) = true)
  by (now apply bool_decide_eq_true_2).
erewrite bind_returned.
2:{ apply Hload. unfold App.dispatch. rewrite HaddAll, HisForce.
    destruct registry as [|n registry]; [congruence|]. reflexivity. }
rewrite errorEffect_unset by (cbn [app]; now rewrite Happ).
cbn [snd]. eexists. split; [exact Hex|]. split.
- unfold App.render. cbn [app]. rewrite Happ, HaddAll. reflexivity.
- exact Hsp.
Qed.

Lemma run_add_all_force_witness :
  exists existing w,
    Scanner.getExistingComponents Sample.twoButtons Sample.statTwoButtons
      Sample.joinPath = inr existing
    /\ App.run Sample.failing Sample.twoButtons Sample.statTwoButtons
         Sample.joinPath Sample.noText Sample.cardRegistry Sample.noComponent
         Sample.noLocalPath App.OneByOne Scenario.addAllForce
       = App.Rendered w (App.UpdateProgressComponent [js "card"] true)
    /\ spawned w
       = List.map Verifier.command
           (Reconciler.potentialMismatches [js "card"] existing).
Proof.
apply (run_add_all_force Sample.failing Sample.twoButtons
         Sample.statTwoButtons Sample.joinPath Sample.noText
         Sample.cardRegistry Sample.noComponent Sample.noLocalPath
         App.OneByOne Scenario.addAllForce [js "card"]).
- reflexivity.
- apply list_elem_of_In. simpl. right. right. now left.
- apply list_elem_of_In. simpl. right. right. right. now left.
- reflexivity.
- discriminate.
Defined.

(** X20. In a run whose registry request succeeds, the subprocesses started
    up to the first view are the probes of the Existence Verifier, followed
    by one overwriting installation exactly when a component is named that
    the registry lists, [--force] is given and none of [--add-all],
    [--add-missing] and [--diff] is; no other command line starts an
    installation before the view. *)
Theorem run_installs_only_named_forced
    (installer : Installer)
    (readdirSync : jsstring -> JsError + list jsstring)
    (statSync : jsstring -> JsError + Scanner.Stats)
    (join : jsstring -> jsstring -> jsstring)
    (readFileSync : jsstring -> JsError + jsstring)
    (fetchRegistry : JsError + App.RegistryResponse)
    (fetchComponent : jsstring -> JsError + App.ComponentResponse)
    (getLocalFilePath : jsstring -> jsstring -> option jsstring)
    (scheduling : App.Scheduling)
    (argv registry : list jsstring) :
  App.validate argv = None ->
  App.fetchRegistryComponents fetchRegistry = inr registry ->
  exists existing w v,
    Scanner.getExistingComponents readdirSync statSync join = inr existing
    /\ App.run installer readdirSync statSync join readFileSync fetchRegistry
         fetchComponent getLocalFilePath scheduling argv
       = App.Rendered w v
    /\ spawned w
       = List.map Verifier.command
           (Reconciler.potentialMismatches registry existing)
         ++ (let f := App.parseFlags argv in
             let arg := default [] (App.componentArg f) in
             if negb (App.isAddAll f) && negb (App.isAddMissing f)
                && App.truthy (App.componentArg f)
                && JS.arrayIncludes registry arg
                && negb (App.isDiff f) && App.isForce f
             then [Driver.command arg true]
             else []).
Proof.
intros Hvalid Hfetch. unfold App.run. rewrite Hvalid.
destruct (loadData_loaded installer readdirSync statSync join readFileSync
            fetchRegistry fetchComponent getLocalFilePath scheduling
            (App.parseFlags argv) registry Hfetch)
  as (existing & missing & w1 & Hex & Hsp & Happ & Hload).
destruct (dispatch_spawned installer readFileSync fetchComponent
            getLocalFilePath (App.parseFlags argv) registry missing w1)
  as (w & Hd & Hspw).
rewrite (bind_returned _ _ _ _ _ (Hload w Hd)).
destruct (errorEffect_spawned w) as (w' & -> & Hspw').
cbn [snd].
exists existing, w'. eexists. split; [exact Hex|]. split; [reflexivity|].
now rewrite Hspw', Hspw, Hsp.
Qed.

Lemma run_installs_only_named_forced_witness :
  exists existing w v,
    Scanner.getExistingComponents Sample.twoButtons Sample.statTwoButtons
      Sample.joinPath = inr existing
    /\ App.run Sample.failing Sample.twoButtons Sample.statTwoButtons
         Sample.joinPath Sample.noText Sample.cardRegistry Sample.noComponent
         Sample.noLocalPath App.Batched Scenario.cardForce
       = App.Rendered w v
    /\ spawned w
       = List.map Verifier.command
           (Reconciler.potentialMismatches [js "card"] existing)
         ++ [Driver.command (js "card") true].
Proof.
apply (run_installs_only_named_forced Sample.failing Sample.twoButtons
         Sample.statTwoButtons Sample.joinPath Sample.noText
         Sample.cardRegistry Sample.noComponent Sample.noLocalPath
         App.Batched Scenario.cardForce [js "card"]).
- reflexivity.
- reflexivity.
Defined.
